(** * PhishNet: the organization-scoped store and its route layer

    A shallow embedding of the storage layer (the [IStorage] interface
    with its two backings, [MemStorage] and [DatabaseStorage]; the module
    that [server/routes.ts] imports as [./storage], whose text the sources
    hold in [client/src/pages/templates-page.tsx]), of the insert schemas
    of [shared/schema.ts] and of the handlers of [server/routes.ts] that
    read the targets of a group, import targets and compose campaigns,
    followed by the properties of the design specification that were
    checked against them. *)

From Stdlib Require Import ZArith String Ascii List Bool Lia QArith Sorted
  Permutation.
From stdpp Require Import base option list gmap strings fin_maps.

Local Open Scope Z_scope.
Local Open Scope string_scope.

(** ** JavaScript values and objects *)

(** The values stored in entity fields.  Numbers are the integers the
    store handles (identifiers, ports, counts); a [Date] is its epoch
    time in milliseconds. *)
Inductive value : Type :=
  | VUndef
  | VNull
  | VBool (b : bool)
  | VNum (n : Z)
  | VStr (s : string)
  | VDate (t : Z).

#[global] Instance value_eq_dec : EqDecision value.
Proof. solve_decision. Defined.

(** A plain object: a finite map from property names to values. *)
Abbreviation obj := (gmap string value).

(** Property access [o.k]: a missing property reads as [undefined]. *)
Definition js_get (o : obj) (k : string) : value := default VUndef (o !! k).

(** An object literal [{k1: v1, ..., kn: vn}]; a later key overrides
    an earlier one. *)
Definition js_object (kvs : list (string * value)) : obj :=
  fold_left (fun o kv => <[fst kv := snd kv]> o) kvs ∅.

(** Object spread [{...a, ...b}]: the properties of [b] override those of [a]. *)
Definition js_spread (a b : obj) : obj := b ∪ a.

(** Truthiness, as used by [||], [!] and the conditional operator. *)
Definition truthy (v : value) : bool :=
  match v with
  | VUndef | VNull => false
  | VBool b => b
  | VNum n => negb (Z.eqb n 0)
  | VStr s => negb (String.eqb s "")
  | VDate _ => true
  end.

(** [a || b] *)
Definition js_or (a b : value) : value := if truthy a then a else b.

(** Strict equality [===] on the primitive values; two [Date]s are objects
    and are compared by reference, which no code modelled here does. *)
Definition strict_eq (a b : value) : bool :=
  match a, b with
  | VUndef, VUndef | VNull, VNull => true
  | VBool x, VBool y => Bool.eqb x y
  | VNum x, VNum y => Z.eqb x y
  | VStr x, VStr y => String.eqb x y
  | _, _ => false
  end.

(** Optional typed inputs as values: an absent property is [undefined]. *)
Definition of_opt_str (o : option string) : value :=
  match o with Some s => VStr s | None => VUndef end.
Definition of_opt_bool (o : option bool) : value :=
  match o with Some b => VBool b | None => VUndef end.
Definition of_opt_date (o : option Z) : value :=
  match o with Some t => VDate t | None => VUndef end.

(** [String.prototype.toLowerCase] on text of ASCII characters: the
    letters A to Z are lowered.  The method of JavaScript lowers letters
    outside ASCII too, which this function leaves as they are; the
    header names it is compared with in the import are ASCII, and the
    statements about the lookups by email and by name are for ASCII
    text. *)
Definition lower_ascii (c : ascii) : ascii :=
  let n := nat_of_ascii c in
  if (Nat.leb 65 n && Nat.leb n 90)%bool then ascii_of_nat (n + 32) else c.

Fixpoint toLowerCase (s : string) : string :=
  match s with
  | EmptyString => EmptyString
  | String c s' => String (lower_ascii c) (toLowerCase s')
  end.

(** [v.toLowerCase()] on a property value.  The properties it is applied
    to ([email], [name]) are typed [string].  On a value that is not a
    string the call throws a [TypeError], which is not represented here:
    the result is then [VUndef], which equals no string; the statements
    about the lookups suppose that the fields hold strings. *)
Definition js_toLowerCase (v : value) : value :=
  match v with VStr s => VStr (toLowerCase s) | _ => VUndef end.

(** ** [Map<number, E>]: a map that remembers insertion order *)

Definition JsMap := list (Z * obj).

Fixpoint Map_get (k : Z) (m : JsMap) : option obj :=
  match m with
  | [] => None
  | (k', v) :: m' => if Z.eqb k k' then Some v else Map_get k m'
  end.

Definition Map_has (k : Z) (m : JsMap) : bool :=
  match Map_get k m with Some _ => true | None => false end.

(** [m.set(k, v)]: an existing key keeps its place, a new key goes last. *)
Fixpoint Map_set (k : Z) (v : obj) (m : JsMap) : JsMap :=
  match m with
  | [] => [(k, v)]
  | (k', v') :: m' =>
      if Z.eqb k k' then (k, v) :: m' else (k', v') :: Map_set k v m'
  end.

(** [m.delete(k)]: the map without [k], and whether [k] was there. *)
Definition Map_remove (k : Z) (m : JsMap) : JsMap :=
  List.filter (fun kv => negb (Z.eqb (fst kv) k)) m.

Definition Map_delete (k : Z) (m : JsMap) : bool * JsMap :=
  (Map_has k m, Map_remove k m).

Definition Map_values (m : JsMap) : list obj := List.map snd m.
Definition Map_entries (m : JsMap) : list (Z * obj) := m.
Definition Map_keys (m : JsMap) : list Z := List.map fst m.

(** ** [shared/schema.ts]: the insert shapes *)

(** The [Insert*] types inferred from the insert schemas.  An optional or
    nullable property is an [option]: [None] stands for both an absent
    property and [null], which every use below treats alike. *)

Record InsertUser := {
  iu_email : string;
  iu_password : string;
  iu_firstName : string;
  iu_lastName : string;
  iu_isAdmin : option bool;
  iu_organizationName : string;
  iu_organizationId : Z
}.

Record InsertOrganization := { io_name : string }.

Record InsertGroup := {
  ig_name : string;
  ig_description : option string
}.

Record InsertTarget := {
  it_firstName : string;
  it_lastName : string;
  it_email : string;
  it_position : option string
}.

Record InsertSmtpProfile := {
  is_name : string;
  is_host : string;
  is_port : Z;
  is_username : string;
  is_password : string;
  is_fromName : string;
  is_fromEmail : string
}.

Record InsertEmailTemplate := {
  ie_name : string;
  ie_subject : string;
  ie_htmlContent : string;
  ie_textContent : option string;
  ie_senderName : string;
  ie_senderEmail : string
}.

Record InsertLandingPage := {
  il_name : string;
  il_description : option string;
  il_htmlContent : string;
  il_redirectUrl : option string;
  il_pageType : string;
  il_thumbnail : option string
}.

Record InsertCampaign := {
  ic_name : string;
  ic_targetGroupId : Z;
  ic_smtpProfileId : Z;
  ic_emailTemplateId : Z;
  ic_landingPageId : Z;
  ic_scheduledAt : option Z;
  ic_endDate : option Z
}.

Record InsertCampaignResult := {
  ir_campaignId : Z;
  ir_targetId : Z;
  ir_sent : option bool;
  ir_sentAt : option Z;
  ir_opened : option bool;
  ir_openedAt : option Z;
  ir_clicked : option bool;
  ir_clickedAt : option Z;
  ir_submitted : option bool;
  ir_submittedAt : option Z;
  ir_submittedData : value
}.

(** The fields of the dashboard statistics; the rates are the source's
    decimal constants. *)
Record DashboardStats := {
  activeCampaigns : nat;
  campaignChange : Z;
  successRate : Q;
  successRateChange : Q;
  totalUsers : nat;
  newUsers : Z;
  trainingCompletion : Z;
  trainingCompletionChange : Z
}.

(** [filter(p).length] and the two filters the stores share. *)
Definition in_organization (organizationId : Z) (e : obj) : bool :=
  strict_eq (js_get e "organizationId") (VNum organizationId).

Definition in_group (groupId : value) (target : obj) : bool :=
  strict_eq (js_get target "groupId") groupId.

Definition of_campaign (campaignId : value) (result : obj) : bool :=
  strict_eq (js_get result "campaignId") campaignId.

(** ** [MemStorage]: the in-memory backing *)

Module MemStorage.

(** The nine private maps and the identifier counter.  Every method
    takes the state and returns its result with the new state; a method
    that reads the clock ([new Date()]) takes that reading as [now]. *)
Record state := {
  users : JsMap;
  organizations : JsMap;
  groups : JsMap;
  targets : JsMap;
  smtpProfiles : JsMap;
  emailTemplates : JsMap;
  landingPages : JsMap;
  campaigns : JsMap;
  campaignResults : JsMap;
  currentId : Z
}.

(** The constructor. *)
Definition new : state :=
  {| users := []; organizations := []; groups := []; targets := [];
     smtpProfiles := []; emailTemplates := []; landingPages := [];
     campaigns := []; campaignResults := []; currentId := 1 |}.

Definition set_users (m : JsMap) (s : state) : state :=
  {| users := m; organizations := organizations s; groups := groups s;
     targets := targets s; smtpProfiles := smtpProfiles s;
     emailTemplates := emailTemplates s; landingPages := landingPages s;
     campaigns := campaigns s; campaignResults := campaignResults s;
     currentId := currentId s |}.
Definition set_organizations (m : JsMap) (s : state) : state :=
  {| users := users s; organizations := m; groups := groups s;
     targets := targets s; smtpProfiles := smtpProfiles s;
     emailTemplates := emailTemplates s; landingPages := landingPages s;
     campaigns := campaigns s; campaignResults := campaignResults s;
     currentId := currentId s |}.
Definition set_groups (m : JsMap) (s : state) : state :=
  {| users := users s; organizations := organizations s; groups := m;
     targets := targets s; smtpProfiles := smtpProfiles s;
     emailTemplates := emailTemplates s; landingPages := landingPages s;
     campaigns := campaigns s; campaignResults := campaignResults s;
     currentId := currentId s |}.
Definition set_targets (m : JsMap) (s : state) : state :=
  {| users := users s; organizations := organizations s; groups := groups s;
     targets := m; smtpProfiles := smtpProfiles s;
     emailTemplates := emailTemplates s; landingPages := landingPages s;
     campaigns := campaigns s; campaignResults := campaignResults s;
     currentId := currentId s |}.
Definition set_smtpProfiles (m : JsMap) (s : state) : state :=
  {| users := users s; organizations := organizations s; groups := groups s;
     targets := targets s; smtpProfiles := m;
     emailTemplates := emailTemplates s; landingPages := landingPages s;
     campaigns := campaigns s; campaignResults := campaignResults s;
     currentId := currentId s |}.
Definition set_emailTemplates (m : JsMap) (s : state) : state :=
  {| users := users s; organizations := organizations s; groups := groups s;
     targets := targets s; smtpProfiles := smtpProfiles s;
     emailTemplates := m; landingPages := landingPages s;
     campaigns := campaigns s; campaignResults := campaignResults s;
     currentId := currentId s |}.
Definition set_landingPages (m : JsMap) (s : state) : state :=
  {| users := users s; organizations := organizations s; groups := groups s;
     targets := targets s; smtpProfiles := smtpProfiles s;
     emailTemplates := emailTemplates s; landingPages := m;
     campaigns := campaigns s; campaignResults := campaignResults s;
     currentId := currentId s |}.
Definition set_campaigns (m : JsMap) (s : state) : state :=
  {| users := users s; organizations := organizations s; groups := groups s;
     targets := targets s; smtpProfiles := smtpProfiles s;
     emailTemplates := emailTemplates s; landingPages := landingPages s;
     campaigns := m; campaignResults := campaignResults s;
     currentId := currentId s |}.
Definition set_campaignResults (m : JsMap) (s : state) : state :=
  {| users := users s; organizations := organizations s; groups := groups s;
     targets := targets s; smtpProfiles := smtpProfiles s;
     emailTemplates := emailTemplates s; landingPages := landingPages s;
     campaigns := campaigns s; campaignResults := m;
     currentId := currentId s |}.

(** [const id = this.currentId++] *)
Definition nextId (s : state) : Z * state :=
  (currentId s,
   {| users := users s; organizations := organizations s; groups := groups s;
      targets := targets s; smtpProfiles := smtpProfiles s;
      emailTemplates := emailTemplates s; landingPages := landingPages s;
      campaigns := campaigns s; campaignResults := campaignResults s;
      currentId := currentId s + 1 |}).

(** The body shared by the eight [update*] methods:
    [{...entity, ...data, updatedAt: new Date()}]. *)
Definition merged (entity data : obj) (now : Z) : obj :=
  <["updatedAt" := VDate now]> (js_spread entity data).

(** *** Users *)

Definition getUser (id : Z) (s : state) : option obj := Map_get id (users s).

Definition getUserByEmail (email : string) (s : state) : option obj :=
  List.find
    (fun user =>
       strict_eq (js_toLowerCase (js_get user "email"))
                 (VStr (toLowerCase email)))
    (Map_values (users s)).

Definition createUser (user : InsertUser) (now : Z) (s : state) : obj * state :=
  let '(id, s) := nextId s in
  let newUser := js_object [
    ("id", VNum id);
    ("email", VStr (iu_email user));
    ("password", VStr (iu_password user));
    ("firstName", VStr (iu_firstName user));
    ("lastName", VStr (iu_lastName user));
    ("isAdmin", js_or (of_opt_bool (iu_isAdmin user)) (VBool false));
    ("organizationId", VNum (iu_organizationId user));
    ("organizationName", VStr (iu_organizationName user));
    ("createdAt", VDate now);
    ("updatedAt", VDate now) ] in
  (newUser, set_users (Map_set id newUser (users s)) s).

Definition updateUser (id : Z) (data : obj) (now : Z) (s : state)
  : option obj * state :=
  match Map_get id (users s) with
  | None => (None, s)
  | Some user =>
      let updatedUser := merged user data now in
      (Some updatedUser, set_users (Map_set id updatedUser (users s)) s)
  end.

Definition deleteUser (id : Z) (s : state) : bool * state :=
  let '(found, m) := Map_delete id (users s) in (found, set_users m s).

Definition listUsers (organizationId : Z) (s : state) : list obj :=
  List.filter (in_organization organizationId) (Map_values (users s)).

(** *** Organizations *)

Definition getOrganization (id : Z) (s : state) : option obj :=
  Map_get id (organizations s).

Definition getOrganizationByName (name : string) (s : state) : option obj :=
  List.find
    (fun org =>
       strict_eq (js_toLowerCase (js_get org "name"))
                 (VStr (toLowerCase name)))
    (Map_values (organizations s)).

Definition createOrganization (organization : InsertOrganization) (now : Z)
    (s : state) : obj * state :=
  let '(id, s) := nextId s in
  let newOrg := js_object [
    ("id", VNum id);
    ("name", VStr (io_name organization));
    ("createdAt", VDate now);
    ("updatedAt", VDate now) ] in
  (newOrg, set_organizations (Map_set id newOrg (organizations s)) s).

(** *** Groups *)

Definition getGroup (id : Z) (s : state) : option obj := Map_get id (groups s).

Definition createGroup (organizationId : Z) (group : InsertGroup) (now : Z)
    (s : state) : obj * state :=
  let '(id, s) := nextId s in
  let newGroup := js_object [
    ("id", VNum id);
    ("name", VStr (ig_name group));
    ("description", js_or (of_opt_str (ig_description group)) VNull);
    ("organizationId", VNum organizationId);
    ("createdAt", VDate now);
    ("updatedAt", VDate now) ] in
  (newGroup, set_groups (Map_set id newGroup (groups s)) s).

Definition updateGroup (id : Z) (data : obj) (now : Z) (s : state)
  : option obj * state :=
  match Map_get id (groups s) with
  | None => (None, s)
  | Some group =>
      let updatedGroup := merged group data now in
      (Some updatedGroup, set_groups (Map_set id updatedGroup (groups s)) s)
  end.

(** The loop deletes only the entry it is visiting, so it visits the
    entries the map had when the loop began. *)
Definition deleteGroup (id : Z) (s : state) : bool * state :=
  let targets' :=
    fold_left
      (fun m '(targetId, target) =>
         if in_group (VNum id) target then snd (Map_delete targetId m) else m)
      (Map_entries (targets s)) (targets s) in
  let s := set_targets targets' s in
  let '(found, m) := Map_delete id (groups s) in (found, set_groups m s).

Definition listGroups (organizationId : Z) (s : state) : list obj :=
  let orgGroups :=
    List.filter (in_organization organizationId) (Map_values (groups s)) in
  List.map
    (fun group =>
       let targetCount :=
         length (List.filter (in_group (js_get group "id"))
                             (Map_values (targets s))) in
       <["targetCount" := VNum (Z.of_nat targetCount)]> group)
    orgGroups.

(** *** Targets *)

Definition getTarget (id : Z) (s : state) : option obj := Map_get id (targets s).

Definition createTarget (organizationId groupId : Z) (target : InsertTarget)
    (now : Z) (s : state) : obj * state :=
  let '(id, s) := nextId s in
  let newTarget := js_object [
    ("id", VNum id);
    ("firstName", VStr (it_firstName target));
    ("lastName", VStr (it_lastName target));
    ("email", VStr (it_email target));
    ("position", js_or (of_opt_str (it_position target)) VNull);
    ("groupId", VNum groupId);
    ("organizationId", VNum organizationId);
    ("createdAt", VDate now);
    ("updatedAt", VDate now) ] in
  (newTarget, set_targets (Map_set id newTarget (targets s)) s).

Definition updateTarget (id : Z) (data : obj) (now : Z) (s : state)
  : option obj * state :=
  match Map_get id (targets s) with
  | None => (None, s)
  | Some target =>
      let updatedTarget := merged target data now in
      (Some updatedTarget, set_targets (Map_set id updatedTarget (targets s)) s)
  end.

Definition deleteTarget (id : Z) (s : state) : bool * state :=
  let '(found, m) := Map_delete id (targets s) in (found, set_targets m s).

Definition listTargets (groupId : Z) (s : state) : list obj :=
  List.filter (in_group (VNum groupId)) (Map_values (targets s)).

(** *** SMTP profiles *)

Definition getSmtpProfile (id : Z) (s : state) : option obj :=
  Map_get id (smtpProfiles s).

Definition createSmtpProfile (organizationId : Z) (profile : InsertSmtpProfile)
    (now : Z) (s : state) : obj * state :=
  let '(id, s) := nextId s in
  let newProfile := js_object [
    ("id", VNum id);
    ("name", VStr (is_name profile));
    ("host", VStr (is_host profile));
    ("port", VNum (is_port profile));
    ("username", VStr (is_username profile));
    ("password", VStr (is_password profile));
    ("fromName", VStr (is_fromName profile));
    ("fromEmail", VStr (is_fromEmail profile));
    ("organizationId", VNum organizationId);
    ("createdAt", VDate now);
    ("updatedAt", VDate now) ] in
  (newProfile, set_smtpProfiles (Map_set id newProfile (smtpProfiles s)) s).

Definition updateSmtpProfile (id : Z) (data : obj) (now : Z) (s : state)
  : option obj * state :=
  match Map_get id (smtpProfiles s) with
  | None => (None, s)
  | Some profile =>
      let updatedProfile := merged profile data now in
      (Some updatedProfile,
       set_smtpProfiles (Map_set id updatedProfile (smtpProfiles s)) s)
  end.

Definition deleteSmtpProfile (id : Z) (s : state) : bool * state :=
  let '(found, m) := Map_delete id (smtpProfiles s) in
  (found, set_smtpProfiles m s).

Definition listSmtpProfiles (organizationId : Z) (s : state) : list obj :=
  List.filter (in_organization organizationId) (Map_values (smtpProfiles s)).

(** *** Email templates *)

Definition getEmailTemplate (id : Z) (s : state) : option obj :=
  Map_get id (emailTemplates s).

Definition createEmailTemplate (organizationId userId : Z)
    (template : InsertEmailTemplate) (now : Z) (s : state) : obj * state :=
  let '(id, s) := nextId s in
  let newTemplate := js_object [
    ("id", VNum id);
    ("name", VStr (ie_name template));
    ("subject", VStr (ie_subject template));
    ("htmlContent", VStr (ie_htmlContent template));
    ("textContent", js_or (of_opt_str (ie_textContent template)) VNull);
    ("senderName", VStr (ie_senderName template));
    ("senderEmail", VStr (ie_senderEmail template));
    ("organizationId", VNum organizationId);
    ("createdById", VNum userId);
    ("createdAt", VDate now);
    ("updatedAt", VDate now) ] in
  (newTemplate, set_emailTemplates (Map_set id newTemplate (emailTemplates s)) s).

Definition updateEmailTemplate (id : Z) (data : obj) (now : Z) (s : state)
  : option obj * state :=
  match Map_get id (emailTemplates s) with
  | None => (None, s)
  | Some template =>
      let updatedTemplate := merged template data now in
      (Some updatedTemplate,
       set_emailTemplates (Map_set id updatedTemplate (emailTemplates s)) s)
  end.

Definition deleteEmailTemplate (id : Z) (s : state) : bool * state :=
  let '(found, m) := Map_delete id (emailTemplates s) in
  (found, set_emailTemplates m s).

Definition listEmailTemplates (organizationId : Z) (s : state) : list obj :=
  List.filter (in_organization organizationId) (Map_values (emailTemplates s)).

(** *** Landing pages *)

Definition getLandingPage (id : Z) (s : state) : option obj :=
  Map_get id (landingPages s).

Definition createLandingPage (organizationId userId : Z)
    (page : InsertLandingPage) (now : Z) (s : state) : obj * state :=
  let '(id, s) := nextId s in
  let newPage := js_object [
    ("id", VNum id);
    ("name", VStr (il_name page));
    ("description", js_or (of_opt_str (il_description page)) VNull);
    ("htmlContent", VStr (il_htmlContent page));
    ("redirectUrl", js_or (of_opt_str (il_redirectUrl page)) VNull);
    ("pageType", VStr (il_pageType page));
    ("thumbnail", js_or (of_opt_str (il_thumbnail page)) VNull);
    ("organizationId", VNum organizationId);
    ("createdById", VNum userId);
    ("createdAt", VDate now);
    ("updatedAt", VDate now) ] in
  (newPage, set_landingPages (Map_set id newPage (landingPages s)) s).

Definition updateLandingPage (id : Z) (data : obj) (now : Z) (s : state)
  : option obj * state :=
  match Map_get id (landingPages s) with
  | None => (None, s)
  | Some page =>
      let updatedPage := merged page data now in
      (Some updatedPage,
       set_landingPages (Map_set id updatedPage (landingPages s)) s)
  end.

Definition deleteLandingPage (id : Z) (s : state) : bool * state :=
  let '(found, m) := Map_delete id (landingPages s) in
  (found, set_landingPages m s).

Definition listLandingPages (organizationId : Z) (s : state) : list obj :=
  List.filter (in_organization organizationId) (Map_values (landingPages s)).

(** *** Campaigns *)

(** [x ? new Date(x) : null] on an optional date. *)
Definition date_or_null (d : option Z) : value :=
  if truthy (of_opt_date d) then of_opt_date d else VNull.

Definition getCampaign (id : Z) (s : state) : option obj :=
  Map_get id (campaigns s).

(** [Number(n)] of a number is that number. *)
Definition createCampaign (organizationId userId : Z) (campaign : InsertCampaign)
    (now : Z) (s : state) : obj * state :=
  let '(id, s) := nextId s in
  let newCampaign := js_object [
    ("id", VNum id);
    ("name", VStr (ic_name campaign));
    ("status", VStr "Draft");
    ("targetGroupId", VNum (ic_targetGroupId campaign));
    ("smtpProfileId", VNum (ic_smtpProfileId campaign));
    ("emailTemplateId", VNum (ic_emailTemplateId campaign));
    ("landingPageId", VNum (ic_landingPageId campaign));
    ("scheduledAt", date_or_null (ic_scheduledAt campaign));
    ("endDate", date_or_null (ic_endDate campaign));
    ("createdById", VNum userId);
    ("organizationId", VNum organizationId);
    ("createdAt", VDate now);
    ("updatedAt", VDate now) ] in
  (newCampaign, set_campaigns (Map_set id newCampaign (campaigns s)) s).

Definition updateCampaign (id : Z) (data : obj) (now : Z) (s : state)
  : option obj * state :=
  match Map_get id (campaigns s) with
  | None => (None, s)
  | Some campaign =>
      let updatedCampaign := merged campaign data now in
      (Some updatedCampaign,
       set_campaigns (Map_set id updatedCampaign (campaigns s)) s)
  end.

Definition deleteCampaign (id : Z) (s : state) : bool * state :=
  let campaignResults' :=
    fold_left
      (fun m '(resultId, result) =>
         if of_campaign (VNum id) result then snd (Map_delete resultId m) else m)
      (Map_entries (campaignResults s)) (campaignResults s) in
  let s := set_campaignResults campaignResults' s in
  let '(found, m) := Map_delete id (campaigns s) in (found, set_campaigns m s).

Definition listCampaigns (organizationId : Z) (s : state) : list obj :=
  List.filter (in_organization organizationId) (Map_values (campaigns s)).

(** *** Campaign results *)

Definition getCampaignResult (id : Z) (s : state) : option obj :=
  Map_get id (campaignResults s).

Definition createCampaignResult (organizationId : Z)
    (result : InsertCampaignResult) (now : Z) (s : state) : obj * state :=
  let '(id, s) := nextId s in
  let newResult := js_object [
    ("id", VNum id);
    ("campaignId", VNum (ir_campaignId result));
    ("targetId", VNum (ir_targetId result));
    ("sent", js_or (of_opt_bool (ir_sent result)) (VBool false));
    ("sentAt", js_or (of_opt_date (ir_sentAt result)) VNull);
    ("opened", js_or (of_opt_bool (ir_opened result)) (VBool false));
    ("openedAt", js_or (of_opt_date (ir_openedAt result)) VNull);
    ("clicked", js_or (of_opt_bool (ir_clicked result)) (VBool false));
    ("clickedAt", js_or (of_opt_date (ir_clickedAt result)) VNull);
    ("submitted", js_or (of_opt_bool (ir_submitted result)) (VBool false));
    ("submittedAt", js_or (of_opt_date (ir_submittedAt result)) VNull);
    ("submittedData", js_or (ir_submittedData result) VNull);
    ("organizationId", VNum organizationId);
    ("createdAt", VDate now);
    ("updatedAt", VDate now) ] in
  (newResult,
   set_campaignResults (Map_set id newResult (campaignResults s)) s).

Definition updateCampaignResult (id : Z) (data : obj) (now : Z) (s : state)
  : option obj * state :=
  match Map_get id (campaignResults s) with
  | None => (None, s)
  | Some result =>
      let updatedResult := merged result data now in
      (Some updatedResult,
       set_campaignResults (Map_set id updatedResult (campaignResults s)) s)
  end.

Definition listCampaignResults (campaignId : Z) (s : state) : list obj :=
  List.filter (of_campaign (VNum campaignId)) (Map_values (campaignResults s)).

(** *** Dashboard *)

Definition getDashboardStats (organizationId : Z) (s : state) : DashboardStats :=
  let activeCampaigns :=
    length (List.filter
              (fun campaign =>
                 in_organization organizationId campaign
                 && strict_eq (js_get campaign "status") (VStr "Active"))%bool
              (Map_values (campaigns s))) in
  let userCount :=
    length (List.filter (in_organization organizationId)
                        (Map_values (users s))) in
  {| activeCampaigns := activeCampaigns;
     campaignChange := 12;
     successRate := 328 # 10;
     successRateChange := 52 # 10;
     totalUsers := userCount;
     newUsers := 3;
     trainingCompletion := 78;
     trainingCompletionChange := 8 |}.

End MemStorage.

(** ** [IStorage]: the calls of the interface *)

(** One constructor per method of [IStorage], with its arguments; a call
    whose in-memory implementation reads the clock carries that reading. *)
Inductive StorageCall : Type :=
  | GetUser (id : Z)
  | GetUserByEmail (email : string)
  | CreateUser (user : InsertUser) (now : Z)
  | UpdateUser (id : Z) (data : obj) (now : Z)
  | DeleteUser (id : Z)
  | ListUsers (organizationId : Z)
  | GetOrganization (id : Z)
  | GetOrganizationByName (name : string)
  | CreateOrganization (organization : InsertOrganization) (now : Z)
  | GetGroup (id : Z)
  | CreateGroup (organizationId : Z) (group : InsertGroup) (now : Z)
  | UpdateGroup (id : Z) (data : obj) (now : Z)
  | DeleteGroup (id : Z)
  | ListGroups (organizationId : Z)
  | GetTarget (id : Z)
  | CreateTarget (organizationId groupId : Z) (target : InsertTarget) (now : Z)
  | UpdateTarget (id : Z) (data : obj) (now : Z)
  | DeleteTarget (id : Z)
  | ListTargets (groupId : Z)
  | GetSmtpProfile (id : Z)
  | CreateSmtpProfile (organizationId : Z) (profile : InsertSmtpProfile) (now : Z)
  | UpdateSmtpProfile (id : Z) (data : obj) (now : Z)
  | DeleteSmtpProfile (id : Z)
  | ListSmtpProfiles (organizationId : Z)
  | GetEmailTemplate (id : Z)
  | CreateEmailTemplate (organizationId userId : Z)
      (template : InsertEmailTemplate) (now : Z)
  | UpdateEmailTemplate (id : Z) (data : obj) (now : Z)
  | DeleteEmailTemplate (id : Z)
  | ListEmailTemplates (organizationId : Z)
  | GetLandingPage (id : Z)
  | CreateLandingPage (organizationId userId : Z) (page : InsertLandingPage) (now : Z)
  | UpdateLandingPage (id : Z) (data : obj) (now : Z)
  | DeleteLandingPage (id : Z)
  | ListLandingPages (organizationId : Z)
  | GetCampaign (id : Z)
  | CreateCampaign (organizationId userId : Z) (campaign : InsertCampaign) (now : Z)
  | UpdateCampaign (id : Z) (data : obj) (now : Z)
  | DeleteCampaign (id : Z)
  | ListCampaigns (organizationId : Z)
  | GetCampaignResult (id : Z)
  | CreateCampaignResult (organizationId : Z) (result : InsertCampaignResult) (now : Z)
  | UpdateCampaignResult (id : Z) (data : obj) (now : Z)
  | ListCampaignResults (campaignId : Z)
  | GetDashboardStats (organizationId : Z).

(** What a call resolves to: [E | undefined], [E], [E[]], [boolean] or the
    statistics object. *)
Inductive StorageReply : Type :=
  | Maybe (o : option obj)
  | Entity (o : obj)
  | Entities (l : list obj)
  | Flag (b : bool)
  | Stats (d : DashboardStats).

Module MemCalls.
Import MemStorage.

Definition pure (r : StorageReply) (s : state) : StorageReply * state := (r, s).
Definition entity (r : obj * state) : StorageReply * state := (Entity (fst r), snd r).
Definition maybe (r : option obj * state) : StorageReply * state := (Maybe (fst r), snd r).
Definition flag (r : bool * state) : StorageReply * state := (Flag (fst r), snd r).

(** The in-memory store answering one call. *)
Definition perform (c : StorageCall) (s : state) : StorageReply * state :=
  match c with
  | GetUser id => pure (Maybe (getUser id s)) s
  | GetUserByEmail email => pure (Maybe (getUserByEmail email s)) s
  | CreateUser user now => entity (createUser user now s)
  | UpdateUser id data now => maybe (updateUser id data now s)
  | DeleteUser id => flag (deleteUser id s)
  | ListUsers org => pure (Entities (listUsers org s)) s
  | GetOrganization id => pure (Maybe (getOrganization id s)) s
  | GetOrganizationByName name => pure (Maybe (getOrganizationByName name s)) s
  | CreateOrganization o now => entity (createOrganization o now s)
  | GetGroup id => pure (Maybe (getGroup id s)) s
  | CreateGroup org g now => entity (createGroup org g now s)
  | UpdateGroup id data now => maybe (updateGroup id data now s)
  | DeleteGroup id => flag (deleteGroup id s)
  | ListGroups org => pure (Entities (listGroups org s)) s
  | GetTarget id => pure (Maybe (getTarget id s)) s
  | CreateTarget org g t now => entity (createTarget org g t now s)
  | UpdateTarget id data now => maybe (updateTarget id data now s)
  | DeleteTarget id => flag (deleteTarget id s)
  | ListTargets g => pure (Entities (listTargets g s)) s
  | GetSmtpProfile id => pure (Maybe (getSmtpProfile id s)) s
  | CreateSmtpProfile org p now => entity (createSmtpProfile org p now s)
  | UpdateSmtpProfile id data now => maybe (updateSmtpProfile id data now s)
  | DeleteSmtpProfile id => flag (deleteSmtpProfile id s)
  | ListSmtpProfiles org => pure (Entities (listSmtpProfiles org s)) s
  | GetEmailTemplate id => pure (Maybe (getEmailTemplate id s)) s
  | CreateEmailTemplate org u t now => entity (createEmailTemplate org u t now s)
  | UpdateEmailTemplate id data now => maybe (updateEmailTemplate id data now s)
  | DeleteEmailTemplate id => flag (deleteEmailTemplate id s)
  | ListEmailTemplates org => pure (Entities (listEmailTemplates org s)) s
  | GetLandingPage id => pure (Maybe (getLandingPage id s)) s
  | CreateLandingPage org u p now => entity (createLandingPage org u p now s)
  | UpdateLandingPage id data now => maybe (updateLandingPage id data now s)
  | DeleteLandingPage id => flag (deleteLandingPage id s)
  | ListLandingPages org => pure (Entities (listLandingPages org s)) s
  | GetCampaign id => pure (Maybe (getCampaign id s)) s
  | CreateCampaign org u c now => entity (createCampaign org u c now s)
  | UpdateCampaign id data now => maybe (updateCampaign id data now s)
  | DeleteCampaign id => flag (deleteCampaign id s)
  | ListCampaigns org => pure (Entities (listCampaigns org s)) s
  | GetCampaignResult id => pure (Maybe (getCampaignResult id s)) s
  | CreateCampaignResult org r now => entity (createCampaignResult org r now s)
  | UpdateCampaignResult id data now => maybe (updateCampaignResult id data now s)
  | ListCampaignResults c => pure (Entities (listCampaignResults c s)) s
  | GetDashboardStats org => pure (Stats (getDashboardStats org s)) s
  end.

(** A sequence of calls: the replies in order and the final state. *)
Fixpoint perform_all (cs : list StorageCall) (s : state)
  : list StorageReply * state :=
  match cs with
  | [] => ([], s)
  | c :: cs' =>
      let '(r, s') := perform c s in
      let '(rs, s'') := perform_all cs' s' in
      (r :: rs, s'')
  end.
End MemCalls.

(** ** [DatabaseStorage]: the relational backing *)

Module DatabaseStorage.

(** The tables of [shared/schema.ts], each the list of its rows; a row is
    the object the query builder returns for it, with the property
    names of the schema.  The query builder and the database engine are
    outside the repository.  What is used of them: [where(eq(column, v))]
    selects the rows whose column equals [v], text being compared
    exactly and [NULL] equal to nothing; a [delete] applies to every row
    that refers to a deleted one the [onDelete] action its foreign key
    declares in the schema ([cascade] deletes it too, [restrict] and the
    default make the statement fail); a failed statement rejects the
    promise and changes nothing.  The methods that insert or update rows
    are left out. *)
Record database := {
  users : list obj;
  organizations : list obj;
  groups : list obj;
  targets : list obj;
  smtpProfiles : list obj;
  emailTemplates : list obj;
  landingPages : list obj;
  campaigns : list obj;
  campaignResults : list obj
}.

(** An awaited promise: resolved with a value, or rejected. *)
Inductive outcome (A : Type) : Type :=
  | Resolved (a : A)
  | Rejected.
Arguments Resolved {A} a.
Arguments Rejected {A}.

(** SQL [=] on column values. *)
Definition sql_eq (a b : value) : bool :=
  match a, b with
  | VBool x, VBool y => Bool.eqb x y
  | VNum x, VNum y => Z.eqb x y
  | VStr x, VStr y => String.eqb x y
  | VDate x, VDate y => Z.eqb x y
  | _, _ => false
  end.

(** [db.select().from(table).where(eq(table.column, v))].  The list of
    a table gives its rows in the order the engine returns them; no
    query of the repository has an [orderBy], so that order is the
    engine's choice, and the rows selected come in it.  A number that the
    column cannot hold makes the engine reject the query, which is not
    represented: the numbers compared are taken within the column's
    range. *)
Definition select_where (column : string) (v : value) (table : list obj)
  : list obj :=
  List.filter (fun row => sql_eq (js_get row column) v) table.

(** Whether a row's [column] refers to one of the rows [deleted]. *)
Definition refers_to (column : string) (deleted : list obj) (row : obj) : bool :=
  existsb (fun d => sql_eq (js_get row column) (js_get d "id")) deleted.

(** The rows left, and the rows deleted, by a cascade. *)
Definition kept (column : string) (deleted table : list obj) : list obj :=
  List.filter (fun row => negb (refers_to column deleted row)) table.
Definition swept (column : string) (deleted table : list obj) : list obj :=
  List.filter (refers_to column deleted) table.

(** Whether some row of [table] refers to a deleted row through a
    foreign key that forbids it. *)
Definition forbids (column : string) (deleted table : list obj) : bool :=
  existsb (refers_to column deleted) table.

Definition without (id : Z) (table : list obj) : list obj :=
  List.filter (fun row => negb (sql_eq (js_get row "id") (VNum id))) table.

(** *** Reads *)

Definition getUser (id : Z) (db : database) : option obj :=
  head (select_where "id" (VNum id) (users db)).
Definition getUserByEmail (email : string) (db : database) : option obj :=
  head (select_where "email" (VStr email) (users db)).
Definition listUsers (organizationId : Z) (db : database) : list obj :=
  select_where "organizationId" (VNum organizationId) (users db).
Definition getOrganization (id : Z) (db : database) : option obj :=
  head (select_where "id" (VNum id) (organizations db)).
Definition getOrganizationByName (name : string) (db : database) : option obj :=
  head (select_where "name" (VStr name) (organizations db)).
Definition getGroup (id : Z) (db : database) : option obj :=
  head (select_where "id" (VNum id) (groups db)).
Definition getTarget (id : Z) (db : database) : option obj :=
  head (select_where "id" (VNum id) (targets db)).
Definition listTargets (groupId : Z) (db : database) : list obj :=
  select_where "groupId" (VNum groupId) (targets db).
Definition getSmtpProfile (id : Z) (db : database) : option obj :=
  head (select_where "id" (VNum id) (smtpProfiles db)).
Definition listSmtpProfiles (organizationId : Z) (db : database) : list obj :=
  select_where "organizationId" (VNum organizationId) (smtpProfiles db).
Definition getEmailTemplate (id : Z) (db : database) : option obj :=
  head (select_where "id" (VNum id) (emailTemplates db)).
Definition listEmailTemplates (organizationId : Z) (db : database) : list obj :=
  select_where "organizationId" (VNum organizationId) (emailTemplates db).
Definition getLandingPage (id : Z) (db : database) : option obj :=
  head (select_where "id" (VNum id) (landingPages db)).
Definition listLandingPages (organizationId : Z) (db : database) : list obj :=
  select_where "organizationId" (VNum organizationId) (landingPages db).
Definition getCampaign (id : Z) (db : database) : option obj :=
  head (select_where "id" (VNum id) (campaigns db)).
Definition listCampaigns (organizationId : Z) (db : database) : list obj :=
  select_where "organizationId" (VNum organizationId) (campaigns db).
Definition getCampaignResult (id : Z) (db : database) : option obj :=
  head (select_where "id" (VNum id) (campaignResults db)).
Definition listCampaignResults (campaignId : Z) (db : database) : list obj :=
  select_where "campaignId" (VNum campaignId) (campaignResults db).

(** One counting query per group; [Number(count) || 0]. *)
Definition listGroups (organizationId : Z) (db : database) : list obj :=
  let groupsList :=
    select_where "organizationId" (VNum organizationId) (groups db) in
  List.map
    (fun group =>
       let count :=
         length (select_where "groupId" (js_get group "id") (targets db)) in
       <["targetCount" := js_or (VNum (Z.of_nat count)) (VNum 0)]> group)
    groupsList.

(** *** Deletes

    [users] is referred to by [emailTemplates], [landingPages] and
    [campaigns] ([createdById], no [onDelete]); [groups] by [targets]
    ([groupId], cascade) and [campaigns] ([targetGroupId], restrict);
    [targets] and [campaigns] by [campaignResults] (cascade);
    [smtpProfiles], [emailTemplates] and [landingPages] by [campaigns]
    (restrict). *)

Definition deleteUser (id : Z) (db : database) : outcome bool * database :=
  let deleted := select_where "id" (VNum id) (users db) in
  if (forbids "createdById" deleted (emailTemplates db)
      || forbids "createdById" deleted (landingPages db)
      || forbids "createdById" deleted (campaigns db))%bool
  then (Rejected, db)
  else
    (Resolved true,
     {| users := without id (users db);
        organizations := organizations db; groups := groups db;
        targets := targets db; smtpProfiles := smtpProfiles db;
        emailTemplates := emailTemplates db; landingPages := landingPages db;
        campaigns := campaigns db; campaignResults := campaignResults db |}).

Definition deleteGroup (id : Z) (db : database) : outcome bool * database :=
  let deleted := select_where "id" (VNum id) (groups db) in
  if forbids "targetGroupId" deleted (campaigns db)
  then (Rejected, db)
  else
    let deletedTargets := swept "groupId" deleted (targets db) in
    (Resolved true,
     {| users := users db; organizations := organizations db;
        groups := without id (groups db);
        targets := kept "groupId" deleted (targets db);
        smtpProfiles := smtpProfiles db;
        emailTemplates := emailTemplates db; landingPages := landingPages db;
        campaigns := campaigns db;
        campaignResults := kept "targetId" deletedTargets (campaignResults db) |}).

Definition deleteTarget (id : Z) (db : database) : outcome bool * database :=
  let deleted := select_where "id" (VNum id) (targets db) in
  (Resolved true,
   {| users := users db; organizations := organizations db;
      groups := groups db;
      targets := without id (targets db);
      smtpProfiles := smtpProfiles db;
      emailTemplates := emailTemplates db; landingPages := landingPages db;
      campaigns := campaigns db;
      campaignResults := kept "targetId" deleted (campaignResults db) |}).

Definition deleteSmtpProfile (id : Z) (db : database) : outcome bool * database :=
  let deleted := select_where "id" (VNum id) (smtpProfiles db) in
  if forbids "smtpProfileId" deleted (campaigns db)
  then (Rejected, db)
  else
    (Resolved true,
     {| users := users db; organizations := organizations db;
        groups := groups db; targets := targets db;
        smtpProfiles := without id (smtpProfiles db);
        emailTemplates := emailTemplates db; landingPages := landingPages db;
        campaigns := campaigns db; campaignResults := campaignResults db |}).

Definition deleteEmailTemplate (id : Z) (db : database) : outcome bool * database :=
  let deleted := select_where "id" (VNum id) (emailTemplates db) in
  if forbids "emailTemplateId" deleted (campaigns db)
  then (Rejected, db)
  else
    (Resolved true,
     {| users := users db; organizations := organizations db;
        groups := groups db; targets := targets db;
        smtpProfiles := smtpProfiles db;
        emailTemplates := without id (emailTemplates db);
        landingPages := landingPages db;
        campaigns := campaigns db; campaignResults := campaignResults db |}).

Definition deleteLandingPage (id : Z) (db : database) : outcome bool * database :=
  let deleted := select_where "id" (VNum id) (landingPages db) in
  if forbids "landingPageId" deleted (campaigns db)
  then (Rejected, db)
  else
    (Resolved true,
     {| users := users db; organizations := organizations db;
        groups := groups db; targets := targets db;
        smtpProfiles := smtpProfiles db;
        emailTemplates := emailTemplates db;
        landingPages := without id (landingPages db);
        campaigns := campaigns db; campaignResults := campaignResults db |}).

Definition deleteCampaign (id : Z) (db : database) : outcome bool * database :=
  let deleted := select_where "id" (VNum id) (campaigns db) in
  (Resolved true,
   {| users := users db; organizations := organizations db;
      groups := groups db; targets := targets db;
      smtpProfiles := smtpProfiles db;
      emailTemplates := emailTemplates db; landingPages := landingPages db;
      campaigns := without id (campaigns db);
      campaignResults := kept "campaignId" deleted (campaignResults db) |}).

End DatabaseStorage.

(** The rows the relational backing holds when it stores the entities the
    in-memory backing holds, each table taken in the order of insertion
    (one of the orders the engine may return them in; [same_rows] below
    leaves the order open). *)
Definition tables_of (s : MemStorage.state) : DatabaseStorage.database :=
  {| DatabaseStorage.users := Map_values (MemStorage.users s);
     DatabaseStorage.organizations := Map_values (MemStorage.organizations s);
     DatabaseStorage.groups := Map_values (MemStorage.groups s);
     DatabaseStorage.targets := Map_values (MemStorage.targets s);
     DatabaseStorage.smtpProfiles := Map_values (MemStorage.smtpProfiles s);
     DatabaseStorage.emailTemplates := Map_values (MemStorage.emailTemplates s);
     DatabaseStorage.landingPages := Map_values (MemStorage.landingPages s);
     DatabaseStorage.campaigns := Map_values (MemStorage.campaigns s);
     DatabaseStorage.campaignResults := Map_values (MemStorage.campaignResults s) |}.

(** ** [shared/schema.ts]: validation against the insert schemas *)

(** One issue of a validation error: a value of the wrong type, or a
    number below or above the bounds of its column. *)
Inductive ZodIssue : Type :=
  | ZodInvalidTypeIssue (expected received : string) (path : list string)
      (message : string)
  | ZodTooSmallIssue (minimum : Z) (path : list string) (message : string)
  | ZodTooBigIssue (maximum : Z) (path : list string) (message : string).

Definition code (issue : ZodIssue) : string :=
  match issue with
  | ZodInvalidTypeIssue _ _ _ _ => "invalid_type"
  | ZodTooSmallIssue _ _ _ => "too_small"
  | ZodTooBigIssue _ _ _ => "too_big"
  end.

Definition path (issue : ZodIssue) : list string :=
  match issue with
  | ZodInvalidTypeIssue _ _ p _ | ZodTooSmallIssue _ p _
  | ZodTooBigIssue _ p _ => p
  end.

Definition message (issue : ZodIssue) : string :=
  match issue with
  | ZodInvalidTypeIssue _ _ _ m | ZodTooSmallIssue _ _ m
  | ZodTooBigIssue _ _ m => m
  end.

Inductive parsed (A : Type) : Type :=
  | Valid (a : A)
  | ZodError (errors : list ZodIssue).
Arguments Valid {A} a.
Arguments ZodError {A} errors.

(** The type the validator reports for a value. *)
Definition zod_type (v : value) : string :=
  match v with
  | VUndef => "undefined"
  | VNull => "null"
  | VBool _ => "boolean"
  | VNum _ => "number"
  | VStr _ => "string"
  | VDate _ => "date"
  end.

Definition invalid_type (want : string) (key : string) (v : value) : ZodIssue :=
  ZodInvalidTypeIssue want (zod_type v) [key]
    match v with
    | VUndef => "Required"
    | _ => "Expected " ++ want ++ ", received " ++ zod_type v
    end.

(** The bounds of an [integer] column, which the schema derived from the
    table checks a number against. *)
Definition INT32_MIN : Z := -2147483648.
Definition INT32_MAX : Z := 2147483647.

Definition too_small (key : string) : ZodIssue :=
  ZodTooSmallIssue INT32_MIN [key]
    "Number must be greater than or equal to -2147483648".

Definition too_big (key : string) : ZodIssue :=
  ZodTooBigIssue INT32_MAX [key]
    "Number must be less than or equal to 2147483647".

(** The schema [createInsertSchema] derives from a table checks each picked
    column by its type: a [text] column is a string, an [integer] column
    a number within the bounds of a 32-bit integer, a [timestamp] column
    a date; a column that is [notNull] and has no default is required,
    any other may be absent or [null].  There is no further constraint on
    a string, so the empty string is accepted. *)
Definition required_string (o : obj) (key : string) : list ZodIssue :=
  match js_get o key with
  | VStr _ => []
  | v => [invalid_type "string" key v]
  end.

Definition optional_string (o : obj) (key : string) : list ZodIssue :=
  match js_get o key with
  | VStr _ | VNull | VUndef => []
  | v => [invalid_type "string" key v]
  end.

Definition required_number (o : obj) (key : string) : list ZodIssue :=
  match js_get o key with
  | VNum n =>
      if Z.ltb n INT32_MIN then [too_small key]
      else if Z.ltb INT32_MAX n then [too_big key]
      else []
  | v => [invalid_type "number" key v]
  end.

Definition optional_date (o : obj) (key : string) : list ZodIssue :=
  match js_get o key with
  | VDate _ | VNull | VUndef => []
  | v => [invalid_type "date" key v]
  end.

Definition the_string (o : obj) (key : string) : string :=
  match js_get o key with VStr s => s | _ => "" end.
Definition the_opt_string (o : obj) (key : string) : option string :=
  match js_get o key with VStr s => Some s | _ => None end.
Definition the_number (o : obj) (key : string) : Z :=
  match js_get o key with VNum n => n | _ => 0 end.
Definition the_opt_date (o : obj) (key : string) : option Z :=
  match js_get o key with VDate t => Some t | _ => None end.

(** [insertTargetSchema.parse] *)
Definition insertTargetSchema_parse (o : obj) : parsed InsertTarget :=
  match (required_string o "firstName" ++ required_string o "lastName"
         ++ required_string o "email" ++ optional_string o "position")%list with
  | [] =>
      Valid {| it_firstName := the_string o "firstName";
               it_lastName := the_string o "lastName";
               it_email := the_string o "email";
               it_position := the_opt_string o "position" |}
  | issues => ZodError issues
  end.

(** [insertCampaignSchema.parse] *)
Definition insertCampaignSchema_parse (o : obj) : parsed InsertCampaign :=
  match (required_string o "name"
         ++ required_number o "targetGroupId" ++ required_number o "smtpProfileId"
         ++ required_number o "emailTemplateId" ++ required_number o "landingPageId"
         ++ optional_date o "scheduledAt" ++ optional_date o "endDate")%list with
  | [] =>
      Valid {| ic_name := the_string o "name";
               ic_targetGroupId := the_number o "targetGroupId";
               ic_smtpProfileId := the_number o "smtpProfileId";
               ic_emailTemplateId := the_number o "emailTemplateId";
               ic_landingPageId := the_number o "landingPageId";
               ic_scheduledAt := the_opt_date o "scheduledAt";
               ic_endDate := the_opt_date o "endDate" |}
  | issues => ZodError issues
  end.

(** [insertGroupSchema.parse] *)
Definition insertGroupSchema_parse (o : obj) : parsed InsertGroup :=
  match (required_string o "name" ++ optional_string o "description")%list with
  | [] =>
      Valid {| ig_name := the_string o "name";
               ig_description := the_opt_string o "description" |}
  | issues => ZodError issues
  end.

(** ** [server/routes.ts]: the handlers over the store *)

Module Routes.
Import MemStorage.

(** A handler is given what the session middleware and the body parser
    leave in the request: [req.user], the id of the path as [parseInt]
    reads it, and the body.  A path that is not a number reads as [NaN],
    an id that no entity has; the handlers treat it like any other id
    that is not in the store. *)
Record SessionUser := {
  su_id : Z;
  su_organizationId : Z
}.

(** What the CSV parser returns, with [header: true]: one object per data
    row, given here by its entries ([Object.entries(row)]) in order, every
    value a string; and the errors the parser found. *)
Definition Row := list (string * string).

Record PapaError := {
  pe_type : string;
  pe_code : string;
  pe_message : string;
  pe_row : option nat
}.

Record ParseResult := {
  data : list Row;
  errors : list PapaError
}.

(** [error instanceof z.ZodError ? error.errors : "Unknown error"] *)
Inductive RowErrorDetail : Type :=
  | Issues (errors : list ZodIssue)
  | UnknownError.

Record RowError := {
  row : nat;
  error : RowErrorDetail
}.

Inductive Body : Type :=
  | Message (message : string)
  | ValidationFailure (message : string) (errors : list ZodIssue)
  | ParsingFailure (message : string) (errors : list PapaError)
  | ImportReport (imported failed : nat) (errors : option (list RowError))
  | Json (o : obj)
  | JsonList (l : list obj)
  | Empty.

Record Response := {
  status : Z;
  body : Body
}.

Definition respond (status : Z) (body : Body) : Response :=
  {| status := status; body := body |}.

(** The check that follows each fetch of a resource named by the request:
    [!e] and [e.organizationId !== req.user.organizationId]. *)
Inductive access : Type :=
  | Missing
  | Foreign
  | Owned (e : obj).

Definition check_access (user : SessionUser) (fetched : option obj) : access :=
  match fetched with
  | None => Missing
  | Some e =>
      if negb (strict_eq (js_get e "organizationId")
                         (VNum (su_organizationId user)))
      then Foreign
      else Owned e
  end.

(** [GET /api/groups/:id/targets] *)
Definition getGroupTargets (user : SessionUser) (groupId : Z) (s : state)
  : Response :=
  match check_access user (getGroup groupId s) with
  | Missing => respond 404 (Message "Group not found")
  | Foreign => respond 403 (Message "Access denied")
  | Owned _ => respond 200 (JsonList (listTargets groupId s))
  end.

(** [DELETE /api/groups/:id] *)
Definition deleteGroupRoute (user : SessionUser) (groupId : Z) (s : state)
  : Response * state :=
  match check_access user (getGroup groupId s) with
  | Missing => (respond 404 (Message "Group not found"), s)
  | Foreign => (respond 403 (Message "Access denied"), s)
  | Owned _ =>
      let '(_, s') := deleteGroup groupId s in
      (respond 204 Empty, s')
  end.

(** *** [POST /api/groups/:id/import] *)

(** The inner loop over [Object.entries(row)]. *)
Definition normalizeEntry (normalizedRow : obj) (entry : string * string) : obj :=
  let '(key, value) := entry in
  let lowercaseKey := toLowerCase key in
  if (String.eqb lowercaseKey "firstname"
      || String.eqb lowercaseKey "first_name")%bool
  then <["firstName" := VStr value]> normalizedRow
  else if (String.eqb lowercaseKey "lastname"
           || String.eqb lowercaseKey "last_name")%bool
  then <["lastName" := VStr value]> normalizedRow
  else if String.eqb lowercaseKey "email"
  then <["email" := VStr value]> normalizedRow
  else if (String.eqb lowercaseKey "position"
           || String.eqb lowercaseKey "title")%bool
  then <["position" := VStr value]> normalizedRow
  else normalizedRow.

Definition normalize (r : Row) : obj := fold_left normalizeEntry r ∅.

(** [results.data.entries()] *)
Fixpoint entries_from (index : nat) (rows : list Row) : list (nat * Row) :=
  match rows with
  | [] => []
  | r :: rows' => (index, r) :: entries_from (S index) rows'
  end.

(** What the loop carries: [importedTargets], [errors] and the store. *)
Definition progress : Type := list obj * list RowError * state.

(** One turn of the loop, its [try] and its [catch].  The in-memory store
    never throws, so the only error caught is the validator's.  The clock
    is read once for each target created; [clock index] is the reading
    for the row at [index]. *)
Definition importRow (user : SessionUser) (groupId : Z) (clock : nat -> Z)
    (p : progress) (entry : nat * Row) : progress :=
  let '(importedTargets, errors, s) := p in
  let '(index, r) := entry in
  let normalizedRow := normalize r in
  match insertTargetSchema_parse normalizedRow with
  | Valid validatedData =>
      let '(target, s') :=
        createTarget (su_organizationId user) groupId validatedData
                     (clock index) s in
      ((importedTargets ++ [target])%list, errors, s')
  | ZodError issues =>
      (importedTargets,
       (errors ++ [{| row := index + 2; error := Issues issues |}])%list,
       s)
  end.

Definition importRows (user : SessionUser) (groupId : Z) (clock : nat -> Z)
    (rows : list Row) (s : state) : progress :=
  fold_left (importRow user groupId clock) (entries_from 0 rows) ([], [], s).

(** The handler.  [Papa_parse] is the CSV parser, called with
    [header: true, skipEmptyLines: true]; [file] is the text of the
    uploaded file, if one was sent. *)
Definition importTargets (Papa_parse : string -> ParseResult)
    (user : SessionUser) (groupId : Z) (file : option string)
    (clock : nat -> Z) (s : state) : Response * state :=
  match check_access user (getGroup groupId s) with
  | Missing => (respond 404 (Message "Group not found"), s)
  | Foreign => (respond 403 (Message "Access denied"), s)
  | Owned _ =>
      match file with
      | None => (respond 400 (Message "No file uploaded"), s)
      | Some csvString =>
          let results := Papa_parse csvString in
          if Nat.ltb 0 (length (errors results))
          then (respond 400 (ParsingFailure "CSV parsing error" (errors results)), s)
          else
            let '(importedTargets, errors, s') :=
              importRows user groupId clock (data results) s in
            (respond 200
               (ImportReport (length importedTargets) (length errors)
                  (if Nat.ltb 0 (length errors) then Some errors else None)),
             s')
      end
  end.

(** *** [POST /api/campaigns] *)

Definition postCampaign (user : SessionUser) (body : obj) (now : Z) (s : state)
  : Response * state :=
  match insertCampaignSchema_parse body with
  | ZodError errors =>
      (respond 400 (ValidationFailure "Validation error" errors), s)
  | Valid validatedData =>
      match check_access user (getGroup (ic_targetGroupId validatedData) s) with
      | Missing | Foreign =>
          (respond 403 (Message "Access denied: Invalid target group"), s)
      | Owned _ =>
      match check_access user
              (getSmtpProfile (ic_smtpProfileId validatedData) s) with
      | Missing | Foreign =>
          (respond 403 (Message "Access denied: Invalid SMTP profile"), s)
      | Owned _ =>
      match check_access user
              (getEmailTemplate (ic_emailTemplateId validatedData) s) with
      | Missing | Foreign =>
          (respond 403 (Message "Access denied: Invalid email template"), s)
      | Owned _ =>
      match check_access user
              (getLandingPage (ic_landingPageId validatedData) s) with
      | Missing | Foreign =>
          (respond 403 (Message "Access denied: Invalid landing page"), s)
      | Owned _ =>
          let '(campaign, s') :=
            createCampaign (su_organizationId user) (su_id user)
                           validatedData now s in
          (respond 201 (Json campaign), s')
      end end end end
  end.

End Routes.

(** ** Notions used by the statements *)

(** The eight kinds of entity that have an [update*] method, the map
    that holds each kind and the method that updates it. *)
Inductive entity_kind : Type :=
  | KUser
  | KGroup
  | KTarget
  | KSmtpProfile
  | KEmailTemplate
  | KLandingPage
  | KCampaign
  | KCampaignResult.

Definition table (k : entity_kind) (s : MemStorage.state) : JsMap :=
  match k with
  | KUser => MemStorage.users s
  | KGroup => MemStorage.groups s
  | KTarget => MemStorage.targets s
  | KSmtpProfile => MemStorage.smtpProfiles s
  | KEmailTemplate => MemStorage.emailTemplates s
  | KLandingPage => MemStorage.landingPages s
  | KCampaign => MemStorage.campaigns s
  | KCampaignResult => MemStorage.campaignResults s
  end.

Definition update (k : entity_kind)
  : Z -> obj -> Z -> MemStorage.state -> option obj * MemStorage.state :=
  match k with
  | KUser => MemStorage.updateUser
  | KGroup => MemStorage.updateGroup
  | KTarget => MemStorage.updateTarget
  | KSmtpProfile => MemStorage.updateSmtpProfile
  | KEmailTemplate => MemStorage.updateEmailTemplate
  | KLandingPage => MemStorage.updateLandingPage
  | KCampaign => MemStorage.updateCampaign
  | KCampaignResult => MemStorage.updateCampaignResult
  end.

(** The targets in the store whose [groupId] is [groupId]. *)
Definition targets_of_group (groupId : value) (s : MemStorage.state) : list obj :=
  List.filter (in_group groupId) (Map_values (MemStorage.targets s)).

(** [a < b] on two dates. *)
Definition earlier (a b : value) : Prop :=
  match a, b with
  | VDate x, VDate y => x < y
  | _, _ => False
  end.

(** A [Map] holds each key once. *)
Definition unique_keys (m : JsMap) : Prop := List.NoDup (Map_keys m).

(** The nine maps of a store. *)
Definition maps (s : MemStorage.state) : list JsMap :=
  [ MemStorage.users s; MemStorage.organizations s; MemStorage.groups s;
    MemStorage.targets s; MemStorage.smtpProfiles s;
    MemStorage.emailTemplates s; MemStorage.landingPages s;
    MemStorage.campaigns s; MemStorage.campaignResults s ].

(** A map whose keys are distinct and were all issued by a counter that
    now stands at [next]; a store all of whose maps are so. *)
Definition issued (next : Z) (m : JsMap) : Prop :=
  unique_keys m /\ forall k, In k (Map_keys m) -> k < next.

Definition well_formed (s : MemStorage.state) : Prop :=
  Forall (issued (MemStorage.currentId s)) (maps s).

(** The stores that calls of the interface make of a new store. *)
Definition reachable (s : MemStorage.state) : Prop :=
  exists cs, s = snd (MemCalls.perform_all cs MemStorage.new).

(** The calls that leave the organization of every entity alone: all but
    an update whose data supplies [organizationId]. *)
Definition keeps_organization (c : StorageCall) : Prop :=
  match c with
  | UpdateUser _ data _ | UpdateGroup _ data _ | UpdateTarget _ data _
  | UpdateSmtpProfile _ data _ | UpdateEmailTemplate _ data _
  | UpdateLandingPage _ data _ | UpdateCampaign _ data _
  | UpdateCampaignResult _ data _ => data !! "organizationId" = None
  | _ => True
  end.

(** The loop shared by [deleteGroup] and [deleteCampaign]: delete the
    entries whose value satisfies [p]. *)
Definition sweep (p : obj -> bool) (entries m : JsMap) : JsMap :=
  fold_left
    (fun m '(k, v) => if p v then snd (Map_delete k m) else m) entries m.

(** What one call can do to one map: nothing, set a new entity under
    the key the counter issues, replace an entity by its update, delete a
    key, or delete the entries a cascade selects. *)
Inductive change (c : StorageCall) (next : Z) (m : JsMap) : JsMap -> Prop :=
  | unchanged : change c next m m
  | added (v : obj) : change c next m (Map_set next v m)
  | updated (id : Z) (old data : obj) (now : Z) :
      Map_get id m = Some old ->
      (keeps_organization c -> data !! "organizationId" = None) ->
      change c next m (Map_set id (MemStorage.merged old data now) m)
  | removed (id : Z) : change c next m (Map_remove id m)
  | cascaded (p : obj -> bool) : change c next m (sweep p m m).

(** What validation makes of a CSV row. *)
Definition verdict (r : Routes.Row) : parsed InsertTarget :=
  insertTargetSchema_parse (Routes.normalize r).

Definition passes (r : Routes.Row) : bool :=
  match verdict r with Valid _ => true | ZodError _ => false end.

(** The rows that pass, with their indices, and the error entries of the
    rows that fail. *)
Fixpoint accepted_from (index : nat) (rows : list Routes.Row)
  : list (nat * InsertTarget) :=
  match rows with
  | [] => []
  | r :: rows' =>
      match verdict r with
      | Valid d => (index, d) :: accepted_from (S index) rows'
      | ZodError _ => accepted_from (S index) rows'
      end
  end.

Fixpoint rejected_from (index : nat) (rows : list Routes.Row)
  : list Routes.RowError :=
  match rows with
  | [] => []
  | r :: rows' =>
      match verdict r with
      | Valid _ => rejected_from (S index) rows'
      | ZodError issues =>
          {| Routes.row := index + 2; Routes.error := Routes.Issues issues |}
          :: rejected_from (S index) rows'
      end
  end.

(** [createTarget] for each accepted row in turn. *)
Fixpoint create_each (organizationId groupId : Z) (clock : nat -> Z)
    (accepted : list (nat * InsertTarget)) (s : MemStorage.state)
  : list obj * MemStorage.state :=
  match accepted with
  | [] => ([], s)
  | (index, d) :: accepted' =>
      let '(t, s1) :=
        MemStorage.createTarget organizationId groupId d (clock index) s in
      let '(ts, s2) := create_each organizationId groupId clock accepted' s1 in
      (t :: ts, s2)
  end.

(** A reference of a request, fetched from the store, is valid for the
    caller when the entity is there and belongs to the caller's
    organization, and invalid when it is absent or belongs to another. *)
Definition valid_reference (user : Routes.SessionUser) (fetched : option obj)
  : Prop :=
  exists e, fetched = Some e
    /\ js_get e "organizationId" = VNum (Routes.su_organizationId user).

Definition invalid_reference (user : Routes.SessionUser) (fetched : option obj)
  : Prop :=
  fetched = None
  \/ exists e, fetched = Some e
       /\ js_get e "organizationId" <> VNum (Routes.su_organizationId user).

(** ** Sample data *)

Definition staff : InsertGroup :=
  {| ig_name := "Staff"; ig_description := None |}.

(** A store in which organization 7 has created one group, at time 5;
    the group got the identifier 1. *)
Definition store_with_group : MemStorage.state :=
  snd (MemStorage.createGroup 7 staff 5 MemStorage.new).

Definition staff_group : obj :=
  js_object [
    ("id", VNum 1); ("name", VStr "Staff"); ("description", VNull);
    ("organizationId", VNum 7); ("createdAt", VDate 5);
    ("updatedAt", VDate 5) ].

(** Partial data that supplies nothing, and partial data that supplies
    only [updatedAt]. *)
Definition no_change : obj := ∅.
Definition stamp_only : obj := {["updatedAt" := VDate 1]}.

(** A store that holds one organization, with the identifier 1, and a
    group and a target of that organization. *)
Definition acme : InsertOrganization := {| io_name := "Acme" |}.
Definition ann : InsertTarget :=
  {| it_firstName := "Ann"; it_lastName := "Lee"; it_email := "ann@acme.test";
     it_position := None |}.
Definition acme_store : MemStorage.state :=
  snd (MemStorage.createTarget 1 2 ann 5
         (snd (MemStorage.createGroup 1 staff 5
                 (snd (MemStorage.createOrganization acme 5 MemStorage.new))))).

(** The store of [store_with_group] after three targets were added to
    the group. *)
Definition bob : InsertTarget :=
  {| it_firstName := "Bob"; it_lastName := "Ray"; it_email := "bob@acme.test";
     it_position := Some "Clerk" |}.
Definition cy : InsertTarget :=
  {| it_firstName := "Cy"; it_lastName := "Poe"; it_email := "cy@acme.test";
     it_position := Some "" |}.
Definition store_with_three_targets : MemStorage.state :=
  snd (MemStorage.createTarget 7 1 cy 8
         (snd (MemStorage.createTarget 7 1 bob 7
                 (snd (MemStorage.createTarget 7 1 ann 6 store_with_group))))).

(** A store in which organization 7 has a group (id 1), an SMTP profile
    (id 2) and an email template (id 3), and organization 8 has a landing
    page (id 4); and a request body that names the four. *)
Definition relay : InsertSmtpProfile :=
  {| is_name := "Relay"; is_host := "smtp.acme.test"; is_port := 587;
     is_username := "mailer"; is_password := "secret";
     is_fromName := "IT"; is_fromEmail := "it@acme.test" |}.
Definition notice : InsertEmailTemplate :=
  {| ie_name := "Notice"; ie_subject := "Password expiry";
     ie_htmlContent := "<p>Renew</p>"; ie_textContent := None;
     ie_senderName := "IT"; ie_senderEmail := "it@acme.test" |}.
Definition portal : InsertLandingPage :=
  {| il_name := "Portal"; il_description := None;
     il_htmlContent := "<form></form>"; il_redirectUrl := None;
     il_pageType := "login"; il_thumbnail := None |}.
Definition campaign_store : MemStorage.state :=
  snd (MemStorage.createLandingPage 8 3 portal 5
         (snd (MemStorage.createEmailTemplate 7 9 notice 5
                 (snd (MemStorage.createSmtpProfile 7 relay 5
                         store_with_group))))).
Definition campaign_body : obj :=
  js_object [
    ("name", VStr "Autumn"); ("targetGroupId", VNum 1);
    ("smtpProfileId", VNum 2); ("emailTemplateId", VNum 3);
    ("landingPageId", VNum 4) ].
Definition campaign_data : InsertCampaign :=
  {| ic_name := "Autumn"; ic_targetGroupId := 1; ic_smtpProfileId := 2;
     ic_emailTemplateId := 3; ic_landingPageId := 4;
     ic_scheduledAt := None; ic_endDate := None |}.
Definition user_of_7 : Routes.SessionUser :=
  {| Routes.su_id := 9; Routes.su_organizationId := 7 |}.

(** The two data rows of the specification's example, a parser that
    reports an error, and the issue the validator raises for a missing
    [lastName]. *)
Definition first_row : Routes.Row :=
  [("email", "a@x.com"); ("firstName", "A"); ("lastName", "X")].
Definition second_row : Routes.Row :=
  [("email", ""); ("firstName", "B")].
Definition missing_quote : Routes.PapaError :=
  {| Routes.pe_type := "Quotes"; Routes.pe_code := "MissingQuotes";
     Routes.pe_message := "Quoted field unterminated";
     Routes.pe_row := Some 0%nat |}.
Definition failing_parser (csv : string) : Routes.ParseResult :=
  {| Routes.data := [first_row]; Routes.errors := [missing_quote] |}.
Definition lastName_required : ZodIssue :=
  ZodInvalidTypeIssue "string" "undefined" ["lastName"] "Required".

(** The store of [acme_store] after a user of the organization
    registered. *)
Definition alice : InsertUser :=
  {| iu_email := "Alice@Acme.test"; iu_password := "hash";
     iu_firstName := "Alice"; iu_lastName := "Ng"; iu_isAdmin := None;
     iu_organizationName := "Acme"; iu_organizationId := 1 |}.
Definition user_store : MemStorage.state :=
  snd (MemStorage.createUser alice 5 acme_store).

(** The store of [campaign_store] after organization 7 made a landing
    page of its own (id 5) and a campaign on its four resources (id 6). *)
Definition running_store : MemStorage.state :=
  snd (MemStorage.createCampaign 7 9
         {| ic_name := "Autumn"; ic_targetGroupId := 1; ic_smtpProfileId := 2;
            ic_emailTemplateId := 3; ic_landingPageId := 5;
            ic_scheduledAt := None; ic_endDate := None |} 5
         (snd (MemStorage.createLandingPage 7 9 portal 5 campaign_store))).

(** ** [server/routes.ts]: the other handlers *)

(** The object a schema returns for a body that passes it: the properties
    of the body that the schema picks, those the body has. *)
Definition picked (keys : list string) (o : obj) : obj :=
  fold_left
    (fun acc k => match o !! k with Some v => <[k := v]> acc | None => acc end)
    keys ∅.

(** [insertSmtpProfileSchema.parse] *)
Definition insertSmtpProfileSchema_parse (o : obj) : parsed InsertSmtpProfile :=
  match (required_string o "name" ++ required_string o "host"
         ++ required_number o "port" ++ required_string o "username"
         ++ required_string o "password" ++ required_string o "fromName"
         ++ required_string o "fromEmail")%list with
  | [] =>
      Valid {| is_name := the_string o "name";
               is_host := the_string o "host";
               is_port := the_number o "port";
               is_username := the_string o "username";
               is_password := the_string o "password";
               is_fromName := the_string o "fromName";
               is_fromEmail := the_string o "fromEmail" |}
  | issues => ZodError issues
  end.

(** [insertEmailTemplateSchema.parse] *)
Definition insertEmailTemplateSchema_parse (o : obj)
  : parsed InsertEmailTemplate :=
  match (required_string o "name" ++ required_string o "subject"
         ++ required_string o "htmlContent" ++ optional_string o "textContent"
         ++ required_string o "senderName"
         ++ required_string o "senderEmail")%list with
  | [] =>
      Valid {| ie_name := the_string o "name";
               ie_subject := the_string o "subject";
               ie_htmlContent := the_string o "htmlContent";
               ie_textContent := the_opt_string o "textContent";
               ie_senderName := the_string o "senderName";
               ie_senderEmail := the_string o "senderEmail" |}
  | issues => ZodError issues
  end.

(** [insertLandingPageSchema.parse] *)
Definition insertLandingPageSchema_parse (o : obj) : parsed InsertLandingPage :=
  match (required_string o "name" ++ optional_string o "description"
         ++ required_string o "htmlContent" ++ optional_string o "redirectUrl"
         ++ required_string o "pageType"
         ++ optional_string o "thumbnail")%list with
  | [] =>
      Valid {| il_name := the_string o "name";
               il_description := the_opt_string o "description";
               il_htmlContent := the_string o "htmlContent";
               il_redirectUrl := the_opt_string o "redirectUrl";
               il_pageType := the_string o "pageType";
               il_thumbnail := the_opt_string o "thumbnail" |}
  | issues => ZodError issues
  end.

Module Api.
Import MemStorage Routes.

(** *** [GET /api/campaigns/recent] *)

(** [new Date(campaign.createdAt).getTime()], for the [Date] that
    [createdAt] is by its type.  What the expression gives for another
    value (the number itself, [NaN], ...) is not represented: the
    reading is 0 then, and the statement about the sort supposes
    [Date]s. *)
Definition getTime (v : value) : Z :=
  match v with VDate t => t | _ => 0 end.

(** The comparator of the sort: negative when [a] goes before [b]. *)
Definition newest_first (a b : obj) : Z :=
  getTime (js_get b "createdAt") - getTime (js_get a "createdAt").

(** [Array.prototype.sort] is stable: elements that compare equal keep
    their order.  For a given comparator that fixes the result, which is
    computed here by insertion. *)
Fixpoint insert_by (compare : obj -> obj -> Z) (x : obj) (l : list obj)
  : list obj :=
  match l with
  | [] => [x]
  | y :: l' =>
      if Z.leb (compare x y) 0 then x :: y :: l'
      else y :: insert_by compare x l'
  end.

Fixpoint sort_by (compare : obj -> obj -> Z) (l : list obj) : list obj :=
  match l with
  | [] => []
  | x :: l' => insert_by compare x (sort_by compare l')
  end.

(** The rates shown are mock data drawn with [Math.random]; the numbers
    drawn enter as [mock], in the order of the draws. *)
Fixpoint summaries (mock : nat -> Z) (index : nat) (l : list obj) : list obj :=
  match l with
  | [] => []
  | campaign :: l' =>
      js_object [
        ("id", js_get campaign "id");
        ("name", js_get campaign "name");
        ("status", js_get campaign "status");
        ("openRate", VNum (mock (2 * index)%nat));
        ("clickRate", VNum (mock (2 * index + 1)%nat));
        ("createdAt", js_get campaign "createdAt") ]
      :: summaries mock (S index) l'
  end.

Definition recent (organizationId : Z) (s : state) : list obj :=
  firstn 5 (sort_by newest_first (listCampaigns organizationId s)).

Definition getRecentCampaigns (user : SessionUser) (mock : nat -> Z) (s : state)
  : Response :=
  respond 200
    (JsonList (summaries mock 0 (recent (su_organizationId user) s))).

(** *** Groups *)

(** [GET /api/groups] *)
Definition getGroups (user : SessionUser) (s : state) : Response :=
  respond 200 (JsonList (listGroups (su_organizationId user) s)).

(** [POST /api/groups] *)
Definition postGroup (user : SessionUser) (body : obj) (now : Z) (s : state)
  : Response * state :=
  match insertGroupSchema_parse body with
  | ZodError errors =>
      (respond 400 (ValidationFailure "Validation error" errors), s)
  | Valid validatedData =>
      let '(group, s') :=
        createGroup (su_organizationId user) validatedData now s in
      (respond 201 (Json group), s')
  end.

(** What [res.json] does with the result of an update. *)
Definition json_of (updated : option obj) : Body :=
  match updated with Some o => Json o | None => Empty end.

(** [PUT /api/groups/:id] *)
Definition putGroup (user : SessionUser) (groupId : Z) (body : obj) (now : Z)
    (s : state) : Response * state :=
  match check_access user (getGroup groupId s) with
  | Missing => (respond 404 (Message "Group not found"), s)
  | Foreign => (respond 403 (Message "Access denied"), s)
  | Owned _ =>
      match insertGroupSchema_parse body with
      | ZodError errors =>
          (respond 400 (ValidationFailure "Validation error" errors), s)
      | Valid _ =>
          let validatedData := picked ["name"; "description"] body in
          let '(updatedGroup, s') := updateGroup groupId validatedData now s in
          (respond 200 (json_of updatedGroup), s')
      end
  end.

(** [POST /api/groups/:id/targets] *)
Definition postTarget (user : SessionUser) (groupId : Z) (body : obj) (now : Z)
    (s : state) : Response * state :=
  match check_access user (getGroup groupId s) with
  | Missing => (respond 404 (Message "Group not found"), s)
  | Foreign => (respond 403 (Message "Access denied"), s)
  | Owned _ =>
      match insertTargetSchema_parse body with
      | ZodError errors =>
          (respond 400 (ValidationFailure "Validation error" errors), s)
      | Valid validatedData =>
          let '(target, s') :=
            createTarget (su_organizationId user) groupId validatedData now s in
          (respond 201 (Json target), s')
      end
  end.

(** *** SMTP profiles, email templates, landing pages *)

Definition getSmtpProfiles (user : SessionUser) (s : state) : Response :=
  respond 200 (JsonList (listSmtpProfiles (su_organizationId user) s)).

Definition postSmtpProfile (user : SessionUser) (body : obj) (now : Z)
    (s : state) : Response * state :=
  match insertSmtpProfileSchema_parse body with
  | ZodError errors =>
      (respond 400 (ValidationFailure "Validation error" errors), s)
  | Valid validatedData =>
      let '(profile, s') :=
        createSmtpProfile (su_organizationId user) validatedData now s in
      (respond 201 (Json profile), s')
  end.

Definition getEmailTemplates (user : SessionUser) (s : state) : Response :=
  respond 200 (JsonList (listEmailTemplates (su_organizationId user) s)).

Definition postEmailTemplate (user : SessionUser) (body : obj) (now : Z)
    (s : state) : Response * state :=
  match insertEmailTemplateSchema_parse body with
  | ZodError errors =>
      (respond 400 (ValidationFailure "Validation error" errors), s)
  | Valid validatedData =>
      let '(template, s') :=
        createEmailTemplate (su_organizationId user) (su_id user)
                            validatedData now s in
      (respond 201 (Json template), s')
  end.

(** [PUT /api/email-templates/:id] *)
Definition putEmailTemplate (user : SessionUser) (templateId : Z) (body : obj)
    (now : Z) (s : state) : Response * state :=
  match check_access user (getEmailTemplate templateId s) with
  | Missing => (respond 404 (Message "Email template not found"), s)
  | Foreign => (respond 403 (Message "Access denied"), s)
  | Owned _ =>
      match insertEmailTemplateSchema_parse body with
      | ZodError errors =>
          (respond 400 (ValidationFailure "Validation error" errors), s)
      | Valid _ =>
          let validatedData :=
            picked ["name"; "subject"; "htmlContent"; "textContent";
                    "senderName"; "senderEmail"] body in
          let '(updatedTemplate, s') :=
            updateEmailTemplate templateId validatedData now s in
          (respond 200 (json_of updatedTemplate), s')
      end
  end.

Definition getLandingPages (user : SessionUser) (s : state) : Response :=
  respond 200 (JsonList (listLandingPages (su_organizationId user) s)).

Definition postLandingPage (user : SessionUser) (body : obj) (now : Z)
    (s : state) : Response * state :=
  match insertLandingPageSchema_parse body with
  | ZodError errors =>
      (respond 400 (ValidationFailure "Validation error" errors), s)
  | Valid validatedData =>
      let '(page, s') :=
        createLandingPage (su_organizationId user) (su_id user)
                          validatedData now s in
      (respond 201 (Json page), s')
  end.

(** *** [GET /api/campaigns] and [GET /api/users] *)

(** [storage.getGroup(campaign.targetGroupId)]: the maps have numbers for
    keys, so another value finds nothing. *)
Definition group_of (campaign : obj) (s : state) : option obj :=
  match js_get campaign "targetGroupId" with
  | VNum n => getGroup n s
  | _ => None
  end.

(** [group?.name || "Unknown"] *)
Definition group_name (group : option obj) : value :=
  js_or (match group with Some g => js_get g "name" | None => VUndef end)
        (VStr "Unknown").

Fixpoint joined (mock : nat -> Z) (index : nat) (l : list obj) (s : state)
  : list obj :=
  match l with
  | [] => []
  | campaign :: l' =>
      let group := group_of campaign s in
      let targets :=
        List.filter (in_group (js_get campaign "targetGroupId"))
                    (Map_values (MemStorage.targets s)) in
      (<["clickRate" := VNum (mock (2 * index + 1)%nat)]>
         (<["openRate" := VNum (mock (2 * index)%nat)]>
            (<["sentCount" := VNum 0]>
               (<["totalTargets" := VNum (Z.of_nat (length targets))]>
                  (<["targetGroup" := group_name group]> campaign)))))
      :: joined mock (S index) l' s
  end.

Definition getCampaigns (user : SessionUser) (mock : nat -> Z) (s : state)
  : Response :=
  respond 200
    (JsonList (joined mock 0 (listCampaigns (su_organizationId user) s) s)).

Definition getUsers (user : SessionUser) (s : state) : Response :=
  respond 200 (JsonList (listUsers (su_organizationId user) s)).

(** *** The requests that reach the store *)

Inductive Request : Type :=
  | GET_dashboard_stats
  | GET_campaigns_recent (mock : nat -> Z)
  | GET_groups
  | POST_groups (body : obj) (now : Z)
  | PUT_groups_id (id : Z) (body : obj) (now : Z)
  | DELETE_groups_id (id : Z)
  | GET_groups_id_targets (id : Z)
  | POST_groups_id_targets (id : Z) (body : obj) (now : Z)
  | POST_groups_id_import (Papa_parse : string -> ParseResult) (id : Z)
      (file : option string) (clock : nat -> Z)
  | GET_smtp_profiles
  | POST_smtp_profiles (body : obj) (now : Z)
  | GET_email_templates
  | POST_email_templates (body : obj) (now : Z)
  | PUT_email_templates_id (id : Z) (body : obj) (now : Z)
  | GET_landing_pages
  | POST_landing_pages (body : obj) (now : Z)
  | GET_campaigns (mock : nat -> Z)
  | POST_campaigns (body : obj) (now : Z)
  | GET_users.

(** What a handler sends: a response, or the statistics. *)
Inductive Reply : Type :=
  | Answer (r : Response)
  | Statistics (d : DashboardStats).

(** The handler of each request, for the user of the session. *)
Definition handle (user : SessionUser) (r : Request) (s : state)
  : Reply * state :=
  let reads (a : Response) := (Answer a, s) in
  let writes (a : Response * state) := (Answer (fst a), snd a) in
  match r with
  | GET_dashboard_stats =>
      (Statistics (getDashboardStats (su_organizationId user) s), s)
  | GET_campaigns_recent mock => reads (getRecentCampaigns user mock s)
  | GET_groups => reads (getGroups user s)
  | POST_groups body now => writes (postGroup user body now s)
  | PUT_groups_id id body now => writes (putGroup user id body now s)
  | DELETE_groups_id id => writes (deleteGroupRoute user id s)
  | GET_groups_id_targets id => reads (getGroupTargets user id s)
  | POST_groups_id_targets id body now => writes (postTarget user id body now s)
  | POST_groups_id_import Papa_parse id file clock =>
      writes (importTargets Papa_parse user id file clock s)
  | GET_smtp_profiles => reads (getSmtpProfiles user s)
  | POST_smtp_profiles body now => writes (postSmtpProfile user body now s)
  | GET_email_templates => reads (getEmailTemplates user s)
  | POST_email_templates body now => writes (postEmailTemplate user body now s)
  | PUT_email_templates_id id body now =>
      writes (putEmailTemplate user id body now s)
  | GET_landing_pages => reads (getLandingPages user s)
  | POST_landing_pages body now => writes (postLandingPage user body now s)
  | GET_campaigns mock => reads (getCampaigns user mock s)
  | POST_campaigns body now => writes (postCampaign user body now s)
  | GET_users => reads (getUsers user s)
  end.

End Api.

(** ** Notions used by the further properties *)

(** The kind of entity a [create*] call makes ([createOrganization]
    aside, whose map is not one of the eight). *)
Definition creates (c : StorageCall) : option entity_kind :=
  match c with
  | CreateUser _ _ => Some KUser
  | CreateGroup _ _ _ => Some KGroup
  | CreateTarget _ _ _ _ => Some KTarget
  | CreateSmtpProfile _ _ _ => Some KSmtpProfile
  | CreateEmailTemplate _ _ _ _ => Some KEmailTemplate
  | CreateLandingPage _ _ _ _ => Some KLandingPage
  | CreateCampaign _ _ _ _ => Some KCampaign
  | CreateCampaignResult _ _ _ => Some KCampaignResult
  | _ => None
  end.



(** Two strings that differ at most in the case of their ASCII letters. *)
Definition same_ignoring_case (a b : string) : Prop :=
  toLowerCase a = toLowerCase b.

#[global] Instance entity_kind_eq_dec : EqDecision entity_kind.
Proof. solve_decision. Defined.

(** ** More sample data *)

(** A second registration under the email of [alice], in capitals. *)
Definition alice_again : InsertUser :=
  {| iu_email := "ALICE@ACME.TEST"; iu_password := "other";
     iu_firstName := "Al"; iu_lastName := "Ng"; iu_isAdmin := Some true;
     iu_organizationName := "Acme"; iu_organizationId := 1 |}.

(** ** Notions for the route layer *)

(** A sequence of requests, each with the user of its session, served in
    turn. *)
Fixpoint serve (requests : list (Routes.SessionUser * Api.Request))
    (s : MemStorage.state) : MemStorage.state :=
  match requests with
  | [] => s
  | (user, r) :: requests' => serve requests' (snd (Api.handle user r s))
  end.

(** A fetched entity that is there and belongs to organization [o]. *)
Definition owned_by (o : Z) (fetched : option obj) : Prop :=
  exists e, fetched = Some e /\ js_get e "organizationId" = VNum o.

(** Data that supplies no field outside [keys]. *)
Definition only_fields (keys : list string) (data : obj) : Prop :=
  forall f, ~ In f keys -> data !! f = None.

(** The calls on the store that the handlers make for a user of
    organization [o], in a store [s]: a create for [o] (a target only in
    a group of [o], a campaign only on four resources of [o]); an update
    of a group or an email template of [o], with the fields of its insert
    schema only; the deletion of a group of [o]. *)
Inductive permitted (o : Z) (s : MemStorage.state) : StorageCall -> Prop :=
  | may_create_group (g : InsertGroup) (now : Z) :
      permitted o s (CreateGroup o g now)
  | may_update_group (id : Z) (data : obj) (now : Z) :
      owned_by o (MemStorage.getGroup id s) ->
      only_fields ["name"; "description"] data ->
      permitted o s (UpdateGroup id data now)
  | may_delete_group (id : Z) :
      owned_by o (MemStorage.getGroup id s) ->
      permitted o s (DeleteGroup id)
  | may_create_target (groupId : Z) (t : InsertTarget) (now : Z) :
      owned_by o (MemStorage.getGroup groupId s) ->
      permitted o s (CreateTarget o groupId t now)
  | may_create_smtpProfile (p : InsertSmtpProfile) (now : Z) :
      permitted o s (CreateSmtpProfile o p now)
  | may_create_emailTemplate (userId : Z) (t : InsertEmailTemplate) (now : Z) :
      permitted o s (CreateEmailTemplate o userId t now)
  | may_update_emailTemplate (id : Z) (data : obj) (now : Z) :
      owned_by o (MemStorage.getEmailTemplate id s) ->
      only_fields ["name"; "subject"; "htmlContent"; "textContent";
                   "senderName"; "senderEmail"] data ->
      permitted o s (UpdateEmailTemplate id data now)
  | may_create_landingPage (userId : Z) (p : InsertLandingPage) (now : Z) :
      permitted o s (CreateLandingPage o userId p now)
  | may_create_campaign (userId : Z) (c : InsertCampaign) (now : Z) :
      owned_by o (MemStorage.getGroup (ic_targetGroupId c) s) ->
      owned_by o (MemStorage.getSmtpProfile (ic_smtpProfileId c) s) ->
      owned_by o (MemStorage.getEmailTemplate (ic_emailTemplateId c) s) ->
      owned_by o (MemStorage.getLandingPage (ic_landingPageId c) s) ->
      permitted o s (CreateCampaign o userId c now).

(** A sequence of calls, each permitted in the store it is made in. *)
Inductive permitted_all (o : Z) : MemStorage.state -> list StorageCall -> Prop :=
  | permitted_nil (s : MemStorage.state) : permitted_all o s []
  | permitted_cons (s : MemStorage.state) (c : StorageCall)
      (cs : list StorageCall) :
      permitted o s c ->
      permitted_all o (snd (MemCalls.perform c s)) cs ->
      permitted_all o s (c :: cs).

(** Every target names a group that is in the store and has the target's
    organization. *)
Definition targets_follow_groups (s : MemStorage.state) : Prop :=
  forall id t,
    MemStorage.getTarget id s = Some t ->
    exists groupId g,
      js_get t "groupId" = VNum groupId
      /\ MemStorage.getGroup groupId s = Some g
      /\ js_get g "organizationId" = js_get t "organizationId".

(** Every campaign names an SMTP profile, an email template and a landing
    page that are in the store and have the campaign's organization. *)
Definition names_own (field : string) (fetch : Z -> option obj) (c : obj)
  : Prop :=
  exists id e,
    js_get c field = VNum id /\ fetch id = Some e
    /\ js_get e "organizationId" = js_get c "organizationId".

Definition campaigns_keep_resources (s : MemStorage.state) : Prop :=
  forall id c,
    MemStorage.getCampaign id s = Some c ->
    names_own "smtpProfileId" (fun i => MemStorage.getSmtpProfile i s) c
    /\ names_own "emailTemplateId" (fun i => MemStorage.getEmailTemplate i s) c
    /\ names_own "landingPageId" (fun i => MemStorage.getLandingPage i s) c.

(** Every campaign is a draft. *)
Definition all_drafts (s : MemStorage.state) : Prop :=
  forall id c,
    MemStorage.getCampaign id s = Some c -> js_get c "status" = VStr "Draft".

(** What a permitted call does to the eight maps: it creates an entity
    of the organization under the counter's value, or updates a group or
    an email template of the organization without touching its [id] and
    [organizationId], or deletes a group of the organization with its
    targets. *)
Inductive effect (o : Z) (s s' : MemStorage.state) : Prop :=
  | effect_create (k : entity_kind) (e : obj) :
      k <> KUser -> k <> KCampaignResult ->
      js_get e "id" = VNum (MemStorage.currentId s) ->
      js_get e "organizationId" = VNum o ->
      table k s' = Map_set (MemStorage.currentId s) e (table k s) ->
      (forall k', k' <> k -> table k' s' = table k' s) ->
      (k = KTarget ->
       exists groupId,
         js_get e "groupId" = VNum groupId
         /\ owned_by o (MemStorage.getGroup groupId s)) ->
      (k = KCampaign ->
       js_get e "status" = VStr "Draft"
       /\ (exists id, js_get e "smtpProfileId" = VNum id
                      /\ owned_by o (MemStorage.getSmtpProfile id s))
       /\ (exists id, js_get e "emailTemplateId" = VNum id
                      /\ owned_by o (MemStorage.getEmailTemplate id s))
       /\ (exists id, js_get e "landingPageId" = VNum id
                      /\ owned_by o (MemStorage.getLandingPage id s))) ->
      effect o s s'
  | effect_update (k : entity_kind) (id : Z) (old data : obj) (now : Z) :
      k = KGroup \/ k = KEmailTemplate ->
      Map_get id (table k s) = Some old ->
      js_get old "organizationId" = VNum o ->
      data !! "organizationId" = None ->
      data !! "id" = None ->
      table k s' = Map_set id (MemStorage.merged old data now) (table k s) ->
      (forall k', k' <> k -> table k' s' = table k' s) ->
      effect o s s'
  | effect_delete (id : Z) (old : obj) :
      MemStorage.getGroup id s = Some old ->
      js_get old "organizationId" = VNum o ->
      table KGroup s' = Map_remove id (table KGroup s) ->
      table KTarget s'
      = List.filter (fun kv => negb (in_group (VNum id) (snd kv)))
                    (table KTarget s) ->
      (forall k', k' <> KGroup -> k' <> KTarget -> table k' s' = table k' s) ->
      effect o s s'.

(** Every entity is stored under its [id]. *)
Definition keys_are_ids (s : MemStorage.state) : Prop :=
  forall k id e, Map_get id (table k s) = Some e -> js_get e "id" = VNum id.

(** A store in which the identifiers and the references hold together. *)
Definition consistent (s : MemStorage.state) : Prop :=
  well_formed s /\ keys_are_ids s /\ targets_follow_groups s
  /\ campaigns_keep_resources s.

(** ** Sample requests *)

(** Two tenants at work: a user of organization 7 makes a group (id 1)
    with a target (id 2), a user of organization 8 makes a group (id 3)
    with a target (id 4). *)
Definition user_of_8 : Routes.SessionUser :=
  {| Routes.su_id := 4; Routes.su_organizationId := 8 |}.
Definition staff_body : obj := js_object [("name", VStr "Staff")].
Definition ann_body : obj :=
  js_object [("firstName", VStr "Ann"); ("lastName", VStr "Lee");
             ("email", VStr "ann@acme.test")].
Definition two_tenants_at_work : list (Routes.SessionUser * Api.Request) :=
  [ (user_of_7, Api.POST_groups staff_body 5);
    (user_of_7, Api.POST_groups_id_targets 1 ann_body 6);
    (user_of_8, Api.POST_groups staff_body 7);
    (user_of_8, Api.POST_groups_id_targets 3 ann_body 8) ].
Definition two_tenants : MemStorage.state :=
  serve two_tenants_at_work MemStorage.new.

(** A user of organization 7 makes a group, an SMTP profile, an email
    template and a landing page (ids 1 to 4) and composes a campaign on
    them (id 5). *)
Definition relay_body : obj :=
  js_object [("name", VStr "Relay"); ("host", VStr "smtp.acme.test");
             ("port", VNum 587); ("username", VStr "mailer");
             ("password", VStr "secret"); ("fromName", VStr "IT");
             ("fromEmail", VStr "it@acme.test")].
Definition notice_body : obj :=
  js_object [("name", VStr "Notice"); ("subject", VStr "Password expiry");
             ("htmlContent", VStr "<p>Renew</p>"); ("senderName", VStr "IT");
             ("senderEmail", VStr "it@acme.test")].
Definition portal_body : obj :=
  js_object [("name", VStr "Portal"); ("htmlContent", VStr "<form></form>");
             ("pageType", VStr "login")].
Definition composing : list (Routes.SessionUser * Api.Request) :=
  [ (user_of_7, Api.POST_groups staff_body 5);
    (user_of_7, Api.POST_smtp_profiles relay_body 5);
    (user_of_7, Api.POST_email_templates notice_body 5);
    (user_of_7, Api.POST_landing_pages portal_body 5);
    (user_of_7, Api.POST_campaigns campaign_body 6) ].

(** A body for [PUT /api/groups/:id] that also supplies an [id] and an
    [organizationId]. *)
Definition moving_body : obj :=
  js_object [("name", VStr "Moved"); ("id", VNum 3);
             ("organizationId", VNum 8)].

(** The status a reply is sent with; [res.json] without [res.status]
    sends 200. *)
Definition status_of (r : Api.Reply) : Z :=
  match r with
  | Api.Answer a => Routes.status a
  | Api.Statistics _ => 200
  end.

(** ** [CampaignForm]: the schema of the client's campaign form *)

(** [z.string().min(1, ...)] and [z.string().optional()] *)
Definition nonempty_string (v : value) : bool :=
  match v with VStr s => negb (String.eqb s "") | _ => false end.

Definition optional_text (v : value) : bool :=
  match v with VStr _ | VUndef => true | _ => false end.

(** Whether [campaignSchema] accepts the values of the form, and the data
    it then hands to [onSubmit], which posts them to [/api/campaigns]. *)
Definition campaignSchema_accepts (values : obj) : bool :=
  (nonempty_string (js_get values "name")
   && nonempty_string (js_get values "targetGroupId")
   && nonempty_string (js_get values "smtpProfileId")
   && nonempty_string (js_get values "emailTemplateId")
   && nonempty_string (js_get values "landingPageId")
   && optional_text (js_get values "scheduledAt")
   && optional_text (js_get values "endDate"))%bool.

Definition campaignSchema_data (values : obj) : obj :=
  picked ["name"; "targetGroupId"; "smtpProfileId"; "emailTemplateId";
          "landingPageId"; "scheduledAt"; "endDate"] values.

(** The values a JSON body can hold: no [undefined] and no [Date]. *)
Definition is_json (v : value) : bool :=
  match v with VUndef | VDate _ => false | _ => true end.

Definition json_body (body : obj) : Prop :=
  forall k v, body !! k = Some v -> is_json v = true.

(** The form, filled in. *)
Definition filled_form : obj :=
  js_object [("name", VStr "Autumn"); ("targetGroupId", VStr "1");
             ("smtpProfileId", VStr "2"); ("emailTemplateId", VStr "3");
             ("landingPageId", VStr "4"); ("scheduledAt", VStr "");
             ("endDate", VStr "")].

(** The time a campaign was created at, as the sort of the recent
    campaigns reads it, and the order the sort puts campaigns in. *)
Definition created (c : obj) : Z := Api.getTime (js_get c "createdAt").

Definition no_older (a b : obj) : Prop := created b <= created a.

Definition created_at (t : Z) (c : obj) : bool := Z.eqb (created c) t.

(** ** Notions for the import *)

(** A header that is one of [names] up to the case of its letters, and
    the value a row has in the last column with such a header. *)
Definition named (names : list string) (header : string) : bool :=
  existsb (String.eqb (toLowerCase header)) names.

Definition column (names : list string) (r : Routes.Row) : option string :=
  fold_left
    (fun found '(header, v) => if named names header then Some v else found)
    r None.

(** A row of [GET /api/groups] with one target more, and the rows after
    a target was added to the group [groupId]. *)
Definition one_more (row : obj) : obj :=
  match js_get row "targetCount" with
  | VNum n => <["targetCount" := VNum (n + 1)]> row
  | _ => row
  end.

Definition counted_in (groupId : Z) (row : obj) : obj :=
  if strict_eq (js_get row "id") (VNum groupId) then one_more row else row.

(** The three resources that are made by a [POST] and listed by a [GET]
    of the same path. *)
Inductive resource : Type :=
  | SmtpProfiles
  | EmailTemplates
  | LandingPages.

Definition post_of (res : resource) (body : obj) (now : Z) : Api.Request :=
  match res with
  | SmtpProfiles => Api.POST_smtp_profiles body now
  | EmailTemplates => Api.POST_email_templates body now
  | LandingPages => Api.POST_landing_pages body now
  end.

Definition get_of (res : resource) : Api.Request :=
  match res with
  | SmtpProfiles => Api.GET_smtp_profiles
  | EmailTemplates => Api.GET_email_templates
  | LandingPages => Api.GET_landing_pages
  end.

(** The objects a reply shows. *)
Definition shown (r : Api.Reply) : list obj :=
  match r with
  | Api.Answer a =>
      match Routes.body a with
      | Routes.Json o => [o]
      | Routes.JsonList l => l
      | _ => []
      end
  | Api.Statistics _ => []
  end.

(** A clock-free source of mock rates. *)
Definition no_rates (draw : nat) : Z := 0.

(** ** The organization of a created entity *)

(** The organization a [create*] call makes its entity for:
    [createUser] takes it from the user, the others as an argument;
    [createOrganization] has none. *)
Definition creator (c : StorageCall) : option Z :=
  match c with
  | CreateUser user _ => Some (iu_organizationId user)
  | CreateGroup o _ _ | CreateTarget o _ _ _ | CreateSmtpProfile o _ _
  | CreateEmailTemplate o _ _ _ | CreateLandingPage o _ _ _
  | CreateCampaign o _ _ _ | CreateCampaignResult o _ _ => Some o
  | _ => None
  end.

(** Partial data that moves an entity to organization 8. *)
Definition to_organization_8 : obj := {["organizationId" := VNum 8]}.

(** The body of [campaign_body] without its [name]. *)
Definition nameless_body : obj :=
  js_object [
    ("targetGroupId", VNum 1); ("smtpProfileId", VNum 2);
    ("emailTemplateId", VNum 3); ("landingPageId", VNum 4) ].

(** ** The CSV text of the example and what the parser makes of it *)

Definition LF : string := String (ascii_of_nat 10) EmptyString.

(** The text whose data rows are those of the example: the second row
    has no field for the third header; the same text with the second
    row written in full; and the text without the column of last
    names. *)
Definition two_row_csv : string :=
  "email,firstName,lastName" ++ LF ++ "a@x.com,A,X" ++ LF ++ ",B".

Definition completed_csv : string :=
  "email,firstName,lastName" ++ LF ++ "a@x.com,A,X" ++ LF ++ ",B,".

Definition two_column_csv : string :=
  "email,firstName" ++ LF ++ "a@x.com,A" ++ LF ++ ",B".

(** With [header: true] the parser gives each row the headers of its
    fields, and reports a row that has fewer fields than there are
    headers. *)
Definition too_few_fields : Routes.PapaError :=
  {| Routes.pe_type := "FieldMismatch"; Routes.pe_code := "TooFewFields";
     Routes.pe_message := "Too few fields: expected 3 fields but parsed 2";
     Routes.pe_row := Some 1%nat |}.

Definition completed_row : Routes.Row :=
  [("email", ""); ("firstName", "B"); ("lastName", "")].

Definition parsed_two_row_csv : Routes.ParseResult :=
  {| Routes.data := [first_row; second_row];
     Routes.errors := [too_few_fields] |}.

Definition parsed_completed_csv : Routes.ParseResult :=
  {| Routes.data := [first_row; completed_row]; Routes.errors := [] |}.

Definition nameless_row : Routes.Row :=
  [("email", "a@x.com"); ("firstName", "A")].

Definition parsed_two_column_csv : Routes.ParseResult :=
  {| Routes.data := [nameless_row; second_row]; Routes.errors := [] |}.

(** The parser on the three texts; no statement uses it on another. *)
Definition parser_of_the_examples (csv : string) : Routes.ParseResult :=
  if String.eqb csv two_row_csv then parsed_two_row_csv
  else if String.eqb csv two_column_csv then parsed_two_column_csv
  else parsed_completed_csv.

(** ** The maps of the store, text, dates and rows *)

(** The nine maps of the store, by name, and the map a [create*] call
    adds to. *)
Inductive store_map : Type :=
  | OrganizationsMap
  | MapOf (k : entity_kind).

Definition map_of (m : store_map) (s : MemStorage.state) : JsMap :=
  match m with
  | OrganizationsMap => MemStorage.organizations s
  | MapOf k => table k s
  end.

Definition makes (c : StorageCall) : option store_map :=
  match c with
  | CreateOrganization _ _ => Some OrganizationsMap
  | _ => match creates c with Some k => Some (MapOf k) | None => None end
  end.

Definition zenith : InsertOrganization := {| io_name := "Zenith" |}.

(** Text of ASCII characters only: on such text [toLowerCase] above is
    the method of JavaScript. *)
Fixpoint is_ascii (s : string) : bool :=
  match s with
  | EmptyString => true
  | String c s' => (Nat.ltb (nat_of_ascii c) 128 && is_ascii s')%bool
  end.

(** An entity whose [field] holds such text, as the types [User] and
    [Organization] say of [email] and [name]. *)
Definition holds_text (field : string) (e : obj) : Prop :=
  exists held, js_get e field = VStr held /\ is_ascii held = true.

(** [e] is the first element of [l] whose [field] is [wanted] up to
    case. *)
Definition first_with (field wanted : string) (l : list obj) (e : obj) : Prop :=
  exists before after held,
    l = (before ++ e :: after)%list
    /\ js_get e field = VStr held /\ same_ignoring_case held wanted
    /\ forall x held', In x before -> js_get x field = VStr held' ->
         ~ same_ignoring_case held' wanted.

(** A campaign whose [createdAt] is a [Date], as its type says. *)
Definition dated (c : obj) : Prop := exists t, js_get c "createdAt" = VDate t.

(** An integer that an [integer] column or a [serial] key can hold. *)
Definition int4 (n : Z) : Prop := INT32_MIN <= n <= INT32_MAX.

(** A database that holds the rows that a store holds, each table in
    whatever order. *)
Definition same_rows (db : DatabaseStorage.database) (s : MemStorage.state)
  : Prop :=
  Permutation (DatabaseStorage.users db) (Map_values (MemStorage.users s))
  /\ Permutation (DatabaseStorage.organizations db)
       (Map_values (MemStorage.organizations s))
  /\ Permutation (DatabaseStorage.groups db) (Map_values (MemStorage.groups s))
  /\ Permutation (DatabaseStorage.targets db)
       (Map_values (MemStorage.targets s))
  /\ Permutation (DatabaseStorage.smtpProfiles db)
       (Map_values (MemStorage.smtpProfiles s))
  /\ Permutation (DatabaseStorage.emailTemplates db)
       (Map_values (MemStorage.emailTemplates s))
  /\ Permutation (DatabaseStorage.landingPages db)
       (Map_values (MemStorage.landingPages s))
  /\ Permutation (DatabaseStorage.campaigns db)
       (Map_values (MemStorage.campaigns s))
  /\ Permutation (DatabaseStorage.campaignResults db)
       (Map_values (MemStorage.campaignResults s)).

(** The rows of a store, each table from the last inserted to the
    first. *)
Definition backwards (s : MemStorage.state) : DatabaseStorage.database :=
  {| DatabaseStorage.users := rev (Map_values (MemStorage.users s));
     DatabaseStorage.organizations :=
       rev (Map_values (MemStorage.organizations s));
     DatabaseStorage.groups := rev (Map_values (MemStorage.groups s));
     DatabaseStorage.targets := rev (Map_values (MemStorage.targets s));
     DatabaseStorage.smtpProfiles :=
       rev (Map_values (MemStorage.smtpProfiles s));
     DatabaseStorage.emailTemplates :=
       rev (Map_values (MemStorage.emailTemplates s));
     DatabaseStorage.landingPages :=
       rev (Map_values (MemStorage.landingPages s));
     DatabaseStorage.campaigns := rev (Map_values (MemStorage.campaigns s));
     DatabaseStorage.campaignResults :=
       rev (Map_values (MemStorage.campaignResults s)) |}.

(** * Properties *)

(** ** Values, objects and maps *)

Lemma strict_eq_num (v : value) (n : Z) :
  strict_eq v (VNum n) = true <-> v = VNum n.
Proof.
  destruct v; simpl; split; try discriminate; intros H.
  - apply Z.eqb_eq in H. now subst.
  - injection H as ->. apply Z.eqb_refl.
Qed.

Lemma in_organization_iff (organizationId : Z) (e : obj) :
  in_organization organizationId e = true
  <-> js_get e "organizationId" = VNum organizationId.
Proof. apply strict_eq_num. Qed.

Lemma in_organization_other (o1 o2 : Z) (e : obj) :
  o1 <> o2 -> js_get e "organizationId" = VNum o1 ->
  in_organization o2 e = false.
Proof.
  intros Hne He. destruct (in_organization o2 e) eqn:E; [|reflexivity].
  apply in_organization_iff in E. congruence.
Qed.

Lemma js_get_insert_eq (o : obj) (k : string) (v : value) :
  js_get (<[k := v]> o) k = v.
Proof. unfold js_get. now rewrite lookup_insert_eq. Qed.

Lemma js_get_insert_ne (o : obj) (k k' : string) (v : value) :
  k <> k' -> js_get (<[k := v]> o) k' = js_get o k'.
Proof. intros H. unfold js_get. now rewrite lookup_insert_ne. Qed.

Lemma Map_get_set_eq (k : Z) (v : obj) (m : JsMap) :
  Map_get k (Map_set k v m) = Some v.
Proof.
  induction m as [|[k' v'] m IH]; simpl.
  - now rewrite Z.eqb_refl.
  - destruct (Z.eqb k k') eqn:E; simpl.
    + now rewrite Z.eqb_refl.
    + now rewrite E.
Qed.

Lemma Map_get_set_ne (k k' : Z) (v : obj) (m : JsMap) :
  k <> k' -> Map_get k' (Map_set k v m) = Map_get k' m.
Proof.
  intros Hne. induction m as [|[k0 v0] m IH]; simpl.
  - destruct (Z.eqb k' k) eqn:E; [|reflexivity].
    apply Z.eqb_eq in E. congruence.
  - destruct (Z.eqb k k0) eqn:E; simpl.
    + apply Z.eqb_eq in E. subst k0.
      destruct (Z.eqb k' k) eqn:E'; [|reflexivity].
      apply Z.eqb_eq in E'. congruence.
    + now rewrite IH.
Qed.

Lemma Map_get_remove_eq (k : Z) (m : JsMap) : Map_get k (Map_remove k m) = None.
Proof.
  induction m as [|[k' v'] m IH]; simpl; [reflexivity|].
  destruct (Z.eqb k' k) eqn:E; simpl; [exact IH|].
  rewrite Z.eqb_sym, E. exact IH.
Qed.

Lemma Map_get_remove_ne (k k' : Z) (m : JsMap) :
  k <> k' -> Map_get k' (Map_remove k m) = Map_get k' m.
Proof.
  intros Hne. induction m as [|[k0 v0] m IH]; simpl; [reflexivity|].
  destruct (Z.eqb k0 k) eqn:E; simpl.
  - apply Z.eqb_eq in E. subst k0.
    destruct (Z.eqb k' k) eqn:E'; [|exact IH].
    apply Z.eqb_eq in E'. congruence.
  - now rewrite IH.
Qed.

Lemma In_Map_remove (k : Z) (kv : Z * obj) (m : JsMap) :
  In kv (Map_remove k m) <-> In kv m /\ fst kv <> k.
Proof.
  unfold Map_remove. rewrite filter_In. split; intros [H1 H2]; split; trivial.
  - intros E. rewrite E, Z.eqb_refl in H2. discriminate.
  - destruct (Z.eqb (fst kv) k) eqn:E; [|reflexivity].
    apply Z.eqb_eq in E. contradiction.
Qed.

Lemma Map_get_In (k : Z) (v : obj) (m : JsMap) :
  Map_get k m = Some v -> In (k, v) m.
Proof.
  induction m as [|[k' v'] m IH]; simpl; [discriminate|].
  destruct (Z.eqb k k') eqn:E.
  - apply Z.eqb_eq in E. intros [= ->]. left. now subst.
  - intros H. right. now apply IH.
Qed.

Lemma In_Map_get (k : Z) (v : obj) (m : JsMap) :
  unique_keys m -> In (k, v) m -> Map_get k m = Some v.
Proof.
  unfold unique_keys, Map_keys.
  induction m as [|[k' v'] m IH]; simpl; [contradiction|].
  intros Hnd [H|H].
  - injection H as -> ->. now rewrite Z.eqb_refl.
  - apply NoDup_cons_iff in Hnd as [Hnotin Hnd].
    destruct (Z.eqb k k') eqn:E.
    + apply Z.eqb_eq in E. subst k'. exfalso. apply Hnotin.
      change k with (fst (k, v)). now apply in_map.
    + now apply IH.
Qed.

(** ** The model at work *)

Example toLowerCase_header : toLowerCase "First_Name" = "first_name".
Proof. reflexivity. Qed.

Example Map_set_keeps_the_place :
  Map_set 1 no_change [(1, staff_group); (2, stamp_only)]
  = [(1, no_change); (2, stamp_only)].
Proof. reflexivity. Qed.

Example Map_set_appends :
  Map_set 3 no_change [(1, staff_group); (2, stamp_only)]
  = [(1, staff_group); (2, stamp_only); (3, no_change)].
Proof. reflexivity. Qed.

Example Map_delete_reports :
  Map_delete 2 [(1, staff_group); (2, stamp_only)] = (true, [(1, staff_group)])
  /\ Map_delete 5 [(1, staff_group)] = (false, [(1, staff_group)]).
Proof. split; reflexivity. Qed.

Example first_group_stored :
  MemStorage.getGroup 1 store_with_group = Some staff_group
  /\ MemStorage.currentId store_with_group = 2.
Proof. split; reflexivity. Qed.

(** [description: group.description || null] turns the empty string into
    [null]. *)
Example empty_description_is_null :
  js_get (fst (MemStorage.createGroup 7
                 {| ig_name := "Staff"; ig_description := Some "" |} 5
                 MemStorage.new)) "description" = VNull.
Proof. reflexivity. Qed.

Example normalize_headers :
  Routes.normalize
    [("First_Name", "A"); ("LASTNAME", "X"); ("E-mail", "none");
     ("Email", "a@x.com"); ("Title", "Dr"); ("Phone", "1")]
  = js_object [("firstName", VStr "A"); ("lastName", VStr "X");
               ("email", VStr "a@x.com"); ("position", VStr "Dr")].
Proof. reflexivity. Qed.

(** Of two columns that name the same field, the later one is kept. *)
Example normalize_keeps_the_later_column :
  Routes.normalize [("title", "Dr"); ("position", "Clerk")]
  = js_object [("position", VStr "Clerk")].
Proof. reflexivity. Qed.

Example deleteGroup_on_three_targets :
  MemStorage.deleteGroup 1 store_with_three_targets
  = (true,
     MemStorage.set_groups []
       (MemStorage.set_targets [] store_with_three_targets)).
Proof. reflexivity. Qed.

(** ** The [update*] methods of the in-memory store *)

Lemma merged_updatedAt (entity data : obj) (now : Z) :
  MemStorage.merged entity data now !! "updatedAt" = Some (VDate now).
Proof. unfold MemStorage.merged. apply lookup_insert_eq. Qed.

Lemma merged_field (entity data : obj) (now : Z) (f : string) :
  f <> "updatedAt" ->
  MemStorage.merged entity data now !! f
  = match data !! f with Some v => Some v | None => entity !! f end.
Proof.
  intros Hf. unfold MemStorage.merged, js_spread.
  rewrite lookup_insert_ne by congruence.
  rewrite lookup_union.
  destruct (data !! f), (entity !! f); reflexivity.
Qed.

Lemma update_found (k : entity_kind) (id : Z) (d : obj) (now : Z)
    (s : MemStorage.state) (old : obj) :
  Map_get id (table k s) = Some old ->
  fst (update k id d now s) = Some (MemStorage.merged old d now)
  /\ table k (snd (update k id d now s))
     = Map_set id (MemStorage.merged old d now) (table k s)
  /\ forall k', k' <> k -> table k' (snd (update k id d now s)) = table k' s.
Proof.
  intros H.
  destruct k; simpl in *;
    unfold MemStorage.updateUser, MemStorage.updateGroup,
      MemStorage.updateTarget, MemStorage.updateSmtpProfile,
      MemStorage.updateEmailTemplate, MemStorage.updateLandingPage,
      MemStorage.updateCampaign, MemStorage.updateCampaignResult;
    rewrite H; simpl; repeat split;
    intros k' Hk'; destruct k'; simpl; congruence.
Qed.

Lemma update_not_found (k : entity_kind) (id : Z) (d : obj) (now : Z)
    (s : MemStorage.state) :
  Map_get id (table k s) = None -> update k id d now s = (None, s).
Proof.
  intros H.
  destruct k; simpl in *;
    unfold MemStorage.updateUser, MemStorage.updateGroup,
      MemStorage.updateTarget, MemStorage.updateSmtpProfile,
      MemStorage.updateEmailTemplate, MemStorage.updateLandingPage,
      MemStorage.updateCampaign, MemStorage.updateCampaignResult;
    now rewrite H.
Qed.

(** C10, as amended.  An update of an existing id with partial data [d]
    stores and returns one entity [e]; on every field other than
    [updatedAt], [e] has the value [d] supplies (also for [id] and
    [organizationId]) and otherwise the value the entity had; [updatedAt]
    is the time of the update whatever [d] supplies; every other id of the
    map and every other map are as before. *)
Theorem update_frame (k : entity_kind) (id : Z) (d : obj) (now : Z)
    (s : MemStorage.state) (old : obj) :
  Map_get id (table k s) = Some old ->
  exists e : obj,
    fst (update k id d now s) = Some e
    /\ Map_get id (table k (snd (update k id d now s))) = Some e
    /\ (forall f, f <> "updatedAt" -> d !! f = None -> e !! f = old !! f)
    /\ (forall f v, f <> "updatedAt" -> d !! f = Some v -> e !! f = Some v)
    /\ (forall v, d !! "id" = Some v -> e !! "id" = Some v)
    /\ (forall v, d !! "organizationId" = Some v ->
                  e !! "organizationId" = Some v)
    /\ e !! "updatedAt" = Some (VDate now)
    /\ (forall id', id' <> id ->
          Map_get id' (table k (snd (update k id d now s)))
          = Map_get id' (table k s))
    /\ (forall k', k' <> k -> table k' (snd (update k id d now s)) = table k' s).
Proof.
  intros Hold.
  destruct (update_found k id d now s old Hold) as (Hret & Htab & Hothers).
  exists (MemStorage.merged old d now).
  assert (Hsupplied : forall f v, f <> "updatedAt" -> d !! f = Some v ->
            MemStorage.merged old d now !! f = Some v).
  { intros f v Hf Hd. rewrite merged_field by exact Hf. now rewrite Hd. }
  repeat split.
  - exact Hret.
  - rewrite Htab. apply Map_get_set_eq.
  - intros f Hf Hd. rewrite merged_field by exact Hf. now rewrite Hd.
  - exact Hsupplied.
  - intros v. now apply Hsupplied.
  - intros v. now apply Hsupplied.
  - apply merged_updatedAt.
  - intros id' Hne. rewrite Htab. apply Map_get_set_ne. congruence.
  - exact Hothers.
Qed.

Lemma update_frame_witness :
  Map_get 1 (table KGroup store_with_group) = Some staff_group
  /\ exists e : obj,
       fst (update KGroup 1 stamp_only 9 store_with_group) = Some e
       /\ e !! "name" = Some (VStr "Staff")
       /\ e !! "updatedAt" = Some (VDate 9).
Proof.
  split; [reflexivity|].
  destruct (update_frame KGroup 1 stamp_only 9 store_with_group
              staff_group eq_refl)
    as (e & Hret & _ & Hkeep & _ & _ & _ & Hstamp & _).
  exists e. split; [exact Hret|]. split; [|exact Hstamp].
  rewrite Hkeep; [reflexivity|discriminate|reflexivity].
Defined.

(** C10, as stated, fails where [d] supplies [updatedAt]: the stored
    entity has the time of the update, not the value of [d]. *)
Lemma update_overrides_supplied_updatedAt :
  exists e : obj,
    fst (MemStorage.updateGroup 1 stamp_only 9 store_with_group) = Some e
    /\ MemStorage.getGroup 1
         (snd (MemStorage.updateGroup 1 stamp_only 9 store_with_group)) = Some e
    /\ stamp_only !! "updatedAt" = Some (VDate 1)
    /\ e !! "updatedAt" = Some (VDate 9)
    /\ e !! "updatedAt" <> stamp_only !! "updatedAt".
Proof.
  eexists. repeat split; try reflexivity. vm_compute. discriminate.
Qed.

(** C9, as amended.  A successful update returns an entity whose
    [updatedAt] is the clock reading of the update; it is later than the
    [updatedAt] the entity had exactly when that reading is later. *)
Theorem update_restamps (k : entity_kind) (id : Z) (d : obj) (now : Z)
    (s : MemStorage.state) (old : obj) (before : Z) :
  Map_get id (table k s) = Some old ->
  js_get old "updatedAt" = VDate before ->
  exists e : obj,
    fst (update k id d now s) = Some e
    /\ Map_get id (table k (snd (update k id d now s))) = Some e
    /\ js_get e "updatedAt" = VDate now
    /\ (earlier (js_get old "updatedAt") (js_get e "updatedAt")
        <-> before < now).
Proof.
  intros Hold Hbefore.
  destruct (update_found k id d now s old Hold) as (Hret & Htab & _).
  exists (MemStorage.merged old d now).
  assert (He : js_get (MemStorage.merged old d now) "updatedAt" = VDate now).
  { unfold js_get. now rewrite merged_updatedAt. }
  split; [exact Hret|]. split.
  { rewrite Htab. apply Map_get_set_eq. }
  split; [exact He|].
  rewrite Hbefore, He. simpl. reflexivity.
Qed.

Lemma update_restamps_witness :
  Map_get 1 (table KGroup store_with_group) = Some staff_group
  /\ js_get staff_group "updatedAt" = VDate 5
  /\ exists e : obj,
       fst (update KGroup 1 no_change 8 store_with_group) = Some e
       /\ js_get e "updatedAt" = VDate 8
       /\ earlier (js_get staff_group "updatedAt") (js_get e "updatedAt").
Proof.
  split; [reflexivity|]. split; [reflexivity|].
  destruct (update_restamps KGroup 1 no_change 8 store_with_group
              staff_group 5 eq_refl eq_refl)
    as (e & Hret & _ & Hstamp & Hlater).
  exists e. split; [exact Hret|]. split; [exact Hstamp|].
  apply Hlater. reflexivity.
Defined.

(** C9, as stated, fails when the update reads the clock in the
    millisecond in which the entity was stamped: a group created at time 5
    and updated at time 5 keeps [updatedAt] 5. *)
Lemma update_in_the_same_millisecond :
  exists old e : obj,
    MemStorage.getGroup 1 store_with_group = Some old
    /\ fst (MemStorage.updateGroup 1 no_change 5 store_with_group) = Some e
    /\ js_get old "updatedAt" = VDate 5
    /\ js_get e "updatedAt" = VDate 5
    /\ ~ earlier (js_get old "updatedAt") (js_get e "updatedAt").
Proof.
  eexists. eexists. repeat split; try reflexivity.
  vm_compute. intros H. discriminate H.
Qed.

(** ** Deletion in the in-memory store *)

Lemma filter_all {A : Type} (f : A -> bool) (l : list A) :
  (forall x, In x l -> f x = true) -> List.filter f l = l.
Proof.
  induction l as [|a l IH]; simpl; intros H; [reflexivity|].
  rewrite (H a) by now left. f_equal. apply IH. intros x Hx. apply H. now right.
Qed.

Lemma filter_twice {A : Type} (f g : A -> bool) (l : list A) :
  List.filter f (List.filter g l) = List.filter (fun x => g x && f x)%bool l.
Proof.
  induction l as [|a l IH]; simpl; [reflexivity|].
  destruct (g a); simpl; [destruct (f a)|]; now rewrite IH.
Qed.

(** What the loop leaves: the entries whose key no swept entry has. *)
Lemma sweep_filter (p : obj -> bool) (entries m : JsMap) :
  sweep p entries m
  = List.filter
      (fun kv =>
         negb (existsb (fun kv' => Z.eqb (fst kv') (fst kv) && p (snd kv'))%bool
                       entries))
      m.
Proof.
  unfold sweep. revert m.
  induction entries as [|[k v] entries IH]; intros m; simpl.
  - symmetry. now apply filter_all.
  - rewrite IH. destruct (p v); simpl.
    + unfold Map_remove. rewrite filter_twice. apply filter_ext.
      intros [k' v']. simpl. rewrite Z.eqb_sym, andb_true_r.
      now rewrite negb_orb.
    + apply filter_ext. intros [k' v']. simpl. now rewrite andb_false_r.
Qed.

Lemma sweep_own_entries (p : obj -> bool) (m : JsMap) :
  unique_keys m ->
  sweep p m m = List.filter (fun kv => negb (p (snd kv))) m.
Proof.
  intros Hu. rewrite sweep_filter. apply filter_ext_in.
  intros [k v] Hin. simpl. f_equal.
  destruct (p v) eqn:Hp.
  - apply existsb_exists. exists (k, v). simpl.
    now rewrite Z.eqb_refl, Hp.
  - destruct (existsb _ m) eqn:E; [|reflexivity].
    apply existsb_exists in E as [[k' v'] [Hin' E]]. simpl in E.
    apply andb_prop in E as [Ek Ep]. apply Z.eqb_eq in Ek. subst k'.
    pose proof (In_Map_get k v m Hu Hin) as H1.
    pose proof (In_Map_get k v' m Hu Hin') as H2.
    congruence.
Qed.

Lemma sweep_clears (p : obj -> bool) (m : JsMap) (v : obj) :
  In v (Map_values (sweep p m m)) -> p v = false.
Proof.
  unfold Map_values. rewrite in_map_iff. intros [[k v'] [<- Hin]]. simpl.
  rewrite sweep_filter in Hin. apply filter_In in Hin as [Hin Hex].
  destruct (p v') eqn:Hp; [|reflexivity].
  apply negb_true_iff in Hex.
  assert (E : existsb
            (fun kv' => Z.eqb (fst kv') (fst (k, v')) && p (snd kv'))%bool m
            = true).
  { apply existsb_exists. exists (k, v'). simpl.
    now rewrite Z.eqb_refl, Hp. }
  congruence.
Qed.

Lemma sweep_subset (p : obj -> bool) (entries m : JsMap) (kv : Z * obj) :
  In kv (sweep p entries m) -> In kv m.
Proof. rewrite sweep_filter. intros H. now apply filter_In in H. Qed.

Lemma deleteGroup_eq (id : Z) (s : MemStorage.state) :
  MemStorage.deleteGroup id s
  = (Map_has id (MemStorage.groups s),
     MemStorage.set_groups (Map_remove id (MemStorage.groups s))
       (MemStorage.set_targets
          (sweep (in_group (VNum id)) (MemStorage.targets s)
                 (MemStorage.targets s)) s)).
Proof. reflexivity. Qed.

Lemma deleteCampaign_eq (id : Z) (s : MemStorage.state) :
  MemStorage.deleteCampaign id s
  = (Map_has id (MemStorage.campaigns s),
     MemStorage.set_campaigns (Map_remove id (MemStorage.campaigns s))
       (MemStorage.set_campaignResults
          (sweep (of_campaign (VNum id)) (MemStorage.campaignResults s)
                 (MemStorage.campaignResults s)) s)).
Proof. reflexivity. Qed.

Lemma Map_get_set_is_Some (k k' : Z) (v : obj) (m : JsMap) :
  is_Some (Map_get k m) -> is_Some (Map_get k (Map_set k' v m)).
Proof.
  intros H. destruct (Z.eq_dec k' k) as [->|Hne].
  - rewrite Map_get_set_eq. eauto.
  - now rewrite Map_get_set_ne.
Qed.

(** No call of the interface takes an organization out of the store. *)
Lemma perform_keeps_organizations (c : StorageCall) (s : MemStorage.state)
    (id : Z) :
  is_Some (MemStorage.getOrganization id s) ->
  is_Some (MemStorage.getOrganization id (snd (MemCalls.perform c s))).
Proof.
  unfold MemStorage.getOrganization. intros H.
  destruct c; simpl; trivial;
    try (apply Map_get_set_is_Some; exact H);
    unfold MemStorage.updateUser, MemStorage.updateGroup,
      MemStorage.updateTarget, MemStorage.updateSmtpProfile,
      MemStorage.updateEmailTemplate, MemStorage.updateLandingPage,
      MemStorage.updateCampaign, MemStorage.updateCampaignResult;
    match goal with
    | |- context [match Map_get ?i ?m with _ => _ end] =>
        destruct (Map_get i m); simpl; exact H
    end.
Qed.

Lemma perform_all_keeps_organizations (cs : list StorageCall)
    (s : MemStorage.state) (id : Z) :
  is_Some (MemStorage.getOrganization id s) ->
  is_Some (MemStorage.getOrganization id (snd (MemCalls.perform_all cs s))).
Proof.
  revert s. induction cs as [|c cs IH]; intros s H; simpl; [exact H|].
  pose proof (perform_keeps_organizations c s id H) as Hc.
  destruct (MemCalls.perform c s) as [r s1]. simpl in Hc.
  specialize (IH s1 Hc).
  destruct (MemCalls.perform_all cs s1) as [rs s2]. exact IH.
Qed.

(** C7, as amended.  [deleteGroup] leaves no target of the group and not
    the group, [deleteCampaign] leaves no result of the campaign and not
    the campaign; in a map that holds each key once, the targets and the
    results of others stay as they were, in their order; the other groups
    and campaigns stay.  No call of the store deletes an organization:
    whatever is called, an organization that is in the store stays. *)
Theorem cascading_deletion (s : MemStorage.state) (id : Z) :
  (let s' := snd (MemStorage.deleteGroup id s) in
   (forall t, In t (Map_values (MemStorage.targets s')) ->
              in_group (VNum id) t = false)
   /\ MemStorage.listTargets id s' = []
   /\ MemStorage.getGroup id s' = None
   /\ (unique_keys (MemStorage.targets s) ->
       MemStorage.targets s'
       = List.filter (fun kv => negb (in_group (VNum id) (snd kv)))
                     (MemStorage.targets s))
   /\ (forall id', id' <> id ->
         MemStorage.getGroup id' s' = MemStorage.getGroup id' s))
  /\ (let s' := snd (MemStorage.deleteCampaign id s) in
      (forall r, In r (Map_values (MemStorage.campaignResults s')) ->
                 of_campaign (VNum id) r = false)
      /\ MemStorage.listCampaignResults id s' = []
      /\ MemStorage.getCampaign id s' = None
      /\ (unique_keys (MemStorage.campaignResults s) ->
          MemStorage.campaignResults s'
          = List.filter (fun kv => negb (of_campaign (VNum id) (snd kv)))
                        (MemStorage.campaignResults s))
      /\ (forall id', id' <> id ->
            MemStorage.getCampaign id' s' = MemStorage.getCampaign id' s))
  /\ (forall (c : StorageCall) (organizationId : Z),
        is_Some (MemStorage.getOrganization organizationId s) ->
        is_Some (MemStorage.getOrganization organizationId
                   (snd (MemCalls.perform c s)))).
Proof.
  split; [|split].
  - rewrite deleteGroup_eq. simpl. repeat split.
    + intros t. apply sweep_clears.
    + unfold MemStorage.listTargets. simpl.
      destruct (List.filter _ _) as [|t l] eqn:E; [reflexivity|].
      assert (Hin : In t (t :: l)) by now left.
      rewrite <- E in Hin. apply filter_In in Hin as [Hin Hp].
      apply sweep_clears in Hin. congruence.
    + apply Map_get_remove_eq.
    + apply sweep_own_entries.
    + intros id' Hne. apply Map_get_remove_ne. congruence.
  - rewrite deleteCampaign_eq. simpl. repeat split.
    + intros r. apply sweep_clears.
    + unfold MemStorage.listCampaignResults. simpl.
      destruct (List.filter _ _) as [|r l] eqn:E; [reflexivity|].
      assert (Hin : In r (r :: l)) by now left.
      rewrite <- E in Hin. apply filter_In in Hin as [Hin Hp].
      apply sweep_clears in Hin. congruence.
    + apply Map_get_remove_eq.
    + apply sweep_own_entries.
    + intros id' Hne. apply Map_get_remove_ne. congruence.
  - intros c organizationId. apply perform_keeps_organizations.
Qed.

(** C7, as stated, supposes a deletion of organizations.  The store has
    none: after any sequence of calls, the organization of [acme_store] is
    still there. *)
Lemma no_call_deletes_an_organization :
  is_Some (MemStorage.getOrganization 1 acme_store)
  /\ forall cs : list StorageCall,
       is_Some (MemStorage.getOrganization 1
                  (snd (MemCalls.perform_all cs acme_store))).
Proof.
  assert (H : is_Some (MemStorage.getOrganization 1 acme_store)).
  { eexists. reflexivity. }
  split; [exact H|].
  intros cs. now apply perform_all_keeps_organizations.
Qed.

Lemma cascading_deletion_witness :
  unique_keys (MemStorage.targets acme_store)
  /\ MemStorage.targets (snd (MemStorage.deleteGroup 2 acme_store)) = []
  /\ MemStorage.getGroup 2 (snd (MemStorage.deleteGroup 2 acme_store)) = None.
Proof.
  assert (Hu : unique_keys (MemStorage.targets acme_store)).
  { vm_compute. constructor; [intros []|constructor]. }
  destruct (cascading_deletion acme_store 2)
    as [(_ & _ & Hgone & Hrest & _) _].
  split; [exact Hu|]. split; [|exact Hgone].
  rewrite (Hrest Hu). reflexivity.
Defined.

(** ** [listGroups] *)

Lemma js_or_count (n : Z) : js_or (VNum n) (VNum 0) = VNum n.
Proof.
  unfold js_or. simpl. destruct (Z.eqb n 0) eqn:E; simpl; [|reflexivity].
  apply Z.eqb_eq in E. now subst.
Qed.

(** C8.  For a group [g] that the store holds for the organization,
    [listGroups] returns [g] with the added field [targetCount], the
    number of targets in the store, when it is called, whose [groupId] is
    the id of [g]; it returns nothing else; the same holds of the
    relational backing.  The group of [store_with_three_targets], which
    has three targets, is returned with [targetCount] 3, and the group as
    stored has no such field. *)
Theorem listGroups_targetCount (s : MemStorage.state) (organizationId : Z)
    (g : obj) :
  In g (Map_values (MemStorage.groups s)) ->
  js_get g "organizationId" = VNum organizationId ->
  In (<["targetCount" :=
          VNum (Z.of_nat (length (targets_of_group (js_get g "id") s)))]> g)
     (MemStorage.listGroups organizationId s)
  /\ (forall r, In r (MemStorage.listGroups organizationId s) ->
        exists g', In g' (Map_values (MemStorage.groups s))
          /\ js_get g' "organizationId" = VNum organizationId
          /\ r = <["targetCount" :=
                     VNum (Z.of_nat
                             (length (targets_of_group (js_get g' "id") s)))]> g')
  /\ In (<["targetCount" :=
             VNum (Z.of_nat
                     (length (DatabaseStorage.select_where "groupId"
                                (js_get g "id")
                                (DatabaseStorage.targets (tables_of s)))))]> g)
        (DatabaseStorage.listGroups organizationId (tables_of s))
  /\ MemStorage.listGroups 7 store_with_three_targets
     = [<["targetCount" := VNum 3]> staff_group]
  /\ length (targets_of_group (VNum 1) store_with_three_targets) = 3%nat
  /\ MemStorage.getGroup 1 store_with_three_targets = Some staff_group
  /\ staff_group !! "targetCount" = None.
Proof.
  intros Hin Horg. split; [|split; [|split]].
  - unfold MemStorage.listGroups.
    apply (in_map (fun group =>
             <["targetCount" :=
                 VNum (Z.of_nat (length (List.filter
                                           (in_group (js_get group "id"))
                                           (Map_values (MemStorage.targets s)))))]>
               group)).
    apply filter_In. split; [exact Hin|]. now apply in_organization_iff.
  - intros r Hr. unfold MemStorage.listGroups in Hr.
    apply in_map_iff in Hr as [g' [<- Hg']].
    apply filter_In in Hg' as [Hg' Ho]. exists g'.
    split; [exact Hg'|]. split; [now apply in_organization_iff|reflexivity].
  - unfold DatabaseStorage.listGroups.
    rewrite <- (js_or_count (Z.of_nat _)).
    apply (in_map (fun group =>
             <["targetCount" :=
                 js_or (VNum (Z.of_nat
                                (length (DatabaseStorage.select_where "groupId"
                                           (js_get group "id")
                                           (DatabaseStorage.targets
                                              (tables_of s))))))
                       (VNum 0)]> group)).
    apply filter_In. split; [exact Hin|].
    rewrite Horg. simpl. apply Z.eqb_refl.
  - repeat split; reflexivity.
Qed.

Lemma listGroups_targetCount_witness :
  In staff_group (Map_values (MemStorage.groups store_with_three_targets))
  /\ js_get staff_group "organizationId" = VNum 7
  /\ In (<["targetCount" := VNum 3]> staff_group)
        (MemStorage.listGroups 7 store_with_three_targets).
Proof.
  assert (Hin : In staff_group
                   (Map_values (MemStorage.groups store_with_three_targets))).
  { left. reflexivity. }
  split; [exact Hin|]. split; [reflexivity|].
  exact (proj1 (listGroups_targetCount store_with_three_targets 7 staff_group
                  Hin eq_refl)).
Defined.

(** ** Composing a campaign *)

Lemma check_access_valid (user : Routes.SessionUser) (fetched : option obj) :
  valid_reference user fetched ->
  exists e, Routes.check_access user fetched = Routes.Owned e.
Proof.
  intros (e & -> & He). exists e. unfold Routes.check_access.
  rewrite He. simpl. now rewrite Z.eqb_refl.
Qed.

Lemma check_access_invalid (user : Routes.SessionUser) (fetched : option obj) :
  invalid_reference user fetched ->
  Routes.check_access user fetched = Routes.Missing
  \/ Routes.check_access user fetched = Routes.Foreign.
Proof.
  intros [->|(e & -> & He)]; [now left|right].
  unfold Routes.check_access.
  destruct (strict_eq _ _) eqn:E; [|reflexivity].
  apply strict_eq_num in E. contradiction.
Qed.

Lemma valid_or_invalid (user : Routes.SessionUser) (fetched : option obj) :
  valid_reference user fetched \/ invalid_reference user fetched.
Proof.
  destruct fetched as [e|]; [|right; now left].
  destruct (decide (js_get e "organizationId"
                    = VNum (Routes.su_organizationId user))) as [E|E].
  - left. now exists e.
  - right. right. now exists e.
Qed.

Lemma not_both (user : Routes.SessionUser) (fetched : option obj) :
  valid_reference user fetched -> invalid_reference user fetched -> False.
Proof.
  intros (e & -> & He) [H|(e' & [= <-] & He')]; [discriminate|contradiction].
Qed.

(** A reference cannot be both. *)
Ltac clash :=
  match goal with
  | V : valid_reference ?u ?f, I : invalid_reference ?u ?f |- _ =>
      exfalso; exact (not_both u f V I)
  end.

(** A body that fails the schema is answered 400, the store untouched. *)
Lemma postCampaign_invalid_body (user : Routes.SessionUser) (body : obj)
    (now : Z) (s : MemStorage.state) (errors : list ZodIssue) :
  insertCampaignSchema_parse body = ZodError errors ->
  Routes.postCampaign user body now s
  = (Routes.respond 400 (Routes.ValidationFailure "Validation error" errors), s).
Proof. intros H. unfold Routes.postCampaign. now rewrite H. Qed.

(** Whatever the body, the store is written only by a request that is
    answered 201. *)
Lemma postCampaign_writes_only_on_201 (user : Routes.SessionUser) (body : obj)
    (now : Z) (s : MemStorage.state) :
  Routes.status (fst (Routes.postCampaign user body now s)) <> 201 ->
  snd (Routes.postCampaign user body now s) = s.
Proof.
  unfold Routes.postCampaign.
  destruct (insertCampaignSchema_parse body) as [data|errors]; [|reflexivity].
  repeat match goal with
         | |- context [match Routes.check_access ?u ?f with _ => _ end] =>
             destruct (Routes.check_access u f)
         end; try reflexivity.
  destruct (MemStorage.createCampaign _ _ data now s). simpl. congruence.
Qed.

Lemma postCampaign_valid_body (user : Routes.SessionUser) (body : obj)
    (now : Z) (s : MemStorage.state) (data : InsertCampaign) :
  insertCampaignSchema_parse body = Valid data ->
  Routes.postCampaign user body now s
  = match Routes.check_access user
            (MemStorage.getGroup (ic_targetGroupId data) s) with
    | Routes.Owned _ =>
      match Routes.check_access user
              (MemStorage.getSmtpProfile (ic_smtpProfileId data) s) with
      | Routes.Owned _ =>
        match Routes.check_access user
                (MemStorage.getEmailTemplate (ic_emailTemplateId data) s) with
        | Routes.Owned _ =>
          match Routes.check_access user
                  (MemStorage.getLandingPage (ic_landingPageId data) s) with
          | Routes.Owned _ =>
              (Routes.respond 201
                 (Routes.Json
                    (fst (MemStorage.createCampaign
                            (Routes.su_organizationId user)
                            (Routes.su_id user) data now s))),
               snd (MemStorage.createCampaign (Routes.su_organizationId user)
                      (Routes.su_id user) data now s))
          | _ => (Routes.respond 403
                    (Routes.Message "Access denied: Invalid landing page"), s)
          end
        | _ => (Routes.respond 403
                  (Routes.Message "Access denied: Invalid email template"), s)
        end
      | _ => (Routes.respond 403
                (Routes.Message "Access denied: Invalid SMTP profile"), s)
      end
    | _ => (Routes.respond 403
              (Routes.Message "Access denied: Invalid target group"), s)
    end.
Proof.
  intros Hparse. unfold Routes.postCampaign. rewrite Hparse.
  repeat match goal with
         | |- context [match Routes.check_access ?u ?f with _ => _ end] =>
             destruct (Routes.check_access u f)
         end; try reflexivity.
Qed.

(** C2, as amended.  A body that fails the schema is answered 400 with the
    validator's issues, whatever it refers to.  For a body that passes:
    if the target group is invalid, or it is valid and the SMTP profile
    is invalid, and so on through the email template and the landing
    page, the answer is 403 with the message that names that reference;
    so whenever any of the four is invalid the answer is 403; when all
    four are valid the campaign is created and the answer is 201.  For
    every request, the store is as it was unless the answer is 201, and
    it changes only if the body passes and all four references are
    valid: the four checks come before the write. *)
Theorem campaign_creation_all_or_nothing (user : Routes.SessionUser)
    (body : obj) (now : Z) (s : MemStorage.state) :
  let answer := Routes.postCampaign user body now s in
  match insertCampaignSchema_parse body with
  | ZodError errors =>
      answer
      = (Routes.respond 400
           (Routes.ValidationFailure "Validation error" errors), s)
  | Valid data =>
      let group := MemStorage.getGroup (ic_targetGroupId data) s in
      let smtpProfile := MemStorage.getSmtpProfile (ic_smtpProfileId data) s in
      let emailTemplate :=
        MemStorage.getEmailTemplate (ic_emailTemplateId data) s in
      let landingPage := MemStorage.getLandingPage (ic_landingPageId data) s in
      let created :=
        MemStorage.createCampaign (Routes.su_organizationId user)
          (Routes.su_id user) data now s in
      (invalid_reference user group ->
       answer = (Routes.respond 403
                   (Routes.Message "Access denied: Invalid target group"), s))
      /\ (valid_reference user group -> invalid_reference user smtpProfile ->
          answer = (Routes.respond 403
                      (Routes.Message "Access denied: Invalid SMTP profile"),
                    s))
      /\ (valid_reference user group -> valid_reference user smtpProfile ->
          invalid_reference user emailTemplate ->
          answer = (Routes.respond 403
                      (Routes.Message "Access denied: Invalid email template"),
                    s))
      /\ (valid_reference user group -> valid_reference user smtpProfile ->
          valid_reference user emailTemplate ->
          invalid_reference user landingPage ->
          answer = (Routes.respond 403
                      (Routes.Message "Access denied: Invalid landing page"),
                    s))
      /\ (invalid_reference user group \/ invalid_reference user smtpProfile
          \/ invalid_reference user emailTemplate
          \/ invalid_reference user landingPage ->
          Routes.status (fst answer) = 403 /\ snd answer = s)
      /\ (valid_reference user group -> valid_reference user smtpProfile ->
          valid_reference user emailTemplate ->
          valid_reference user landingPage ->
          answer = (Routes.respond 201 (Routes.Json (fst created)),
                    snd created))
      /\ (snd answer <> s ->
          valid_reference user group /\ valid_reference user smtpProfile
          /\ valid_reference user emailTemplate
          /\ valid_reference user landingPage)
  end
  /\ (Routes.status (fst answer) <> 201 -> snd answer = s)
  /\ (snd answer <> s ->
      exists data,
        insertCampaignSchema_parse body = Valid data
        /\ Routes.status (fst answer) = 201).
Proof.
  intros answer. subst answer.
  split; [|split].
  - destruct (insertCampaignSchema_parse body) as [data|errors] eqn:Hparse;
      [|now apply postCampaign_invalid_body].
    intros group smtpProfile emailTemplate landingPage created.
    rewrite (postCampaign_valid_body user body now s data Hparse).
    fold group smtpProfile emailTemplate landingPage created.
    destruct (valid_or_invalid user group) as [V1|I1].
    2:{ destruct (check_access_invalid _ _ I1) as [E|E]; rewrite E;
        repeat split; trivial; try (intros; clash);
        intros; simpl in *; congruence. }
    destruct (check_access_valid _ _ V1) as [e1 E1]. rewrite E1.
    destruct (valid_or_invalid user smtpProfile) as [V2|I2].
    2:{ destruct (check_access_invalid _ _ I2) as [E|E]; rewrite E;
        repeat split; trivial; try (intros; clash);
        intros; simpl in *; congruence. }
    destruct (check_access_valid _ _ V2) as [e2 E2]. rewrite E2.
    destruct (valid_or_invalid user emailTemplate) as [V3|I3].
    2:{ destruct (check_access_invalid _ _ I3) as [E|E]; rewrite E;
        repeat split; trivial; try (intros; clash);
        intros; simpl in *; congruence. }
    destruct (check_access_valid _ _ V3) as [e3 E3]. rewrite E3.
    destruct (valid_or_invalid user landingPage) as [V4|I4].
    2:{ destruct (check_access_invalid _ _ I4) as [E|E]; rewrite E;
        repeat split; trivial; try (intros; clash);
        intros; simpl in *; congruence. }
    destruct (check_access_valid _ _ V4) as [e4 E4]. rewrite E4.
    repeat split; trivial; try (intros; clash).
    + destruct H as [I|[I|[I|I]]]; clash.
    + destruct H as [I|[I|[I|I]]]; clash.
  - apply postCampaign_writes_only_on_201.
  - intros Hs.
    destruct (insertCampaignSchema_parse body) as [data|errors] eqn:Hparse.
    + exists data. split; [reflexivity|].
      destruct (Z.eq_dec
                  (Routes.status (fst (Routes.postCampaign user body now s)))
                  201) as [E|E]; [exact E|].
      now apply postCampaign_writes_only_on_201 in E.
    + rewrite (postCampaign_invalid_body user body now s errors Hparse) in Hs.
      now destruct Hs.
Qed.

Lemma campaign_creation_all_or_nothing_witness :
  insertCampaignSchema_parse campaign_body = Valid campaign_data
  /\ invalid_reference user_of_7 (MemStorage.getLandingPage 4 campaign_store)
  /\ Routes.postCampaign user_of_7 campaign_body 6 campaign_store
     = (Routes.respond 403
          (Routes.Message "Access denied: Invalid landing page"),
        campaign_store).
Proof.
  assert (Hparse : insertCampaignSchema_parse campaign_body = Valid campaign_data)
    by reflexivity.
  assert (V1 : valid_reference user_of_7 (MemStorage.getGroup 1 campaign_store)).
  { eexists. split; reflexivity. }
  assert (V2 : valid_reference user_of_7
                 (MemStorage.getSmtpProfile 2 campaign_store)).
  { eexists. split; reflexivity. }
  assert (V3 : valid_reference user_of_7
                 (MemStorage.getEmailTemplate 3 campaign_store)).
  { eexists. split; reflexivity. }
  assert (I4 : invalid_reference user_of_7
                 (MemStorage.getLandingPage 4 campaign_store)).
  { right. eexists. split; [reflexivity|]. vm_compute. discriminate. }
  split; [exact Hparse|]. split; [exact I4|].
  pose proof (campaign_creation_all_or_nothing user_of_7 campaign_body 6
                campaign_store) as [H _].
  cbv zeta in H. rewrite Hparse in H.
  destruct H as (_ & _ & _ & H & _).
  exact (H V1 V2 V3 I4).
Defined.

(** C2, as stated, fails for a request whose body does not pass the
    schema: a body without [name] that names the landing page of another
    organization is answered 400 with the issue on [name], not 403, and
    no reference is looked at. *)
Lemma invalid_body_with_a_foreign_reference :
  invalid_reference user_of_7
    (MemStorage.getLandingPage (the_number nameless_body "landingPageId")
       campaign_store)
  /\ Routes.postCampaign user_of_7 nameless_body 6 campaign_store
     = (Routes.respond 400
          (Routes.ValidationFailure "Validation error"
             [invalid_type "string" "name" VUndef]),
        campaign_store)
  /\ Routes.status
       (fst (Routes.postCampaign user_of_7 nameless_body 6 campaign_store))
     <> 403.
Proof.
  split; [|split].
  - right. eexists. split; [reflexivity|]. vm_compute. discriminate.
  - reflexivity.
  - discriminate.
Qed.

(** ** Importing targets *)

Lemma createTarget_stores (organizationId groupId : Z) (d : InsertTarget)
    (now : Z) (s : MemStorage.state) :
  MemStorage.targets
    (snd (MemStorage.createTarget organizationId groupId d now s))
  = Map_set (MemStorage.currentId s)
      (fst (MemStorage.createTarget organizationId groupId d now s))
      (MemStorage.targets s)
  /\ MemStorage.currentId
       (snd (MemStorage.createTarget organizationId groupId d now s))
     = MemStorage.currentId s + 1.
Proof. split; reflexivity. Qed.

(** The targets created for the accepted rows, for a fixed organization,
    group and clock. *)
Section CreateEach.

Variables (organizationId groupId : Z) (clock : nat -> Z).

Lemma create_each_cons (i : nat) (d : InsertTarget)
    (accepted : list (nat * InsertTarget)) (s : MemStorage.state) :
  create_each organizationId groupId clock ((i, d) :: accepted) s
  = (fst (MemStorage.createTarget organizationId groupId d (clock i) s)
     :: fst (create_each organizationId groupId clock accepted
               (snd (MemStorage.createTarget organizationId groupId d
                       (clock i) s))),
     snd (create_each organizationId groupId clock accepted
            (snd (MemStorage.createTarget organizationId groupId d
                    (clock i) s)))).
Proof.
  change (create_each organizationId groupId clock ((i, d) :: accepted) s)
    with (let '(t, s1) :=
            MemStorage.createTarget organizationId groupId d (clock i) s in
          let '(ts, s2) :=
            create_each organizationId groupId clock accepted s1 in
          (t :: ts, s2)).
  destruct (MemStorage.createTarget organizationId groupId d (clock i) s)
    as [t s1].
  cbn [fst snd].
  now destruct (create_each organizationId groupId clock accepted s1).
Qed.

Lemma create_each_counter (accepted : list (nat * InsertTarget)) (s : MemStorage.state) :
  MemStorage.currentId s
  <= MemStorage.currentId
       (snd (create_each organizationId groupId clock accepted s)).
Proof.
  revert s. induction accepted as [|[i d] accepted IH]; intros s.
  - simpl. lia.
  - rewrite create_each_cons. cbn [snd].
    pose proof (createTarget_stores organizationId groupId d (clock i) s)
      as [_ Hc].
    specialize (IH (snd (MemStorage.createTarget organizationId groupId d
                           (clock i) s))).
    lia.
Qed.

Lemma create_each_keeps (accepted : list (nat * InsertTarget)) (s : MemStorage.state) (k : Z) :
  k < MemStorage.currentId s ->
  Map_get k (MemStorage.targets
               (snd (create_each organizationId groupId clock accepted s)))
  = Map_get k (MemStorage.targets s).
Proof.
  revert s. induction accepted as [|[i d] accepted IH]; intros s Hk.
  - reflexivity.
  - rewrite create_each_cons. cbn [snd].
    pose proof (createTarget_stores organizationId groupId d (clock i) s)
      as [Ht Hc].
    rewrite IH by lia. rewrite Ht. apply Map_get_set_ne. lia.
Qed.

Lemma create_each_stored (accepted : list (nat * InsertTarget)) (s : MemStorage.state)
    (i : nat) (d : InsertTarget) :
  In (i, d) accepted ->
  exists s0,
    In (fst (MemStorage.createTarget organizationId groupId d (clock i) s0))
       (Map_values
          (MemStorage.targets
             (snd (create_each organizationId groupId clock accepted s)))).
Proof.
  revert s. induction accepted as [|[i' d'] accepted IH]; intros s Hin;
    [contradiction|].
  rewrite create_each_cons. cbn [snd].
  destruct Hin as [[= -> ->]|Hin]; [|now apply IH].
  exists s.
  pose proof (createTarget_stores organizationId groupId d (clock i) s)
    as [Ht Hc].
  pose proof (create_each_keeps accepted
                (snd (MemStorage.createTarget organizationId groupId d
                        (clock i) s))
                (MemStorage.currentId s) ltac:(lia)) as Hk.
  rewrite Ht, Map_get_set_eq in Hk.
  apply Map_get_In in Hk. unfold Map_values.
  apply (in_map snd) in Hk. exact Hk.
Qed.

End CreateEach.

Lemma importRow_eq (user : Routes.SessionUser) (groupId : Z) (clock : nat -> Z)
    (imported : list obj) (errors : list Routes.RowError)
    (s : MemStorage.state) (index : nat) (r : Routes.Row) :
  Routes.importRow user groupId clock (imported, errors, s) (index, r)
  = match verdict r with
    | Valid d =>
        ((imported
          ++ [fst (MemStorage.createTarget (Routes.su_organizationId user)
                     groupId d (clock index) s)])%list,
         errors,
         snd (MemStorage.createTarget (Routes.su_organizationId user)
                groupId d (clock index) s))
    | ZodError issues =>
        (imported,
         (errors ++ [{| Routes.row := index + 2;
                        Routes.error := Routes.Issues issues |}])%list,
         s)
    end.
Proof.
  unfold Routes.importRow, verdict.
  destruct (insertTargetSchema_parse (Routes.normalize r)) as [d|issues];
    [|reflexivity].
  now destruct (MemStorage.createTarget _ groupId d (clock index) s).
Qed.

(** The loop, row by row: the rows that pass are created in turn, the
    rows that fail leave an entry and nothing else. *)
Lemma importRows_from (user : Routes.SessionUser) (groupId : Z)
    (clock : nat -> Z) (rows : list Routes.Row) (index : nat)
    (imported : list obj) (errors : list Routes.RowError)
    (s : MemStorage.state) :
  fold_left (Routes.importRow user groupId clock)
            (Routes.entries_from index rows) (imported, errors, s)
  = ((imported
      ++ fst (create_each (Routes.su_organizationId user) groupId clock
                (accepted_from index rows) s))%list,
     (errors ++ rejected_from index rows)%list,
     snd (create_each (Routes.su_organizationId user) groupId clock
            (accepted_from index rows) s)).
Proof.
  revert index imported errors s.
  induction rows as [|r rows IH]; intros index imported errors s.
  - simpl. now rewrite !app_nil_r.
  - change (Routes.entries_from index (r :: rows))
      with ((index, r) :: Routes.entries_from (S index) rows).
    change (accepted_from index (r :: rows))
      with (match verdict r with
            | Valid d => (index, d) :: accepted_from (S index) rows
            | ZodError _ => accepted_from (S index) rows
            end).
    change (rejected_from index (r :: rows))
      with (match verdict r with
            | Valid _ => rejected_from (S index) rows
            | ZodError issues =>
                {| Routes.row := index + 2;
                   Routes.error := Routes.Issues issues |}
                :: rejected_from (S index) rows
            end).
    cbn [fold_left]. rewrite importRow_eq.
    destruct (verdict r) as [d|issues]; rewrite IH.
    + rewrite create_each_cons. cbn [fst snd].
      now rewrite <- app_assoc.
    + now rewrite <- app_assoc.
Qed.

Lemma importRows_eq (user : Routes.SessionUser) (groupId : Z)
    (clock : nat -> Z) (rows : list Routes.Row) (s : MemStorage.state) :
  Routes.importRows user groupId clock rows s
  = (fst (create_each (Routes.su_organizationId user) groupId clock
            (accepted_from 0 rows) s),
     rejected_from 0 rows,
     snd (create_each (Routes.su_organizationId user) groupId clock
            (accepted_from 0 rows) s)).
Proof. unfold Routes.importRows. now rewrite importRows_from. Qed.

Lemma create_each_length (organizationId groupId : Z) (clock : nat -> Z)
    (accepted : list (nat * InsertTarget)) (s : MemStorage.state) :
  length (fst (create_each organizationId groupId clock accepted s))
  = length accepted.
Proof.
  revert s. induction accepted as [|[i d] accepted IH]; intros s;
    [reflexivity|].
  rewrite create_each_cons. cbn [fst length]. now rewrite IH.
Qed.

Lemma accepted_length (index : nat) (rows : list Routes.Row) :
  length (accepted_from index rows) = length (List.filter passes rows).
Proof.
  revert index. induction rows as [|r rows IH]; intros index; simpl;
    [reflexivity|].
  unfold passes at 1. destruct (verdict r); simpl; now rewrite IH.
Qed.

Lemma rejected_length (index : nat) (rows : list Routes.Row) :
  length (rejected_from index rows)
  = length (List.filter (fun r => negb (passes r)) rows).
Proof.
  revert index. induction rows as [|r rows IH]; intros index; simpl;
    [reflexivity|].
  unfold passes at 1. destruct (verdict r); simpl; now rewrite IH.
Qed.

Lemma accepted_rejected_length (index : nat) (rows : list Routes.Row) :
  (length (accepted_from index rows) + length (rejected_from index rows)
   = length rows)%nat.
Proof.
  revert index. induction rows as [|r rows IH]; intros index; simpl;
    [reflexivity|].
  specialize (IH (S index)). destruct (verdict r); simpl; lia.
Qed.

Lemma accepted_from_In (index : nat) (rows : list Routes.Row) (i : nat)
    (r : Routes.Row) (d : InsertTarget) :
  nth_error rows i = Some r -> verdict r = Valid d ->
  In ((index + i)%nat, d) (accepted_from index rows).
Proof.
  revert index i. induction rows as [|r' rows IH]; intros index i Hn Hv.
  - now destruct i.
  - destruct i as [|i]; simpl in Hn.
    + injection Hn as ->. simpl. rewrite Hv, Nat.add_0_r. now left.
    + simpl. specialize (IH (S index) i Hn Hv).
      replace (index + S i)%nat with (S index + i)%nat by lia.
      destruct (verdict r'); [now right|exact IH].
Qed.

Lemma rejected_from_In (index : nat) (rows : list Routes.Row) (i : nat)
    (r : Routes.Row) (issues : list ZodIssue) :
  nth_error rows i = Some r -> verdict r = ZodError issues ->
  In {| Routes.row := index + i + 2; Routes.error := Routes.Issues issues |}
     (rejected_from index rows).
Proof.
  revert index i. induction rows as [|r' rows IH]; intros index i Hn Hv.
  - now destruct i.
  - destruct i as [|i]; simpl in Hn.
    + injection Hn as ->. simpl. rewrite Hv, Nat.add_0_r. now left.
    + simpl. specialize (IH (S index) i Hn Hv).
      replace (index + S i + 2)%nat with (S index + i + 2)%nat by lia.
      destruct (verdict r'); [exact IH|now right].
Qed.

Lemma rejected_from_inv (index : nat) (rows : list Routes.Row)
    (e : Routes.RowError) :
  In e (rejected_from index rows) ->
  exists i r issues,
    nth_error rows i = Some r /\ verdict r = ZodError issues
    /\ e = {| Routes.row := index + i + 2;
              Routes.error := Routes.Issues issues |}.
Proof.
  revert index. induction rows as [|r' rows IH]; intros index Hin;
    [contradiction|].
  simpl in Hin. destruct (verdict r') as [d|issues] eqn:Hv.
  - destruct (IH _ Hin) as (i & r & issues & Hn & Hr & ->).
    exists (S i), r, issues. repeat split; trivial.
    f_equal. lia.
  - destruct Hin as [<-|Hin].
    + exists 0%nat, r', issues. repeat split; trivial.
      f_equal. lia.
    + destruct (IH _ Hin) as (i & r & issues' & Hn & Hr & ->).
      exists (S i), r, issues'. repeat split; trivial.
      f_equal. lia.
Qed.

Lemma importTargets_parsed (Papa_parse : string -> Routes.ParseResult)
    (user : Routes.SessionUser) (groupId : Z) (csv : string)
    (clock : nat -> Z) (s : MemStorage.state) :
  valid_reference user (MemStorage.getGroup groupId s) ->
  Routes.errors (Papa_parse csv) = [] ->
  Routes.importTargets Papa_parse user groupId (Some csv) clock s
  = (Routes.respond 200
       (Routes.ImportReport
          (length (accepted_from 0 (Routes.data (Papa_parse csv))))
          (length (rejected_from 0 (Routes.data (Papa_parse csv))))
          (match rejected_from 0 (Routes.data (Papa_parse csv)) with
           | [] => None
           | report => Some report
           end)),
     snd (create_each (Routes.su_organizationId user) groupId clock
            (accepted_from 0 (Routes.data (Papa_parse csv))) s)).
Proof.
  intros Hv He. unfold Routes.importTargets.
  destruct (check_access_valid _ _ Hv) as [g ->].
  rewrite He. cbn [length Nat.ltb Nat.leb].
  rewrite importRows_eq, create_each_length.
  now destruct (rejected_from 0 (Routes.data (Papa_parse csv))).
Qed.

(** C3.  When the parser reports no error, the import answers 200 with
    [imported] the number of rows that pass validation and [failed] the
    number of rows that fail, which together are all the rows.  The error
    list has, for each row that fails and for nothing else, an entry with
    the row's index plus 2 and the validator's issues, and is left out
    when no row fails.  Each row that passes has its target in the store
    afterwards, whatever the other rows are: the store is the one that
    creating the passing rows alone leaves. *)
Theorem import_fault_isolation (Papa_parse : string -> Routes.ParseResult)
    (user : Routes.SessionUser) (groupId : Z) (csv : string)
    (clock : nat -> Z) (s : MemStorage.state) :
  valid_reference user (MemStorage.getGroup groupId s) ->
  Routes.errors (Papa_parse csv) = [] ->
  let rows := Routes.data (Papa_parse csv) in
  let answer := Routes.importTargets Papa_parse user groupId (Some csv) clock s in
  exists report : list Routes.RowError,
    fst answer
    = Routes.respond 200
        (Routes.ImportReport
           (length (List.filter passes rows)) (length report)
           (match report with [] => None | _ => Some report end))
    /\ length report = length (List.filter (fun r => negb (passes r)) rows)
    /\ (length (List.filter passes rows) + length report = length rows)%nat
    /\ (forall i r issues,
          nth_error rows i = Some r -> verdict r = ZodError issues ->
          In {| Routes.row := i + 2; Routes.error := Routes.Issues issues |}
             report)
    /\ (forall e, In e report ->
          exists i r issues,
            nth_error rows i = Some r /\ verdict r = ZodError issues
            /\ e = {| Routes.row := i + 2;
                      Routes.error := Routes.Issues issues |})
    /\ (forall i r d,
          nth_error rows i = Some r -> verdict r = Valid d ->
          exists s0,
            In (fst (MemStorage.createTarget (Routes.su_organizationId user)
                       groupId d (clock i) s0))
               (Map_values (MemStorage.targets (snd answer))))
    /\ snd answer
       = snd (create_each (Routes.su_organizationId user) groupId clock
                (accepted_from 0 rows) s).
Proof.
  intros Hv He rows answer. subst answer.
  rewrite (importTargets_parsed _ _ _ _ _ _ Hv He). fold rows. cbn [fst snd].
  exists (rejected_from 0 rows). repeat split.
  - rewrite accepted_length. now destruct (rejected_from 0 rows).
  - apply rejected_length.
  - rewrite <- accepted_length with (index := 0%nat).
    apply accepted_rejected_length.
  - intros i r issues Hn Hr.
    apply (rejected_from_In 0 rows i r issues Hn Hr).
  - intros e Hin. apply (rejected_from_inv 0 rows e Hin).
  - intros i r d Hn Hr.
    apply create_each_stored.
    apply (accepted_from_In 0 rows i r d Hn Hr).
Qed.

Lemma import_fault_isolation_witness :
  valid_reference user_of_7 (MemStorage.getGroup 1 store_with_group)
  /\ Routes.errors (parser_of_the_examples two_column_csv) = []
  /\ exists report : list Routes.RowError,
       fst (Routes.importTargets parser_of_the_examples user_of_7 1
              (Some two_column_csv) (fun _ => 6) store_with_group)
       = Routes.respond 200
           (Routes.ImportReport 0 (length report)
              (match report with [] => None | _ => Some report end))
       /\ length report = 2%nat
       /\ In {| Routes.row := 3;
                Routes.error := Routes.Issues [lastName_required] |} report.
Proof.
  assert (Hv : valid_reference user_of_7
                 (MemStorage.getGroup 1 store_with_group)).
  { eexists. split; reflexivity. }
  split; [exact Hv|]. split; [reflexivity|].
  destruct (import_fault_isolation parser_of_the_examples user_of_7 1
              two_column_csv (fun _ => 6) store_with_group Hv eq_refl)
    as (report & Hanswer & Hfailed & _ & Hrows & _).
  exists report. split; [exact Hanswer|]. split; [exact Hfailed|].
  exact (Hrows 1%nat second_row [lastName_required] eq_refl eq_refl).
Defined.

(** C4.  When the parser reports an error, the request changes nothing in
    the store, so no target is created; and for a group of the caller's
    organization the answer is 400 with the parser's errors. *)
Theorem malformed_csv_imports_nothing
    (Papa_parse : string -> Routes.ParseResult)
    (user : Routes.SessionUser) (groupId : Z) (csv : string)
    (clock : nat -> Z) (s : MemStorage.state) :
  Routes.errors (Papa_parse csv) <> [] ->
  let answer := Routes.importTargets Papa_parse user groupId (Some csv) clock s in
  snd answer = s
  /\ MemStorage.targets (snd answer) = MemStorage.targets s
  /\ Routes.status (fst answer) <> 200
  /\ (valid_reference user (MemStorage.getGroup groupId s) ->
      fst answer
      = Routes.respond 400
          (Routes.ParsingFailure "CSV parsing error"
             (Routes.errors (Papa_parse csv)))).
Proof.
  intros He answer. subst answer. unfold Routes.importTargets.
  assert (Hlt : Nat.ltb 0 (length (Routes.errors (Papa_parse csv))) = true).
  { destruct (Routes.errors (Papa_parse csv)); [contradiction|reflexivity]. }
  destruct (valid_or_invalid user (MemStorage.getGroup groupId s)) as [V|I].
  - destruct (check_access_valid _ _ V) as [g ->]. rewrite Hlt.
    repeat split; trivial. discriminate.
  - destruct (check_access_invalid _ _ I) as [-> | ->];
      repeat split; trivial; try discriminate; intros; clash.
Qed.

Lemma malformed_csv_imports_nothing_witness :
  Routes.errors (failing_parser "csv") <> []
  /\ valid_reference user_of_7 (MemStorage.getGroup 1 store_with_group)
  /\ Routes.importTargets failing_parser user_of_7 1 (Some "csv")
       (fun _ => 6) store_with_group
     = (Routes.respond 400
          (Routes.ParsingFailure "CSV parsing error" [missing_quote]),
        store_with_group).
Proof.
  assert (He : Routes.errors (failing_parser "csv") <> []) by discriminate.
  assert (Hv : valid_reference user_of_7
                 (MemStorage.getGroup 1 store_with_group)).
  { eexists. split; reflexivity. }
  split; [exact He|]. split; [exact Hv|].
  destruct (malformed_csv_imports_nothing failing_parser user_of_7 1 "csv"
              (fun _ => 6) store_with_group He)
    as (Hs & _ & _ & Ha).
  apply injective_projections; [exact (Ha Hv)|exact Hs].
Defined.

(** C5, as amended.  For the text of the example the parser reports that
    the second data row has too few fields, so the import answers 400
    with that error and the store is as it was: nothing is imported.
    Had the rows reached the loop, it would have created the first row's
    target and reported row 3 (the second data row) with one issue, that
    [lastName] is required; the empty [email] raises no issue.  With the
    second row written in full, the import answers [imported] 2 and
    [failed] 0. *)
Theorem import_of_the_two_rows (Papa_parse : string -> Routes.ParseResult)
    (user : Routes.SessionUser) (groupId : Z) (clock : nat -> Z)
    (s : MemStorage.state) :
  valid_reference user (MemStorage.getGroup groupId s) ->
  Papa_parse two_row_csv = parsed_two_row_csv ->
  Papa_parse completed_csv = parsed_completed_csv ->
  Routes.importTargets Papa_parse user groupId (Some two_row_csv) clock s
  = (Routes.respond 400
       (Routes.ParsingFailure "CSV parsing error" [too_few_fields]), s)
  /\ (let '(importedTargets, errors, s') :=
        Routes.importRows user groupId clock [first_row; second_row] s in
      importedTargets
      = [fst (MemStorage.createTarget (Routes.su_organizationId user) groupId
                {| it_firstName := "A"; it_lastName := "X";
                   it_email := "a@x.com"; it_position := None |}
                (clock 0%nat) s)]
      /\ errors = [{| Routes.row := 3;
                      Routes.error := Routes.Issues [lastName_required] |}])
  /\ verdict second_row = ZodError [lastName_required]
  /\ required_string (Routes.normalize second_row) "email" = []
  /\ fst (Routes.importTargets Papa_parse user groupId (Some completed_csv)
            clock s)
     = Routes.respond 200 (Routes.ImportReport 2 0 None).
Proof.
  intros Hv Hshort Hfull. split; [|split; [|split; [|split]]].
  - unfold Routes.importTargets.
    destruct (check_access_valid _ _ Hv) as [g ->].
    now rewrite Hshort.
  - rewrite importRows_eq. split; reflexivity.
  - reflexivity.
  - reflexivity.
  - rewrite (importTargets_parsed Papa_parse user groupId completed_csv clock s
               Hv) by now rewrite Hfull.
    now rewrite Hfull.
Qed.

Lemma import_of_the_two_rows_witness :
  valid_reference user_of_7 (MemStorage.getGroup 1 store_with_group)
  /\ parser_of_the_examples two_row_csv = parsed_two_row_csv
  /\ parser_of_the_examples completed_csv = parsed_completed_csv
  /\ Routes.importTargets parser_of_the_examples user_of_7 1
       (Some two_row_csv) (fun _ => 6) store_with_group
     = (Routes.respond 400
          (Routes.ParsingFailure "CSV parsing error" [too_few_fields]),
        store_with_group).
Proof.
  assert (Hv : valid_reference user_of_7
                 (MemStorage.getGroup 1 store_with_group)).
  { eexists. split; reflexivity. }
  split; [exact Hv|]. split; [reflexivity|]. split; [reflexivity|].
  exact (proj1 (import_of_the_two_rows parser_of_the_examples user_of_7 1
                  (fun _ => 6) store_with_group Hv eq_refl eq_refl)).
Defined.

(** C5, as stated, fails: the import of the two rows is answered 400, not
    with [imported] 1 and [failed] 1, and no target is created; and the
    issues of the second row, which the answer does not show, are one on
    [lastName] and none on [email]. *)
Lemma the_two_row_csv_is_refused :
  let answer :=
    Routes.importTargets parser_of_the_examples user_of_7 1 (Some two_row_csv)
      (fun _ => 6) store_with_group in
  Routes.status (fst answer) = 400
  /\ fst answer
     <> Routes.respond 200
          (Routes.ImportReport 1 1
             (Some [{| Routes.row := 3;
                       Routes.error := Routes.Issues [lastName_required] |}]))
  /\ MemStorage.listTargets 1 (snd answer) = []
  /\ verdict second_row = ZodError [lastName_required]
  /\ forall issue, In issue [lastName_required] -> ~ In "email" (path issue).
Proof.
  repeat split; try discriminate.
  intros issue [<-|[]] [H|[]]. discriminate H.
Qed.

(** ** The two backings compared *)

Lemma sql_eq_num (v : value) (n : Z) :
  DatabaseStorage.sql_eq v (VNum n) = strict_eq v (VNum n).
Proof. now destruct v. Qed.

(** Where the backings agree: with the same rows in both, the lists by
    organization, by group and by campaign are the same lists. *)
Lemma lists_agree (s : MemStorage.state) (n : Z) :
  DatabaseStorage.listUsers n (tables_of s) = MemStorage.listUsers n s
  /\ DatabaseStorage.listTargets n (tables_of s) = MemStorage.listTargets n s
  /\ DatabaseStorage.listSmtpProfiles n (tables_of s)
     = MemStorage.listSmtpProfiles n s
  /\ DatabaseStorage.listEmailTemplates n (tables_of s)
     = MemStorage.listEmailTemplates n s
  /\ DatabaseStorage.listLandingPages n (tables_of s)
     = MemStorage.listLandingPages n s
  /\ DatabaseStorage.listCampaigns n (tables_of s)
     = MemStorage.listCampaigns n s
  /\ DatabaseStorage.listCampaignResults n (tables_of s)
     = MemStorage.listCampaignResults n s.
Proof.
  assert (Hsel : forall column l,
    DatabaseStorage.select_where column (VNum n) l
    = List.filter (fun row => strict_eq (js_get row column) (VNum n)) l).
  { intros column l. apply filter_ext. intros row. apply sql_eq_num. }
  repeat split; apply Hsel.
Qed.

(** C6.  The two backings do not answer alike.  On a new store, each
    [delete*] of the in-memory backing returns [false] for an id that is
    not there, and each of the relational backing returns [true].  With
    the same rows in both, a user registered as [Alice@Acme.test] is found
    under [alice@acme.test] by the in-memory backing and not by the
    relational one, and so for an organization looked up by name.
    Deleting a group that a campaign uses returns [true] in memory and is
    rejected by the relational backing. *)
Theorem backings_disagree :
  (fst (MemStorage.deleteUser 1 MemStorage.new) = false
   /\ fst (DatabaseStorage.deleteUser 1 (tables_of MemStorage.new))
      = DatabaseStorage.Resolved true)
  /\ (fst (MemStorage.deleteGroup 1 MemStorage.new) = false
      /\ fst (DatabaseStorage.deleteGroup 1 (tables_of MemStorage.new))
         = DatabaseStorage.Resolved true)
  /\ (fst (MemStorage.deleteTarget 1 MemStorage.new) = false
      /\ fst (DatabaseStorage.deleteTarget 1 (tables_of MemStorage.new))
         = DatabaseStorage.Resolved true)
  /\ (fst (MemStorage.deleteSmtpProfile 1 MemStorage.new) = false
      /\ fst (DatabaseStorage.deleteSmtpProfile 1 (tables_of MemStorage.new))
         = DatabaseStorage.Resolved true)
  /\ (fst (MemStorage.deleteEmailTemplate 1 MemStorage.new) = false
      /\ fst (DatabaseStorage.deleteEmailTemplate 1 (tables_of MemStorage.new))
         = DatabaseStorage.Resolved true)
  /\ (fst (MemStorage.deleteLandingPage 1 MemStorage.new) = false
      /\ fst (DatabaseStorage.deleteLandingPage 1 (tables_of MemStorage.new))
         = DatabaseStorage.Resolved true)
  /\ (fst (MemStorage.deleteCampaign 1 MemStorage.new) = false
      /\ fst (DatabaseStorage.deleteCampaign 1 (tables_of MemStorage.new))
         = DatabaseStorage.Resolved true)
  /\ (MemStorage.getUserByEmail "alice@acme.test" user_store
      = MemStorage.getUser 4 user_store
      /\ is_Some (MemStorage.getUser 4 user_store)
      /\ DatabaseStorage.getUserByEmail "alice@acme.test" (tables_of user_store)
         = None)
  /\ (MemStorage.getOrganizationByName "ACME" user_store
      = MemStorage.getOrganization 1 user_store
      /\ is_Some (MemStorage.getOrganization 1 user_store)
      /\ DatabaseStorage.getOrganizationByName "ACME" (tables_of user_store)
         = None)
  /\ (fst (MemStorage.deleteGroup 1 running_store) = true
      /\ DatabaseStorage.deleteGroup 1 (tables_of running_store)
         = (DatabaseStorage.Rejected, tables_of running_store)).
Proof.
  repeat split; try reflexivity; eexists; reflexivity.
Qed.

(** ** The stores that can arise *)

Lemma Map_keys_set (k k' : Z) (v : obj) (m : JsMap) :
  In k' (Map_keys (Map_set k v m)) <-> k' = k \/ In k' (Map_keys m).
Proof.
  unfold Map_keys. induction m as [|[k0 v0] m IH]; simpl.
  - intuition.
  - destruct (Z.eqb k k0) eqn:E; simpl.
    + apply Z.eqb_eq in E. subst k0. intuition.
    + rewrite IH. intuition.
Qed.

Lemma unique_keys_set (k : Z) (v : obj) (m : JsMap) :
  unique_keys m -> unique_keys (Map_set k v m).
Proof.
  unfold unique_keys. induction m as [|[k0 v0] m IH]; simpl; intros Hu.
  - constructor; [intros []|constructor].
  - apply NoDup_cons_iff in Hu as [Hnotin Hu].
    destruct (Z.eqb k k0) eqn:E; simpl.
    + apply Z.eqb_eq in E. subst k0. now constructor.
    + apply Z.eqb_neq in E. constructor; [|now apply IH].
      intros Hin. apply Map_keys_set in Hin as [->|Hin]; [congruence|].
      contradiction.
Qed.

Lemma unique_keys_filter (f : Z * obj -> bool) (m : JsMap) :
  unique_keys m -> unique_keys (List.filter f m).
Proof.
  unfold unique_keys, Map_keys. induction m as [|kv m IH]; simpl; intros Hu;
    [exact Hu|].
  apply NoDup_cons_iff in Hu as [Hnotin Hu].
  destruct (f kv); simpl; [|now apply IH].
  constructor; [|now apply IH].
  intros Hin. apply Hnotin. apply in_map_iff in Hin as [kv' [E Hin]].
  apply filter_In in Hin as [Hin _]. rewrite <- E. now apply in_map.
Qed.

Lemma Map_keys_filter (f : Z * obj -> bool) (m : JsMap) (k : Z) :
  In k (Map_keys (List.filter f m)) -> In k (Map_keys m).
Proof.
  unfold Map_keys. intros Hin. apply in_map_iff in Hin as [kv [E Hin]].
  apply filter_In in Hin as [Hin _]. rewrite <- E. now apply in_map.
Qed.

Lemma issued_later (next next' : Z) (m : JsMap) :
  next <= next' -> issued next m -> issued next' m.
Proof.
  intros Hle [Hu Hk]. split; [exact Hu|].
  intros k Hin. specialize (Hk k Hin). lia.
Qed.

Lemma issued_set_new (next : Z) (v : obj) (m : JsMap) :
  issued next m -> issued (next + 1) (Map_set next v m).
Proof.
  intros [Hu Hk]. split; [now apply unique_keys_set|].
  intros k Hin. apply Map_keys_set in Hin as [->|Hin]; [lia|].
  specialize (Hk k Hin). lia.
Qed.

Lemma issued_set_old (next k : Z) (v old : obj) (m : JsMap) :
  Map_get k m = Some old -> issued next m -> issued next (Map_set k v m).
Proof.
  intros Hget [Hu Hk]. split; [now apply unique_keys_set|].
  intros k' Hin. apply Map_keys_set in Hin as [->|Hin]; [|now apply Hk].
  apply Hk. apply Map_get_In in Hget. unfold Map_keys.
  apply (in_map fst) in Hget. exact Hget.
Qed.

Lemma issued_remove (next k : Z) (m : JsMap) :
  issued next m -> issued next (Map_remove k m).
Proof.
  intros [Hu Hk]. split; [now apply unique_keys_filter|].
  intros k' Hin. apply Hk. now apply Map_keys_filter in Hin.
Qed.

Lemma issued_sweep (next : Z) (p : obj -> bool) (entries m : JsMap) :
  issued next m -> issued next (sweep p entries m).
Proof.
  intros [Hu Hk]. rewrite sweep_filter.
  split; [now apply unique_keys_filter|].
  intros k' Hin. apply Hk. now apply Map_keys_filter in Hin.
Qed.

Lemma well_formed_new : well_formed MemStorage.new.
Proof.
  unfold well_formed. simpl.
  repeat constructor; intros k [].
Qed.

Lemma well_formed_iff (s : MemStorage.state) :
  well_formed s
  <-> issued (MemStorage.currentId s) (MemStorage.users s)
      /\ issued (MemStorage.currentId s) (MemStorage.organizations s)
      /\ issued (MemStorage.currentId s) (MemStorage.groups s)
      /\ issued (MemStorage.currentId s) (MemStorage.targets s)
      /\ issued (MemStorage.currentId s) (MemStorage.smtpProfiles s)
      /\ issued (MemStorage.currentId s) (MemStorage.emailTemplates s)
      /\ issued (MemStorage.currentId s) (MemStorage.landingPages s)
      /\ issued (MemStorage.currentId s) (MemStorage.campaigns s)
      /\ issued (MemStorage.currentId s) (MemStorage.campaignResults s).
Proof.
  unfold well_formed, maps. rewrite !Forall_cons_iff.
  pose proof (Forall_nil (issued (MemStorage.currentId s))). tauto.
Qed.

Ltac keep_issued :=
  first
    [ assumption
    | apply issued_set_new; assumption
    | apply issued_remove; assumption
    | apply issued_sweep; assumption
    | eapply issued_set_old; [eassumption | assumption]
    | eapply issued_later; [| eassumption]; lia ].

(** Every call keeps the store well formed. *)
Lemma perform_well_formed (c : StorageCall) (s : MemStorage.state) :
  well_formed s -> well_formed (snd (MemCalls.perform c s)).
Proof.
  intros H. apply well_formed_iff in H.
  destruct H as (Hu & Ho & Hg & Ht & Hp & He & Hl & Hc & Hr).
  apply well_formed_iff.
  destruct c; cbn [MemCalls.perform MemCalls.pure MemCalls.entity
                   MemCalls.maybe MemCalls.flag snd];
    unfold MemStorage.createUser, MemStorage.createOrganization,
      MemStorage.createGroup, MemStorage.createTarget,
      MemStorage.createSmtpProfile, MemStorage.createEmailTemplate,
      MemStorage.createLandingPage, MemStorage.createCampaign,
      MemStorage.createCampaignResult,
      MemStorage.updateUser, MemStorage.updateGroup,
      MemStorage.updateTarget, MemStorage.updateSmtpProfile,
      MemStorage.updateEmailTemplate, MemStorage.updateLandingPage,
      MemStorage.updateCampaign, MemStorage.updateCampaignResult,
      MemStorage.deleteUser, MemStorage.deleteGroup, MemStorage.deleteTarget,
      MemStorage.deleteSmtpProfile, MemStorage.deleteEmailTemplate,
      MemStorage.deleteLandingPage, MemStorage.deleteCampaign,
      MemStorage.nextId, Map_delete;
    try match goal with
        | |- context [match Map_get ?i ?m with _ => _ end] =>
            destruct (Map_get i m) eqn:?
        end;
    cbn [snd fst MemStorage.users MemStorage.organizations MemStorage.groups
         MemStorage.targets MemStorage.smtpProfiles MemStorage.emailTemplates
         MemStorage.landingPages MemStorage.campaigns
         MemStorage.campaignResults MemStorage.currentId
         MemStorage.set_users MemStorage.set_organizations
         MemStorage.set_groups MemStorage.set_targets
         MemStorage.set_smtpProfiles MemStorage.set_emailTemplates
         MemStorage.set_landingPages MemStorage.set_campaigns
         MemStorage.set_campaignResults];
    repeat match goal with |- _ /\ _ => split end; keep_issued.
Qed.

Lemma perform_all_well_formed (cs : list StorageCall) (s : MemStorage.state) :
  well_formed s -> well_formed (snd (MemCalls.perform_all cs s)).
Proof.
  revert s. induction cs as [|c cs IH]; intros s H; simpl; [exact H|].
  pose proof (perform_well_formed c s H) as Hc.
  destruct (MemCalls.perform c s) as [r s1]. simpl in Hc.
  specialize (IH s1 Hc).
  destruct (MemCalls.perform_all cs s1) as [rs s2]. exact IH.
Qed.

Lemma reachable_well_formed (s : MemStorage.state) :
  reachable s -> well_formed s.
Proof.
  intros [cs ->]. apply perform_all_well_formed, well_formed_new.
Qed.

Lemma well_formed_table (k : entity_kind) (s : MemStorage.state) :
  well_formed s -> issued (MemStorage.currentId s) (table k s).
Proof.
  intros H. apply well_formed_iff in H.
  destruct H as (Hu & Ho & Hg & Ht & Hp & He & Hl & Hc & Hr).
  now destruct k.
Qed.

(** What each call does to each map. *)
Lemma perform_changes (c : StorageCall) (s : MemStorage.state)
    (k : entity_kind) :
  change c (MemStorage.currentId s) (table k s)
         (table k (snd (MemCalls.perform c s))).
Proof.
  destruct c;
    cbn [MemCalls.perform MemCalls.pure MemCalls.entity
         MemCalls.maybe MemCalls.flag snd];
    unfold MemStorage.updateUser, MemStorage.updateGroup,
      MemStorage.updateTarget, MemStorage.updateSmtpProfile,
      MemStorage.updateEmailTemplate, MemStorage.updateLandingPage,
      MemStorage.updateCampaign, MemStorage.updateCampaignResult;
    try match goal with
        | |- context [match Map_get ?i ?m with _ => _ end] =>
            destruct (Map_get i m) eqn:?
        end;
    destruct k;
    first
      [ apply unchanged
      | apply added
      | apply removed
      | apply cascaded
      | eapply updated; [eassumption | intros H; exact H] ].
Qed.

Lemma perform_counter (c : StorageCall) (s : MemStorage.state) :
  MemStorage.currentId s <= MemStorage.currentId (snd (MemCalls.perform c s)).
Proof.
  destruct c;
    cbn [MemCalls.perform MemCalls.pure MemCalls.entity
         MemCalls.maybe MemCalls.flag snd];
    unfold MemStorage.updateUser, MemStorage.updateGroup,
      MemStorage.updateTarget, MemStorage.updateSmtpProfile,
      MemStorage.updateEmailTemplate, MemStorage.updateLandingPage,
      MemStorage.updateCampaign, MemStorage.updateCampaignResult;
    try match goal with
        | |- context [match Map_get ?i ?m with _ => _ end] =>
            destruct (Map_get i m) eqn:?
        end;
    simpl; lia.
Qed.

Lemma Map_get_None (k : Z) (m : JsMap) :
  Map_get k m = None <-> ~ In k (Map_keys m).
Proof.
  unfold Map_keys. induction m as [|[k0 v0] m IH]; simpl; [tauto|].
  destruct (Z.eqb k k0) eqn:E.
  - apply Z.eqb_eq in E. subst k0. split; [discriminate|]. tauto.
  - apply Z.eqb_neq in E. rewrite IH. intuition congruence.
Qed.

Lemma Map_get_filter_None (f : Z * obj -> bool) (k : Z) (m : JsMap) :
  Map_get k m = None -> Map_get k (List.filter f m) = None.
Proof.
  rewrite !Map_get_None. intros H Hin. apply H.
  now apply Map_keys_filter in Hin.
Qed.

Lemma Map_get_filter_Some (f : Z * obj -> bool) (k : Z) (m : JsMap) (v : obj) :
  unique_keys m -> Map_get k (List.filter f m) = Some v -> Map_get k m = Some v.
Proof.
  intros Hu H. apply Map_get_In in H. apply filter_In in H as [H _].
  now apply In_Map_get.
Qed.

Lemma Map_get_issued (next k : Z) (m : JsMap) (v : obj) :
  issued next m -> Map_get k m = Some v -> k < next.
Proof.
  intros [_ Hk] H. apply Hk. apply Map_get_In in H.
  apply (in_map fst) in H. exact H.
Qed.

(** A change leaves the organization of the entity under a key as it
    was, when the call keeps organizations. *)
Lemma change_keeps_organization (c : StorageCall) (next : Z) (m m' : JsMap)
    (id : Z) (e e' : obj) :
  change c next m m' -> issued next m -> keeps_organization c ->
  Map_get id m = Some e -> Map_get id m' = Some e' ->
  js_get e' "organizationId" = js_get e "organizationId".
Proof.
  intros Hch Hi Hkeep He He'. destruct Hch as [|v|id0 old data now Hold Hd|id0|p].
  - congruence.
  - pose proof (Map_get_issued next id m e Hi He) as Hlt.
    rewrite Map_get_set_ne in He' by lia. congruence.
  - destruct (Z.eq_dec id0 id) as [->|Hne].
    + rewrite Map_get_set_eq in He'. injection He' as <-.
      unfold js_get. rewrite merged_field by discriminate.
      rewrite (Hd Hkeep). congruence.
    + rewrite Map_get_set_ne in He' by exact Hne. congruence.
  - destruct (Z.eq_dec id0 id) as [->|Hne].
    + now rewrite Map_get_remove_eq in He'.
    + rewrite Map_get_remove_ne in He' by exact Hne. congruence.
  - rewrite sweep_filter in He'.
    apply Map_get_filter_Some in He'; [congruence|apply Hi].
Qed.

(** A key that is free, and below the counter, stays free. *)
Lemma change_keeps_free (c : StorageCall) (next : Z) (m m' : JsMap) (id : Z) :
  change c next m m' -> id < next ->
  Map_get id m = None -> Map_get id m' = None.
Proof.
  intros Hch Hlt Hnone. destruct Hch as [|v|id0 old data now Hold Hd|id0|p].
  - exact Hnone.
  - rewrite Map_get_set_ne by lia. exact Hnone.
  - rewrite Map_get_set_ne; [exact Hnone|]. intros ->. congruence.
  - now apply Map_get_filter_None.
  - rewrite sweep_filter. now apply Map_get_filter_None.
Qed.

(** Over any sequence of calls that keep organizations, the entity under
    an id keeps its organization as long as it is there, and an id that
    has been deleted, or not yet issued below the counter, stays free. *)
Lemma organization_is_stable (cs : list StorageCall) (s : MemStorage.state)
    (k : entity_kind) (id : Z) :
  well_formed s -> id < MemStorage.currentId s ->
  Forall keeps_organization cs ->
  match Map_get id (table k s) with
  | Some e =>
      forall e',
        Map_get id (table k (snd (MemCalls.perform_all cs s))) = Some e' ->
        js_get e' "organizationId" = js_get e "organizationId"
  | None => Map_get id (table k (snd (MemCalls.perform_all cs s))) = None
  end.
Proof.
  revert s. induction cs as [|c cs IH]; intros s Hwf Hlt Hkeep.
  - simpl. destruct (Map_get id (table k s)); [intros e' [= ->]|]; reflexivity.
  - apply Forall_cons_iff in Hkeep as [Hc Hkeep].
    pose proof (perform_well_formed c s Hwf) as Hwf1.
    pose proof (perform_counter c s) as Hcount.
    pose proof (perform_changes c s k) as Hch.
    pose proof (well_formed_table k s Hwf) as Hi.
    simpl. destruct (MemCalls.perform c s) as [r s1]. simpl in *.
    specialize (IH s1 Hwf1 ltac:(lia) Hkeep).
    destruct (MemCalls.perform_all cs s1) as [rs s2]. simpl in *.
    destruct (Map_get id (table k s)) as [e|] eqn:He.
    + intros e' He'.
      destruct (Map_get id (table k s1)) as [e1|] eqn:He1.
      * rewrite (IH e' He').
        now apply (change_keeps_organization c _ _ _ id e e1 Hch Hi Hc).
      * congruence.
    + now rewrite (change_keeps_free c _ _ _ id Hch Hlt He) in IH.
Qed.

(** ** Reads are scoped by organization *)

Lemma filter_scoped (organizationId : Z) (l : list obj) (r : obj) :
  In r (List.filter (in_organization organizationId) l) ->
  js_get r "organizationId" = VNum organizationId.
Proof. intros H. apply filter_In in H as [_ H]. now apply in_organization_iff. Qed.

Lemma listGroups_scoped (organizationId : Z) (s : MemStorage.state) (r : obj) :
  In r (MemStorage.listGroups organizationId s) ->
  js_get r "organizationId" = VNum organizationId.
Proof.
  unfold MemStorage.listGroups. intros H.
  apply in_map_iff in H as [g [<- Hg]].
  rewrite js_get_insert_ne by discriminate. now apply filter_scoped in Hg.
Qed.

Lemma check_access_owned (user : Routes.SessionUser) (fetched : option obj)
    (e : obj) :
  Routes.check_access user fetched = Routes.Owned e ->
  fetched = Some e
  /\ js_get e "organizationId" = VNum (Routes.su_organizationId user).
Proof.
  unfold Routes.check_access. destruct fetched as [x|]; [|discriminate].
  destruct (strict_eq _ _) eqn:E; simpl; [|discriminate].
  intros [= ->]. split; [reflexivity|]. now apply strict_eq_num.
Qed.

Lemma check_access_foreign (user : Routes.SessionUser) (e : obj) (o : Z) :
  js_get e "organizationId" = VNum o -> o <> Routes.su_organizationId user ->
  Routes.check_access user (Some e) = Routes.Foreign.
Proof.
  intros He Hne. unfold Routes.check_access.
  destruct (strict_eq _ _) eqn:E; [|reflexivity].
  apply strict_eq_num in E. congruence.
Qed.

Lemma In_maps_table (k : entity_kind) (s : MemStorage.state) :
  In (table k s) (maps s).
Proof. destruct k; simpl; tauto. Qed.

Lemma perform_create (c : StorageCall) (k : entity_kind) (s : MemStorage.state) :
  creates c = Some k ->
  exists e : obj,
    MemCalls.perform c s
    = (Entity e,
       snd (MemCalls.perform c s))
    /\ js_get e "id" = VNum (MemStorage.currentId s)
    /\ table k (snd (MemCalls.perform c s))
       = Map_set (MemStorage.currentId s) e (table k s)
    /\ (forall k', k' <> k -> table k' (snd (MemCalls.perform c s)) = table k' s)
    /\ MemStorage.organizations (snd (MemCalls.perform c s))
       = MemStorage.organizations s
    /\ MemStorage.currentId (snd (MemCalls.perform c s))
       = MemStorage.currentId s + 1.
Proof.
  intros Hc.
  destruct c; try discriminate Hc; injection Hc as <-;
    eexists; (split; [reflexivity|]); (split; [reflexivity|]);
    (split; [reflexivity|]); (split; [|split; reflexivity]);
    intros k' Hk'; destruct k'; try reflexivity; congruence.
Qed.

Lemma created_for (c : StorageCall) (k : entity_kind) (o : Z)
    (s : MemStorage.state) (e : obj) :
  creates c = Some k -> creator c = Some o ->
  fst (MemCalls.perform c s) = Entity e ->
  js_get e "organizationId" = VNum o.
Proof.
  intros Hc Ho He.
  destruct c; try discriminate Hc; injection Ho as <-; injection He as <-;
    reflexivity.
Qed.

(** C1, as amended.  In a store that calls have made of a new one, let a
    [create*] call for organization [o1] store its entity, under the
    counter's value.  Whatever calls follow, none of them an update that
    supplies [organizationId], the entity then found under that id is one
    of [o1]: the filter of the six list methods drops it for another
    organization [o2], so that it is in none of their results
    ([listGroups] has it neither as it is nor with a [targetCount]), and
    every element of those results is of [o2].  The store's get takes the
    id alone; fetched for a user of [o2], the entity fails the ownership
    check of the routes, and the route that reads the targets of a group
    answers 403. *)
Theorem tenant_isolation_of_reads (s : MemStorage.state) (c : StorageCall)
    (k : entity_kind) (o1 o2 : Z) (cs : list StorageCall) :
  reachable s ->
  creates c = Some k -> creator c = Some o1 ->
  o1 <> o2 ->
  Forall keeps_organization cs ->
  let id := MemStorage.currentId s in
  let s1 := snd (MemCalls.perform c s) in
  let s2 := snd (MemCalls.perform_all cs s1) in
  exists e : obj,
    fst (MemCalls.perform c s) = Entity e
    /\ js_get e "organizationId" = VNum o1
    /\ Map_get id (table k s1) = Some e
    /\ forall e' : obj,
         Map_get id (table k s2) = Some e' ->
         js_get e' "organizationId" = VNum o1
         /\ in_organization o2 e' = false
         /\ ~ In e' (MemStorage.listUsers o2 s2)
         /\ ~ In e' (MemStorage.listGroups o2 s2)
         /\ (forall n, ~ In (<["targetCount" := n]> e')
                            (MemStorage.listGroups o2 s2))
         /\ ~ In e' (MemStorage.listSmtpProfiles o2 s2)
         /\ ~ In e' (MemStorage.listEmailTemplates o2 s2)
         /\ ~ In e' (MemStorage.listLandingPages o2 s2)
         /\ ~ In e' (MemStorage.listCampaigns o2 s2)
         /\ (forall r,
               In r (MemStorage.listUsers o2 s2
                     ++ MemStorage.listGroups o2 s2
                     ++ MemStorage.listSmtpProfiles o2 s2
                     ++ MemStorage.listEmailTemplates o2 s2
                     ++ MemStorage.listLandingPages o2 s2
                     ++ MemStorage.listCampaigns o2 s2)%list ->
               js_get r "organizationId" = VNum o2)
         /\ (forall user : Routes.SessionUser,
               Routes.su_organizationId user = o2 ->
               Routes.check_access user (Map_get id (table k s2))
               = Routes.Foreign)
         /\ (k = KGroup ->
             forall user : Routes.SessionUser,
               Routes.su_organizationId user = o2 ->
               Routes.getGroupTargets user id s2
               = Routes.respond 403 (Routes.Message "Access denied")).
Proof.
  intros Hr Hc Hcr Hne Hkeep id s1 s2.
  pose proof (reachable_well_formed s Hr) as Hwf.
  destruct (perform_create c k s Hc) as (e & He & _ & Htab & _ & _ & Hnext).
  assert (Hfst : fst (MemCalls.perform c s) = Entity e) by now rewrite He.
  pose proof (created_for c k o1 s e Hc Hcr Hfst) as Ho.
  assert (Hget : Map_get id (table k s1) = Some e).
  { subst s1 id. rewrite Htab. apply Map_get_set_eq. }
  exists e. split; [exact Hfst|]. split; [exact Ho|]. split; [exact Hget|].
  intros e' Hget'.
  assert (Ho' : js_get e' "organizationId" = VNum o1).
  { pose proof (perform_well_formed c s Hwf) as Hwf1.
    assert (Hlt : id < MemStorage.currentId s1) by (subst s1 id; lia).
    pose proof (organization_is_stable cs s1 k id Hwf1 Hlt Hkeep) as Hst.
    rewrite Hget in Hst. now rewrite (Hst e' Hget'). }
  assert (Hfilter : forall l, ~ In e' (List.filter (in_organization o2) l)).
  { intros l H. apply filter_scoped in H. congruence. }
  split; [exact Ho'|].
  split; [now apply in_organization_other with (o1 := o1)|].
  split; [apply Hfilter|].
  split; [intros H; apply listGroups_scoped in H; congruence|].
  split.
  { intros n H. apply listGroups_scoped in H.
    rewrite js_get_insert_ne in H by discriminate. congruence. }
  split; [apply Hfilter|]. split; [apply Hfilter|].
  split; [apply Hfilter|]. split; [apply Hfilter|].
  split.
  { intros r H.
    repeat (apply in_app_or in H as [H|H];
            [first [now apply listGroups_scoped in H
                   |now apply filter_scoped in H]|]).
    now apply filter_scoped in H. }
  split.
  { intros user Hu. rewrite Hget'.
    apply (check_access_foreign user e' o1 Ho'). congruence. }
  intros -> user Hu. unfold Routes.getGroupTargets, MemStorage.getGroup.
  simpl in Hget'. rewrite Hget', (check_access_foreign user e' o1); trivial.
  congruence.
Qed.

Lemma tenant_isolation_of_reads_witness :
  reachable MemStorage.new
  /\ creates (CreateGroup 7 staff 5) = Some KGroup
  /\ creator (CreateGroup 7 staff 5) = Some 7
  /\ 7 <> 8
  /\ Forall keeps_organization
       [CreateGroup 8 staff 6; UpdateGroup 1 stamp_only 7]
  /\ exists e : obj,
       fst (MemCalls.perform (CreateGroup 7 staff 5) MemStorage.new) = Entity e
       /\ js_get e "organizationId" = VNum 7
       /\ forall e' : obj,
            MemStorage.getGroup 1
              (snd (MemCalls.perform_all
                      [CreateGroup 8 staff 6; UpdateGroup 1 stamp_only 7]
                      store_with_group))
            = Some e' ->
            ~ In e' (MemStorage.listGroups 8
                       (snd (MemCalls.perform_all
                               [CreateGroup 8 staff 6;
                                UpdateGroup 1 stamp_only 7]
                               store_with_group))).
Proof.
  assert (Hr : reachable MemStorage.new) by (now exists []).
  assert (Hne : 7 <> 8) by discriminate.
  assert (Hkeep : Forall keeps_organization
                    [CreateGroup 8 staff 6; UpdateGroup 1 stamp_only 7]).
  { repeat constructor. }
  split; [exact Hr|]. split; [reflexivity|]. split; [reflexivity|].
  split; [exact Hne|]. split; [exact Hkeep|].
  destruct (tenant_isolation_of_reads MemStorage.new (CreateGroup 7 staff 5)
              KGroup 7 8 [CreateGroup 8 staff 6; UpdateGroup 1 stamp_only 7]
              Hr eq_refl eq_refl Hne Hkeep)
    as (e & He & Ho & _ & Hlater).
  exists e. split; [exact He|]. split; [exact Ho|].
  intros e' Hget. exact (proj1 (proj2 (proj2 (proj2 (Hlater e' Hget))))).
Defined.

(** C1, as stated, fails once an update supplies [organizationId], which
    the store accepts: the group that organization 7 created is then in
    the list of organization 8 and passes the ownership check for a user
    of organization 8.  And the store's get is not scoped at all:
    [getGroup] takes the id alone and returns the group of organization 7
    to whoever asks. *)
Lemma moved_group_is_listed_elsewhere :
  let s1 := snd (MemCalls.perform (CreateGroup 7 staff 5) MemStorage.new) in
  let s2 := snd (MemCalls.perform (UpdateGroup 1 to_organization_8 9) s1) in
  fst (MemCalls.perform (CreateGroup 7 staff 5) MemStorage.new)
  = Entity staff_group
  /\ MemStorage.getGroup 1 s1 = Some staff_group
  /\ exists e' : obj,
       MemStorage.getGroup 1 s2 = Some e'
       /\ js_get e' "id" = VNum 1
       /\ js_get e' "name" = VStr "Staff"
       /\ js_get e' "organizationId" = VNum 8
       /\ MemStorage.listGroups 8 s2 = [<["targetCount" := VNum 0]> e']
       /\ MemStorage.listGroups 7 s2 = []
       /\ Routes.check_access user_of_8 (MemStorage.getGroup 1 s2)
          = Routes.Owned e'.
Proof.
  split; [reflexivity|]. split; [reflexivity|].
  eexists. split; [reflexivity|]. repeat split; reflexivity.
Qed.

(** In a store that calls have made of a new one, every map holds each
    key once, as the cascade of [deleteGroup] and [deleteCampaign]
    supposes. *)
Lemma reachable_unique_keys (s : MemStorage.state) (k : entity_kind) :
  reachable s -> unique_keys (table k s).
Proof.
  intros H. apply reachable_well_formed in H.
  apply (well_formed_table k s H).
Qed.

(** * Further properties of the store *)

(** ** Identifiers *)

Lemma In_maps_map_of (m : store_map) (s : MemStorage.state) :
  In (map_of m s) (maps s).
Proof. destruct m as [|k]; [|destruct k]; simpl; tauto. Qed.

Lemma well_formed_map_of (m : store_map) (s : MemStorage.state) :
  well_formed s -> issued (MemStorage.currentId s) (map_of m s).
Proof.
  intros Hwf. unfold well_formed in Hwf. rewrite Forall_forall in Hwf.
  apply Hwf, list_elem_of_In, In_maps_map_of.
Qed.

Lemma perform_makes (c : StorageCall) (m : store_map) (s : MemStorage.state) :
  makes c = Some m ->
  exists e : obj,
    MemCalls.perform c s = (Entity e, snd (MemCalls.perform c s))
    /\ js_get e "id" = VNum (MemStorage.currentId s)
    /\ map_of m (snd (MemCalls.perform c s))
       = Map_set (MemStorage.currentId s) e (map_of m s)
    /\ (forall m', m' <> m ->
          map_of m' (snd (MemCalls.perform c s)) = map_of m' s)
    /\ MemStorage.currentId (snd (MemCalls.perform c s))
       = MemStorage.currentId s + 1.
Proof.
  intros Hc.
  destruct c; try discriminate Hc; injection Hc as <-;
    eexists; (split; [reflexivity|]); (split; [reflexivity|]);
    (split; [reflexivity|]); (split; [|reflexivity]);
    intros m' Hm'; destruct m' as [|[]]; try reflexivity; congruence.
Qed.

(** X1.  In a store that calls have made of a new one, a [create*] call,
    [createOrganization] among them, returns an entity whose [id] is the
    counter's value.  That value is above every key of each of the nine
    maps, so that no map holds anything under it; and the counter moves
    on by one. *)
Theorem created_ids_are_new (c : StorageCall) (m : store_map)
    (s : MemStorage.state) :
  reachable s ->
  makes c = Some m ->
  exists e : obj,
    fst (MemCalls.perform c s) = Entity e
    /\ js_get e "id" = VNum (MemStorage.currentId s)
    /\ (forall m' id, In id (Map_keys (map_of m' s)) ->
          id < MemStorage.currentId s)
    /\ (forall m', Map_get (MemStorage.currentId s) (map_of m' s) = None)
    /\ MemStorage.currentId (snd (MemCalls.perform c s))
       = MemStorage.currentId s + 1.
Proof.
  intros Hr Hc.
  pose proof (reachable_well_formed s Hr) as Hwf.
  destruct (perform_makes c m s Hc) as (e & He & Hid & _ & _ & Hnext).
  assert (Hbelow : forall m' id, In id (Map_keys (map_of m' s)) ->
                     id < MemStorage.currentId s).
  { intros m' id Hin. now apply (well_formed_map_of m' s Hwf). }
  exists e. rewrite He. repeat split; trivial.
  intros m'. apply Map_get_None. intros Hin.
  specialize (Hbelow m' _ Hin). lia.
Qed.

Lemma created_ids_are_new_witness :
  reachable acme_store
  /\ makes (CreateOrganization zenith 9) = Some OrganizationsMap
  /\ exists e : obj,
       fst (MemCalls.perform (CreateOrganization zenith 9) acme_store)
       = Entity e
       /\ js_get e "id" = VNum 4
       /\ MemStorage.getTarget 4 acme_store = None.
Proof.
  assert (Hr : reachable acme_store).
  { exists [CreateOrganization acme 5; CreateGroup 1 staff 5;
            CreateTarget 1 2 ann 5]. reflexivity. }
  split; [exact Hr|]. split; [reflexivity|].
  destruct (created_ids_are_new (CreateOrganization zenith 9) OrganizationsMap
              acme_store Hr eq_refl) as (e & He & Hid & _ & Hfree & _).
  exists e. split; [exact He|]. split; [exact Hid|].
  exact (Hfree (MapOf KTarget)).
Defined.

Lemma Map_set_new (k : Z) (v : obj) (m : JsMap) :
  Map_get k m = None -> Map_set k v m = (m ++ [(k, v)])%list.
Proof.
  induction m as [|[k' v'] m IH]; simpl; [reflexivity|].
  destruct (Z.eqb k k'); [discriminate|].
  intros H. now rewrite IH.
Qed.

Lemma Map_set_old_keys (k : Z) (v old : obj) (m : JsMap) :
  Map_get k m = Some old -> Map_keys (Map_set k v m) = Map_keys m.
Proof.
  unfold Map_keys. induction m as [|[k' v'] m IH]; simpl; [discriminate|].
  destruct (Z.eqb k k') eqn:E; simpl.
  - apply Z.eqb_eq in E. now subst.
  - intros H. now rewrite IH.
Qed.

Lemma well_formed_counter_free (k : entity_kind) (s : MemStorage.state) :
  well_formed s -> Map_get (MemStorage.currentId s) (table k s) = None.
Proof.
  intros Hwf. apply Map_get_None. intros Hin.
  destruct (well_formed_table k s Hwf) as [_ Hk]. specialize (Hk _ Hin). lia.
Qed.

Lemma acme_store_reachable : reachable acme_store.
Proof.
  exists [CreateOrganization acme 5; CreateGroup 1 staff 5;
          CreateTarget 1 2 ann 5].
  reflexivity.
Qed.

Lemma acme_store_well_formed : well_formed acme_store.
Proof. apply reachable_well_formed, acme_store_reachable. Qed.

(** X2.  In a well formed store, the entity that a [create*] call
    returns, [createOrganization] among them, is then found under the
    counter's former value in the map the call adds to, where it is the
    last of the values; that map has one entry more, and whatever was
    found under a key of any of the nine maps is still found there,
    unchanged. *)
Theorem created_entity_is_stored (c : StorageCall) (m : store_map)
    (s : MemStorage.state) :
  well_formed s ->
  makes c = Some m ->
  exists e : obj,
    fst (MemCalls.perform c s) = Entity e
    /\ Map_get (MemStorage.currentId s) (map_of m (snd (MemCalls.perform c s)))
       = Some e
    /\ Map_values (map_of m (snd (MemCalls.perform c s)))
       = (Map_values (map_of m s) ++ [e])%list
    /\ length (map_of m (snd (MemCalls.perform c s)))
       = S (length (map_of m s))
    /\ (forall m' id e',
          Map_get id (map_of m' s) = Some e' ->
          Map_get id (map_of m' (snd (MemCalls.perform c s))) = Some e').
Proof.
  intros Hwf Hc.
  destruct (perform_makes c m s Hc) as (e & He & _ & Htab & Hother & _).
  assert (Hfree : Map_get (MemStorage.currentId s) (map_of m s) = None).
  { apply Map_get_None. intros Hin.
    destruct (well_formed_map_of m s Hwf) as [_ Hk]. specialize (Hk _ Hin).
    lia. }
  exists e. rewrite He. cbn [fst snd].
  split; [reflexivity|]. split; [rewrite Htab; apply Map_get_set_eq|].
  rewrite Htab, (Map_set_new _ _ _ Hfree). split; [|split].
  - unfold Map_values. now rewrite map_app.
  - rewrite length_app. simpl. lia.
  - intros m' id e' Hget.
    assert (Hdec : m' = m \/ m' <> m).
    { destruct m' as [|k'], m as [|k0]; try (now left); try (now right).
      destruct (entity_kind_eq_dec k' k0) as [->|Hk]; [now left|].
      right. congruence. }
    destruct Hdec as [->|Hne].
    + rewrite Htab, Map_get_set_ne; [exact Hget|].
      intros E. rewrite <- E in Hget. congruence.
    + now rewrite (Hother m' Hne).
Qed.

Lemma created_entity_is_stored_witness :
  well_formed acme_store
  /\ makes (CreateOrganization zenith 9) = Some OrganizationsMap
  /\ exists e : obj,
       fst (MemCalls.perform (CreateOrganization zenith 9) acme_store)
       = Entity e
       /\ MemStorage.getOrganization 4
            (snd (MemCalls.perform (CreateOrganization zenith 9) acme_store))
          = Some e
       /\ is_Some (MemStorage.getTarget 3
                     (snd (MemCalls.perform (CreateOrganization zenith 9)
                             acme_store))).
Proof.
  split; [exact acme_store_well_formed|]. split; [reflexivity|].
  destruct (created_entity_is_stored (CreateOrganization zenith 9)
              OrganizationsMap acme_store acme_store_well_formed eq_refl)
    as (e & He & Hget & _ & _ & Hkeep).
  exists e. split; [exact He|]. split; [exact Hget|].
  eexists. apply (Hkeep (MapOf KTarget) 3). reflexivity.
Defined.

(** ** Deleting and updating *)





(** X4.  An [update*] method never adds or removes an entity and issues
    no id: the keys of every map, in their order, and the counter are the
    same before and after, whether the id is there or not and whatever
    the data; so an entity stays under the id of the call even when
    the data supplies another [id]. *)
Theorem update_keeps_keys (k k' : entity_kind) (id : Z) (d : obj) (now : Z)
    (s : MemStorage.state) :
  Map_keys (table k' (snd (update k id d now s))) = Map_keys (table k' s)
  /\ MemStorage.organizations (snd (update k id d now s))
     = MemStorage.organizations s
  /\ MemStorage.currentId (snd (update k id d now s)) = MemStorage.currentId s
  /\ (forall v old, d !! "id" = Some v -> Map_get id (table k s) = Some old ->
        exists e, Map_get id (table k (snd (update k id d now s))) = Some e
                  /\ e !! "id" = Some v).
Proof.
  destruct (Map_get id (table k s)) as [old|] eqn:Hget.
  - destruct (update_found k id d now s old Hget) as (_ & Htab & Hother).
    assert (Hrest : MemStorage.organizations (snd (update k id d now s))
                    = MemStorage.organizations s
                    /\ MemStorage.currentId (snd (update k id d now s))
                       = MemStorage.currentId s).
    { destruct k; simpl in *;
        unfold MemStorage.updateUser, MemStorage.updateGroup,
          MemStorage.updateTarget, MemStorage.updateSmtpProfile,
          MemStorage.updateEmailTemplate, MemStorage.updateLandingPage,
          MemStorage.updateCampaign, MemStorage.updateCampaignResult;
        rewrite Hget; split; reflexivity. }
    destruct Hrest as [Ho Hc].
    split; [|split; [exact Ho|split; [exact Hc|]]].
    + destruct (decide (k' = k)) as [->|Hne].
      * rewrite Htab. now apply Map_set_old_keys with (old := old).
      * now rewrite (Hother k' Hne).
    + intros v old' Hv [= <-]. exists (MemStorage.merged old d now).
      split; [rewrite Htab; apply Map_get_set_eq|].
      rewrite merged_field by discriminate. now rewrite Hv.
  - rewrite (update_not_found k id d now s Hget). simpl.
    repeat split. intros v old _ H. discriminate H.
Qed.

(** ** Looking up by email and by name *)

Lemma lower_ascii_twice (c : ascii) : lower_ascii (lower_ascii c) = lower_ascii c.
Proof. destruct c as [[] [] [] [] [] [] [] []]; reflexivity. Qed.

Lemma toLowerCase_twice (a : string) : toLowerCase (toLowerCase a) = toLowerCase a.
Proof.
  induction a as [|c a IH]; simpl; [reflexivity|].
  now rewrite lower_ascii_twice, IH.
Qed.

(** The test of [find] in the two lookups. *)
Lemma lowered_matches (field : string) (wanted : string) (e : obj) :
  strict_eq (js_toLowerCase (js_get e field)) (VStr (toLowerCase wanted)) = true
  <-> exists held, js_get e field = VStr held /\ same_ignoring_case held wanted.
Proof.
  unfold same_ignoring_case. split.
  - destruct (js_get e field) as [| | | |held|]; simpl; try discriminate.
    intros H. apply String.eqb_eq in H. now exists held.
  - intros (held & -> & H). simpl. rewrite H. apply String.eqb_refl.
Qed.

Lemma find_lowered (field wanted : string) (l : list obj) :
  (forall e,
     List.find (fun x => strict_eq (js_toLowerCase (js_get x field))
                                   (VStr (toLowerCase wanted))) l = Some e ->
     In e l
     /\ exists held, js_get e field = VStr held
                     /\ same_ignoring_case held wanted)
  /\ (List.find (fun x => strict_eq (js_toLowerCase (js_get x field))
                                    (VStr (toLowerCase wanted))) l = None ->
      forall e held, In e l -> js_get e field = VStr held ->
                     ~ same_ignoring_case held wanted).
Proof.
  split.
  - intros e H. apply find_some in H as [Hin H]. split; [exact Hin|].
    now apply lowered_matches.
  - intros H e held Hin He Hsame.
    pose proof (find_none _ _ H e Hin) as Hno. simpl in Hno.
    assert (Hyes : strict_eq (js_toLowerCase (js_get e field))
                             (VStr (toLowerCase wanted)) = true).
    { apply lowered_matches. now exists held. }
    congruence.
Qed.

Lemma find_first {A : Type} (f : A -> bool) (l : list A) (a : A) :
  List.find f l = Some a
  <-> exists before after,
        l = (before ++ a :: after)%list /\ f a = true
        /\ forall x, In x before -> f x = false.
Proof.
  split.
  - induction l as [|x l IH]; simpl; [discriminate|].
    destruct (f x) eqn:E.
    + intros [= ->]. exists [], l. repeat split; trivial. intros ? [].
    + intros H. destruct (IH H) as (before & after & -> & Ha & Hb).
      exists (x :: before), after. repeat split; trivial.
      intros y [<-|Hy]; [exact E|now apply Hb].
  - intros (before & after & -> & Ha & Hb).
    induction before as [|x before IH]; simpl.
    + now rewrite Ha.
    + rewrite (Hb x (or_introl eq_refl)). apply IH.
      intros y Hy. apply Hb. now right.
Qed.

Lemma find_first_with (field wanted : string) (l : list obj) (e : obj) :
  List.find (fun x => strict_eq (js_toLowerCase (js_get x field))
                                (VStr (toLowerCase wanted))) l = Some e
  <-> first_with field wanted l e.
Proof.
  rewrite find_first. unfold first_with. split.
  - intros (before & after & -> & He & Hb).
    apply lowered_matches in He as (held & He & Hsame).
    exists before, after, held. repeat split; trivial.
    intros x held' Hx Hheld Hsame'.
    assert (Hyes : strict_eq (js_toLowerCase (js_get x field))
                             (VStr (toLowerCase wanted)) = true).
    { apply lowered_matches. now exists held'. }
    rewrite (Hb x Hx) in Hyes. discriminate.
  - intros (before & after & held & -> & He & Hsame & Hb).
    exists before, after. repeat split; trivial.
    + apply lowered_matches. now exists held.
    + intros x Hx.
      destruct (strict_eq (js_toLowerCase (js_get x field))
                          (VStr (toLowerCase wanted))) eqn:E; [|reflexivity].
      apply lowered_matches in E as (held' & Hheld & Hsame').
      now destruct (Hb x held' Hx Hheld).
Qed.

Lemma find_none_with (field wanted : string) (l : list obj) :
  Forall (holds_text field) l ->
  List.find (fun x => strict_eq (js_toLowerCase (js_get x field))
                                (VStr (toLowerCase wanted))) l = None
  <-> forall e, In e l ->
        exists held, js_get e field = VStr held
                     /\ ~ same_ignoring_case held wanted.
Proof.
  intros Htext. rewrite List.Forall_forall in Htext. split.
  - intros H e Hin. destruct (Htext e Hin) as (held & He & _).
    exists held. split; [exact He|].
    now apply (proj2 (find_lowered field wanted l) H e held).
  - intros H.
    destruct (List.find _ l) as [e|] eqn:E; [|reflexivity].
    apply find_some in E as [Hin E].
    apply lowered_matches in E as (held & He & Hsame).
    destruct (H e Hin) as (held' & He' & Hno). congruence.
Qed.

(** X5.  Let the emails of the stored users and the names of the stored
    organizations be text of ASCII characters, and the query too.  Then
    [getUserByEmail] and [getOrganizationByName] ignore the case of
    letters: two queries that differ in case only have the same answer;
    the answer is the first, in the order of insertion, of the stored
    entities whose email (name) is the query up to case; and there is no
    answer exactly when no stored entity has such an email (name). *)
Theorem lookups_ignore_case (s : MemStorage.state) (wanted : string) :
  is_ascii wanted = true ->
  Forall (holds_text "email") (Map_values (MemStorage.users s)) ->
  Forall (holds_text "name") (Map_values (MemStorage.organizations s)) ->
  (forall other, is_ascii other = true -> same_ignoring_case wanted other ->
     MemStorage.getUserByEmail wanted s = MemStorage.getUserByEmail other s
     /\ MemStorage.getOrganizationByName wanted s
        = MemStorage.getOrganizationByName other s)
  /\ (forall u, MemStorage.getUserByEmail wanted s = Some u
                <-> first_with "email" wanted
                      (Map_values (MemStorage.users s)) u)
  /\ (MemStorage.getUserByEmail wanted s = None
      <-> forall u, In u (Map_values (MemStorage.users s)) ->
            exists held, js_get u "email" = VStr held
                         /\ ~ same_ignoring_case held wanted)
  /\ (forall o, MemStorage.getOrganizationByName wanted s = Some o
                <-> first_with "name" wanted
                      (Map_values (MemStorage.organizations s)) o)
  /\ (MemStorage.getOrganizationByName wanted s = None
      <-> forall o, In o (Map_values (MemStorage.organizations s)) ->
            exists held, js_get o "name" = VStr held
                         /\ ~ same_ignoring_case held wanted).
Proof.
  intros _ Husers Horgs.
  split; [|split; [|split; [|split]]].
  - intros other _ Hsame. unfold same_ignoring_case in Hsame.
    unfold MemStorage.getUserByEmail, MemStorage.getOrganizationByName.
    now rewrite Hsame.
  - intros u. apply (find_first_with "email" wanted).
  - now apply (find_none_with "email" wanted).
  - intros o. apply (find_first_with "name" wanted).
  - now apply (find_none_with "name" wanted).
Qed.

Lemma lookups_ignore_case_witness :
  is_ascii "ALICE@ACME.TEST" = true
  /\ Forall (holds_text "email") (Map_values (MemStorage.users user_store))
  /\ Forall (holds_text "name")
       (Map_values (MemStorage.organizations user_store))
  /\ MemStorage.getUserByEmail "ALICE@ACME.TEST" user_store
     = MemStorage.getUserByEmail "alice@acme.test" user_store
  /\ MemStorage.getOrganizationByName "ALICE@ACME.TEST" user_store = None.
Proof.
  assert (Hw : is_ascii "ALICE@ACME.TEST" = true) by reflexivity.
  assert (Husers : Forall (holds_text "email")
                     (Map_values (MemStorage.users user_store))).
  { repeat constructor. eexists. split; reflexivity. }
  assert (Horgs : Forall (holds_text "name")
                    (Map_values (MemStorage.organizations user_store))).
  { repeat constructor. eexists. split; reflexivity. }
  split; [exact Hw|]. split; [exact Husers|]. split; [exact Horgs|].
  destruct (lookups_ignore_case user_store "ALICE@ACME.TEST" Hw Husers Horgs)
    as (Hsame & _ & _ & _ & Hnone).
  split.
  - apply (Hsame "alice@acme.test"); reflexivity.
  - apply Hnone. intros o [<-|[]]. eexists. split; [reflexivity|].
    discriminate.
Defined.

Lemma find_app_found {A : Type} (f : A -> bool) (l l' : list A) (a : A) :
  List.find f l = Some a -> List.find f (l ++ l') = Some a.
Proof.
  induction l as [|x l IH]; simpl; [discriminate|].
  destruct (f x); [trivial|exact IH].
Qed.

(** X6.  The in-memory store does not keep emails unique.  Let the emails
    of the stored users be text of ASCII characters.  In a well formed
    store that has a user under an email, [createUser] with that email,
    in whatever case, makes a second user, found under its own new id.
    In the store that [createUser] leaves, [getUserByEmail] answers with
    the first as before, and [listUsers] has both users, each for its
    organization. *)
Theorem duplicate_email_is_accepted (s : MemStorage.state) (user : InsertUser)
    (now : Z) (first : obj) :
  well_formed s ->
  is_ascii (iu_email user) = true ->
  Forall (holds_text "email") (Map_values (MemStorage.users s)) ->
  MemStorage.getUserByEmail (iu_email user) s = Some first ->
  exists second : obj,
    fst (MemStorage.createUser user now s) = second
    /\ js_get second "email" = VStr (iu_email user)
    /\ MemStorage.getUser (MemStorage.currentId s)
         (snd (MemStorage.createUser user now s)) = Some second
    /\ js_get second "id" = VNum (MemStorage.currentId s)
    /\ (forall id, MemStorage.getUser id s = Some first ->
          id <> MemStorage.currentId s
          /\ MemStorage.getUser id (snd (MemStorage.createUser user now s))
             = Some first)
    /\ MemStorage.getUserByEmail (iu_email user)
         (snd (MemStorage.createUser user now s)) = Some first
    /\ (exists held, js_get first "email" = VStr held
                     /\ same_ignoring_case held (iu_email user))
    /\ In second
         (MemStorage.listUsers (iu_organizationId user)
            (snd (MemStorage.createUser user now s)))
    /\ (forall o, js_get first "organizationId" = VNum o ->
          In first
            (MemStorage.listUsers o (snd (MemStorage.createUser user now s)))).
Proof.
  intros Hwf _ _ Hfirst.
  pose proof (well_formed_counter_free KUser s Hwf) as Hfree. simpl in Hfree.
  exists (fst (MemStorage.createUser user now s)).
  assert (Husers : MemStorage.users (snd (MemStorage.createUser user now s))
                   = (MemStorage.users s
                      ++ [(MemStorage.currentId s,
                           fst (MemStorage.createUser user now s))])%list).
  { rewrite <- (Map_set_new _ _ _ Hfree). reflexivity. }
  assert (Hin : In first (Map_values (MemStorage.users s))).
  { unfold MemStorage.getUserByEmail in Hfirst.
    now apply find_some in Hfirst as [Hin _]. }
  split; [reflexivity|]. split; [reflexivity|]. split.
  { unfold MemStorage.getUser. rewrite Husers, <- (Map_set_new _ _ _ Hfree).
    apply Map_get_set_eq. }
  split; [reflexivity|]. split; [|split; [|split; [|split]]].
  - intros id Hid. unfold MemStorage.getUser in *.
    assert (Hne : id <> MemStorage.currentId s) by (intros ->; congruence).
    split; [exact Hne|].
    rewrite Husers, <- (Map_set_new _ _ _ Hfree), Map_get_set_ne; congruence.
  - unfold MemStorage.getUserByEmail in *. rewrite Husers.
    unfold Map_values. rewrite map_app. now apply find_app_found.
  - unfold MemStorage.getUserByEmail in Hfirst.
    now apply (proj1 (find_lowered "email" (iu_email user) _) first Hfirst).
  - unfold MemStorage.listUsers. rewrite Husers. unfold Map_values.
    rewrite map_app. apply filter_In. split.
    + apply in_or_app. right. now left.
    + apply in_organization_iff. reflexivity.
  - intros o Ho. unfold MemStorage.listUsers. rewrite Husers.
    unfold Map_values. rewrite map_app. apply filter_In. split.
    + apply in_or_app. now left.
    + now apply in_organization_iff.
Qed.

Lemma user_store_well_formed : well_formed user_store.
Proof.
  apply reachable_well_formed.
  exists [CreateOrganization acme 5; CreateGroup 1 staff 5;
          CreateTarget 1 2 ann 5; CreateUser alice 5].
  reflexivity.
Qed.

Lemma duplicate_email_is_accepted_witness :
  well_formed user_store
  /\ is_ascii (iu_email alice_again) = true
  /\ Forall (holds_text "email") (Map_values (MemStorage.users user_store))
  /\ is_Some (MemStorage.getUserByEmail (iu_email alice_again) user_store)
  /\ MemStorage.getUserByEmail (iu_email alice_again)
       (snd (MemStorage.createUser alice_again 6 user_store))
     = MemStorage.getUser 4 user_store
  /\ is_Some (MemStorage.getUser 5
                (snd (MemStorage.createUser alice_again 6 user_store))).
Proof.
  split; [exact user_store_well_formed|].
  assert (Ha : is_ascii (iu_email alice_again) = true) by reflexivity.
  assert (Husers : Forall (holds_text "email")
                     (Map_values (MemStorage.users user_store))).
  { repeat constructor. eexists. split; reflexivity. }
  split; [exact Ha|]. split; [exact Husers|].
  assert (Hfirst : MemStorage.getUserByEmail (iu_email alice_again) user_store
                   = MemStorage.getUser 4 user_store) by reflexivity.
  assert (Hsome : exists first, MemStorage.getUser 4 user_store = Some first).
  { eexists. reflexivity. }
  destruct Hsome as [first Hget]. rewrite Hget in Hfirst.
  split; [rewrite Hfirst; eauto|].
  destruct (duplicate_email_is_accepted user_store alice_again 6 first
              user_store_well_formed Ha Husers Hfirst)
    as (second & _ & _ & Hstored & _ & _ & Hstill & _).
  split; [now rewrite Hstill, Hget|].
  exists second. exact Hstored.
Defined.

(** ** The dashboard *)

Lemma length_filter_and {A : Type} (f g : A -> bool) (l : list A) :
  (length (List.filter (fun x => f x && g x)%bool l)
   <= length (List.filter f l))%nat.
Proof.
  induction l as [|x l IH]; simpl; [lia|].
  destruct (f x), (g x); simpl; lia.
Qed.

(** X7.  [getDashboardStats] counts the users that [listUsers] returns for
    the organization, and no more active campaigns than [listCampaigns]
    returns.  In a well formed store, [createCampaign] leaves the
    statistics of every organization as they were, the campaign being
    created a draft; and [createUser] adds one to the users of its
    organization and leaves the others. *)
Theorem dashboard_counts (s : MemStorage.state) (o : Z) :
  totalUsers (MemStorage.getDashboardStats o s)
  = length (MemStorage.listUsers o s)
  /\ (activeCampaigns (MemStorage.getDashboardStats o s)
      <= length (MemStorage.listCampaigns o s))%nat
  /\ (well_formed s ->
      forall organizationId userId campaign now,
        MemStorage.getDashboardStats o
          (snd (MemStorage.createCampaign organizationId userId campaign now s))
        = MemStorage.getDashboardStats o s)
  /\ (well_formed s ->
      forall user now,
        totalUsers
          (MemStorage.getDashboardStats o
             (snd (MemStorage.createUser user now s)))
        = (totalUsers (MemStorage.getDashboardStats o s)
           + (if Z.eqb (iu_organizationId user) o then 1 else 0))%nat).
Proof.
  split; [reflexivity|]. split.
  { unfold MemStorage.getDashboardStats, MemStorage.listCampaigns. simpl.
    apply length_filter_and. }
  split.
  - intros Hwf organizationId userId campaign now.
    pose proof (well_formed_counter_free KCampaign s Hwf) as Hfree.
    simpl in Hfree.
    unfold MemStorage.getDashboardStats.
    assert (Hc : MemStorage.campaigns
                   (snd (MemStorage.createCampaign organizationId userId
                           campaign now s))
                 = (MemStorage.campaigns s
                    ++ [(MemStorage.currentId s,
                         fst (MemStorage.createCampaign organizationId userId
                                campaign now s))])%list).
    { rewrite <- (Map_set_new _ _ _ Hfree). reflexivity. }
    assert (Hu : MemStorage.users
                   (snd (MemStorage.createCampaign organizationId userId
                           campaign now s))
                 = MemStorage.users s) by reflexivity.
    rewrite Hc, Hu. unfold Map_values. rewrite map_app, List.filter_app.
    cbn [List.map List.filter snd].
    assert (Hdraft : strict_eq
              (js_get (fst (MemStorage.createCampaign organizationId userId
                              campaign now s)) "status")
              (VStr "Active") = false) by reflexivity.
    rewrite Hdraft, andb_false_r, app_nil_r. reflexivity.
  - intros Hwf user now.
    pose proof (well_formed_counter_free KUser s Hwf) as Hfree.
    simpl in Hfree.
    unfold MemStorage.getDashboardStats. cbn [totalUsers].
    assert (Hu : MemStorage.users (snd (MemStorage.createUser user now s))
                 = (MemStorage.users s
                    ++ [(MemStorage.currentId s,
                         fst (MemStorage.createUser user now s))])%list).
    { rewrite <- (Map_set_new _ _ _ Hfree). reflexivity. }
    rewrite Hu. unfold Map_values. rewrite map_app, List.filter_app, length_app.
    f_equal. cbn [List.map List.filter snd].
    assert (Ho : in_organization o (fst (MemStorage.createUser user now s))
                 = Z.eqb (iu_organizationId user) o) by reflexivity.
    rewrite Ho. now destruct (Z.eqb (iu_organizationId user) o).
Qed.

(** * Properties of the route layer *)

(** ** What the handlers call *)

Lemma picked_lookup (keys : list string) (o acc : obj) (f : string) :
  fold_left
    (fun acc k => match o !! k with Some v => <[k := v]> acc | None => acc end)
    keys acc !! f
  = if in_dec string_dec f keys
    then match o !! f with Some v => Some v | None => acc !! f end
    else acc !! f.
Proof.
  revert acc. induction keys as [|k keys IH]; intros acc; [reflexivity|].
  cbn [fold_left]. rewrite IH.
  destruct (in_dec string_dec f keys) as [Hin|Hnin];
    destruct (in_dec string_dec f (k :: keys)) as [Hin'|Hnin'];
    try (exfalso; apply Hnin'; now right).
  - destruct (o !! f) eqn:Hf; [reflexivity|].
    destruct (o !! k) eqn:Hk; [|reflexivity].
    apply lookup_insert_ne. intros ->. congruence.
  - destruct Hin' as [->|Hin']; [|contradiction].
    destruct (o !! f) eqn:Hf; [apply lookup_insert_eq|reflexivity].
  - destruct (o !! k) eqn:Hk; [|reflexivity].
    apply lookup_insert_ne. intros ->. apply Hnin'. now left.
Qed.

Lemma picked_field (keys : list string) (o : obj) (f : string) :
  In f keys -> picked keys o !! f = o !! f.
Proof.
  intros Hin. unfold picked. rewrite picked_lookup.
  destruct (in_dec string_dec f keys); [|contradiction].
  now destruct (o !! f).
Qed.

Lemma picked_only (keys : list string) (o : obj) :
  only_fields keys (picked keys o).
Proof.
  intros f Hf. unfold picked. rewrite picked_lookup.
  destruct (in_dec string_dec f keys); [contradiction|reflexivity].
Qed.

Lemma perform_all_cons (c : StorageCall) (cs : list StorageCall)
    (s : MemStorage.state) :
  snd (MemCalls.perform_all (c :: cs) s)
  = snd (MemCalls.perform_all cs (snd (MemCalls.perform c s))).
Proof.
  simpl. destruct (MemCalls.perform c s) as [r s1]. simpl.
  now destruct (MemCalls.perform_all cs s1).
Qed.

Lemma perform_all_app (cs cs' : list StorageCall) (s : MemStorage.state) :
  snd (MemCalls.perform_all (cs ++ cs') s)
  = snd (MemCalls.perform_all cs' (snd (MemCalls.perform_all cs s))).
Proof.
  revert s. induction cs as [|c cs IH]; intros s; [reflexivity|].
  rewrite <- app_comm_cons, !perform_all_cons. apply IH.
Qed.

Lemma check_access_owned_by (user : Routes.SessionUser) (fetched : option obj)
    (e : obj) :
  Routes.check_access user fetched = Routes.Owned e ->
  owned_by (Routes.su_organizationId user) fetched.
Proof. intros H. apply check_access_owned in H as [-> H]. now exists e. Qed.

(** The calls that an import makes. *)
Lemma create_each_calls (o groupId : Z) (clock : nat -> Z)
    (accepted : list (nat * InsertTarget)) (s : MemStorage.state) :
  owned_by o (MemStorage.getGroup groupId s) ->
  exists cs,
    snd (create_each o groupId clock accepted s)
    = snd (MemCalls.perform_all cs s)
    /\ permitted_all o s cs.
Proof.
  revert s. induction accepted as [|[i d] accepted IH]; intros s Hg.
  - exists []. split; [reflexivity|constructor].
  - destruct (IH (snd (MemStorage.createTarget o groupId d (clock i) s)) Hg)
      as (cs & E & Hcs).
    exists (CreateTarget o groupId d (clock i) :: cs).
    rewrite create_each_cons, perform_all_cons. cbn [snd].
    split; [exact E|].
    constructor; [now constructor|exact Hcs].
Qed.

Ltac one_call c :=
  exists [c]; split;
  [ reflexivity
  | constructor; [constructor; eauto using check_access_owned_by, picked_only
                 | constructor] ].

Ltac no_call := exists []; split; [reflexivity|constructor].

(** Whatever the request, what its handler does to the store is what a
    sequence of calls does, each permitted to the user's organization. *)
Lemma handle_calls (user : Routes.SessionUser) (r : Api.Request)
    (s : MemStorage.state) :
  exists cs,
    snd (Api.handle user r s) = snd (MemCalls.perform_all cs s)
    /\ permitted_all (Routes.su_organizationId user) s cs.
Proof.
  destruct r; cbn [Api.handle snd]; try no_call.
  - unfold Api.postGroup.
    destruct (insertGroupSchema_parse body) as [d|]; [|no_call].
    one_call (CreateGroup (Routes.su_organizationId user) d now).
  - unfold Api.putGroup.
    destruct (Routes.check_access user (MemStorage.getGroup id s)) as [| |e]
      eqn:Ha; try no_call.
    destruct (insertGroupSchema_parse body) as [d|]; [|no_call].
    apply check_access_owned in Ha as [Hg Ho].
    unfold MemStorage.updateGroup. unfold MemStorage.getGroup in Hg.
    rewrite Hg.
    exists [UpdateGroup id (picked ["name"; "description"] body) now]. split.
    + cbn. unfold MemStorage.updateGroup. now rewrite Hg.
    + constructor; [|constructor]. constructor; [|apply picked_only].
      now exists e.
  - unfold Routes.deleteGroupRoute.
    destruct (Routes.check_access user (MemStorage.getGroup id s)) as [| |e]
      eqn:Ha; try no_call.
    one_call (DeleteGroup id).
  - unfold Api.postTarget.
    destruct (Routes.check_access user (MemStorage.getGroup id s)) as [| |e]
      eqn:Ha; try no_call.
    destruct (insertTargetSchema_parse body) as [d|]; [|no_call].
    one_call (CreateTarget (Routes.su_organizationId user) id d now).
  - unfold Routes.importTargets.
    destruct (Routes.check_access user (MemStorage.getGroup id s)) as [| |e]
      eqn:Ha; try no_call.
    destruct file as [csv|]; [|no_call].
    destruct (Nat.ltb 0 _); [no_call|].
    rewrite importRows_eq. cbn [snd].
    apply create_each_calls. eauto using check_access_owned_by.
  - unfold Api.postSmtpProfile.
    destruct (insertSmtpProfileSchema_parse body) as [d|]; [|no_call].
    one_call (CreateSmtpProfile (Routes.su_organizationId user) d now).
  - unfold Api.postEmailTemplate.
    destruct (insertEmailTemplateSchema_parse body) as [d|]; [|no_call].
    one_call (CreateEmailTemplate (Routes.su_organizationId user)
                (Routes.su_id user) d now).
  - unfold Api.putEmailTemplate.
    destruct (Routes.check_access user (MemStorage.getEmailTemplate id s))
      as [| |e] eqn:Ha; try no_call.
    destruct (insertEmailTemplateSchema_parse body) as [d|]; [|no_call].
    apply check_access_owned in Ha as [Hg Ho].
    unfold MemStorage.updateEmailTemplate.
    unfold MemStorage.getEmailTemplate in Hg. rewrite Hg.
    exists [UpdateEmailTemplate id
              (picked ["name"; "subject"; "htmlContent"; "textContent";
                       "senderName"; "senderEmail"] body) now].
    split.
    + cbn. unfold MemStorage.updateEmailTemplate. now rewrite Hg.
    + constructor; [|constructor]. constructor; [|apply picked_only].
      now exists e.
  - unfold Api.postLandingPage.
    destruct (insertLandingPageSchema_parse body) as [d|]; [|no_call].
    one_call (CreateLandingPage (Routes.su_organizationId user)
                (Routes.su_id user) d now).
  - unfold Routes.postCampaign.
    destruct (insertCampaignSchema_parse body) as [d|]; [|no_call].
    destruct (Routes.check_access user (MemStorage.getGroup _ s)) as [| |e1]
      eqn:H1; try no_call.
    destruct (Routes.check_access user (MemStorage.getSmtpProfile _ s))
      as [| |e2] eqn:H2; try no_call.
    destruct (Routes.check_access user (MemStorage.getEmailTemplate _ s))
      as [| |e3] eqn:H3; try no_call.
    destruct (Routes.check_access user (MemStorage.getLandingPage _ s))
      as [| |e4] eqn:H4; try no_call.
    one_call (CreateCampaign (Routes.su_organizationId user)
                (Routes.su_id user) d now).
Qed.

(** ** What a permitted call leaves in place *)

Lemma permitted_keeps_organization (o : Z) (s : MemStorage.state)
    (c : StorageCall) :
  permitted o s c -> keeps_organization c.
Proof.
  intros H. destruct H; simpl; trivial;
    match goal with
    | H : only_fields _ _ |- _ => apply H
    end;
    simpl; intuition discriminate.
Qed.

Lemma permitted_all_keep_organization (o : Z) (s : MemStorage.state)
    (cs : list StorageCall) :
  permitted_all o s cs -> Forall keeps_organization cs.
Proof.
  induction 1 as [|s c cs Hc _ IH]; constructor;
    eauto using permitted_keeps_organization.
Qed.

Lemma permitted_effect (o : Z) (s : MemStorage.state) (c : StorageCall) :
  permitted o s c -> well_formed s ->
  effect o s (snd (MemCalls.perform c s)).
Proof.
  intros Hp Hwf.
  destruct Hp as [g now|id data now [old [Hold Ho]] Hf|id [old [Hold Ho]]
                 |groupId t now Hg|p now|userId t now
                 |id data now [old [Hold Ho]] Hf|userId p now
                 |userId c now Hg Hp He Hl].
  - apply (effect_create _ _ _ KGroup
             (fst (MemStorage.createGroup o g now s)));
      try reflexivity; try discriminate.
    intros k' Hk'. destruct k'; try reflexivity. congruence.
  - destruct (update_found KGroup id data now s old Hold)
      as (_ & Htab & Hother).
    eapply (effect_update _ _ _ KGroup id old data now); eauto;
      apply Hf; simpl; intuition discriminate.
  - eapply (effect_delete _ _ _ id old); eauto.
    + cbn [MemCalls.perform MemCalls.flag snd]. rewrite deleteGroup_eq.
      cbn [snd table MemStorage.targets MemStorage.set_groups
           MemStorage.set_targets].
      apply sweep_own_entries.
      apply (well_formed_table KTarget s Hwf).
    + intros k' H1 H2. destruct k'; try reflexivity; congruence.
  - apply (effect_create _ _ _ KTarget
             (fst (MemStorage.createTarget o groupId t now s)));
      try reflexivity; try discriminate.
    + intros k' Hk'. destruct k'; try reflexivity. congruence.
    + intros _. exists groupId. split; [reflexivity|exact Hg].
  - apply (effect_create _ _ _ KSmtpProfile
             (fst (MemStorage.createSmtpProfile o p now s)));
      try reflexivity; try discriminate.
    intros k' Hk'. destruct k'; try reflexivity. congruence.
  - apply (effect_create _ _ _ KEmailTemplate
             (fst (MemStorage.createEmailTemplate o userId t now s)));
      try reflexivity; try discriminate.
    intros k' Hk'. destruct k'; try reflexivity. congruence.
  - destruct (update_found KEmailTemplate id data now s old Hold)
      as (_ & Htab & Hother).
    eapply (effect_update _ _ _ KEmailTemplate id old data now); eauto;
      apply Hf; simpl; intuition discriminate.
  - apply (effect_create _ _ _ KLandingPage
             (fst (MemStorage.createLandingPage o userId p now s)));
      try reflexivity; try discriminate.
    intros k' Hk'. destruct k'; try reflexivity. congruence.
  - apply (effect_create _ _ _ KCampaign
             (fst (MemStorage.createCampaign o userId c now s)));
      try reflexivity; try discriminate.
    + intros k' Hk'. destruct k'; try reflexivity. congruence.
    + intros _. split; [reflexivity|]. repeat split; eexists; split;
        try reflexivity; assumption.
Qed.

Lemma Map_get_filter_keep (f : Z * obj -> bool) (k : Z) (m : JsMap) (v : obj) :
  unique_keys m -> Map_get k m = Some v -> f (k, v) = true ->
  Map_get k (List.filter f m) = Some v.
Proof.
  intros Hu Hget Hf. apply In_Map_get; [now apply unique_keys_filter|].
  apply filter_In. split; [now apply Map_get_In|exact Hf].
Qed.

Lemma table_cases (k k0 : entity_kind) : k = k0 \/ k <> k0.
Proof. destruct (decide (k = k0)); tauto. Qed.

(** An effect leaves alone what belongs to another organization. *)
Lemma effect_spares_others (o : Z) (s s' : MemStorage.state)
    (k : entity_kind) (id : Z) (e : obj) :
  effect o s s' -> well_formed s -> targets_follow_groups s ->
  Map_get id (table k s) = Some e ->
  js_get e "organizationId" <> VNum o ->
  Map_get id (table k s') = Some e.
Proof.
  intros He Hwf HT Hget Hne.
  pose proof (well_formed_table k s Hwf) as Hi.
  destruct He as [k0 e0 _ _ _ Ho Htab Hother _ _
                 |k0 id0 old data now _ Hold Ho Hd _ Htab Hother
                 |id0 old Hold Ho Hg Ht Hother].
  - destruct (table_cases k k0) as [->|Hk]; [|now rewrite (Hother k Hk)].
    rewrite Htab, Map_get_set_ne; [exact Hget|].
    pose proof (Map_get_issued _ _ _ _ Hi Hget). lia.
  - destruct (table_cases k k0) as [->|Hk]; [|now rewrite (Hother k Hk)].
    rewrite Htab, Map_get_set_ne; [exact Hget|].
    intros ->. congruence.
  - destruct (table_cases k KGroup) as [->|Hk].
    { rewrite Hg, Map_get_remove_ne; [exact Hget|].
      intros ->. unfold MemStorage.getGroup in Hold. simpl in Hget.
      congruence. }
    destruct (table_cases k KTarget) as [->|Hk'];
      [|now rewrite (Hother k Hk Hk')].
    rewrite Ht. apply Map_get_filter_keep; [apply Hi|exact Hget|].
    cbn [snd]. apply negb_true_iff.
    destruct (HT id e Hget) as (groupId & g & Hgid & Hgg & Hgo).
    unfold in_group. rewrite Hgid.
    destruct (strict_eq (VNum groupId) (VNum id0)) eqn:E; [|reflexivity].
    simpl in E. apply Z.eqb_eq in E. subst groupId. congruence.
Qed.

(** An effect keeps every target in a group of its organization. *)
Lemma effect_keeps_targets_in_groups (o : Z) (s s' : MemStorage.state) :
  effect o s s' -> well_formed s ->
  targets_follow_groups s -> targets_follow_groups s'.
Proof.
  intros He Hwf HT id t Hget.
  unfold MemStorage.getTarget, MemStorage.getGroup in *.
  change (MemStorage.targets s') with (table KTarget s') in Hget.
  change (MemStorage.groups s') with (table KGroup s').
  pose proof (well_formed_table KGroup s Hwf) as Hig.
  pose proof (well_formed_table KTarget s Hwf) as Hit.
  destruct He as [k0 e0 _ _ _ Ho Htab Hother Htarget _
                 |k0 id0 old data now Hk0 Hold Ho Hd _ Htab Hother
                 |id0 old Hold Ho Hg Ht Hother].
  - destruct k0;
      try (rewrite Hother in Hget by discriminate;
           rewrite Hother by discriminate; exact (HT id t Hget)).
    + rewrite Hother in Hget by discriminate.
      destruct (HT id t Hget) as (groupId & g & Hgid & Hgg & Hgo).
      exists groupId, g. split; [exact Hgid|]. split; [|exact Hgo].
      rewrite Htab, Map_get_set_ne; [exact Hgg|].
      pose proof (Map_get_issued _ _ _ _ Hig Hgg). lia.
    + rewrite (Hother KGroup) by discriminate.
      rewrite Htab in Hget.
      destruct (Z.eq_dec id (MemStorage.currentId s)) as [->|Hid].
      * rewrite Map_get_set_eq in Hget. injection Hget as <-.
        destruct (Htarget eq_refl) as (groupId & Hgid & g & Hgg & Hgo).
        exists groupId, g. split; [exact Hgid|]. split; [exact Hgg|].
        congruence.
      * rewrite Map_get_set_ne in Hget by congruence. exact (HT id t Hget).
  - assert (Hkt : KTarget <> k0) by (destruct Hk0; subst; discriminate).
    rewrite (Hother KTarget Hkt) in Hget.
    destruct (HT id t Hget) as (groupId & g & Hgid & Hgg & Hgo).
    destruct Hk0 as [->| ->]; [|rewrite Hother by discriminate; eauto].
    rewrite Htab.
    destruct (Z.eq_dec groupId id0) as [->|Hid].
    + exists id0, (MemStorage.merged old data now).
      split; [exact Hgid|]. split; [apply Map_get_set_eq|].
      rewrite <- Hgo. unfold js_get at 1.
      rewrite merged_field by discriminate. rewrite Hd.
      simpl in Hold. unfold MemStorage.getGroup in Hgg.
      assert (old = g) as -> by congruence. reflexivity.
    + exists groupId, g. split; [exact Hgid|]. split; [|exact Hgo].
      rewrite Map_get_set_ne by congruence. exact Hgg.
  - rewrite Ht in Hget.
    pose proof (Map_get_In _ _ _ Hget) as Hin.
    apply filter_In in Hin as [_ Hout]. cbn [snd] in Hout.
    apply negb_true_iff in Hout.
    apply Map_get_filter_Some in Hget; [|apply Hit].
    destruct (HT id t Hget) as (groupId & g & Hgid & Hgg & Hgo).
    exists groupId, g. split; [exact Hgid|]. split; [|exact Hgo].
    rewrite Hg, Map_get_remove_ne; [exact Hgg|].
    intros ->. unfold in_group in Hout. rewrite Hgid in Hout.
    simpl in Hout. now rewrite Z.eqb_refl in Hout.
Qed.

Lemma names_own_kept (field : string) (fetch fetch' : Z -> option obj)
    (c : obj) :
  (forall id e, fetch id = Some e ->
     exists e', fetch' id = Some e'
                /\ js_get e' "organizationId" = js_get e "organizationId") ->
  names_own field fetch c -> names_own field fetch' c.
Proof.
  intros Hkeep (id & e & Hid & He & Ho).
  destruct (Hkeep id e He) as (e' & He' & Ho').
  exists id, e'. split; [exact Hid|]. split; [exact He'|congruence].
Qed.

(** An effect keeps what is stored under a key of a kind that has no
    deletion in it, up to an update that keeps the organization. *)
Lemma effect_keeps_resources (o : Z) (s s' : MemStorage.state)
    (k : entity_kind) (id : Z) (e : obj) :
  effect o s s' -> well_formed s ->
  k <> KGroup -> k <> KTarget ->
  Map_get id (table k s) = Some e ->
  exists e', Map_get id (table k s') = Some e'
             /\ js_get e' "organizationId" = js_get e "organizationId"
             /\ (k <> KEmailTemplate -> e' = e).
Proof.
  intros He Hwf Hkg Hkt Hget.
  pose proof (well_formed_table k s Hwf) as Hi.
  destruct He as [k0 e0 _ _ _ Ho Htab Hother _ _
                 |k0 id0 old data now Hk0 Hold Ho Hd _ Htab Hother
                 |id0 old Hold Ho Hg Ht Hother].
  - exists e. split; [|split; reflexivity].
    destruct (table_cases k k0) as [->|Hk]; [|now rewrite (Hother k Hk)].
    rewrite Htab, Map_get_set_ne; [exact Hget|].
    pose proof (Map_get_issued _ _ _ _ Hi Hget). lia.
  - destruct (table_cases k k0) as [->|Hk];
      [|exists e; rewrite (Hother k Hk); repeat split; exact Hget].
    rewrite Htab.
    destruct (Z.eq_dec id id0) as [->|Hid].
    + exists (MemStorage.merged old data now).
      split; [apply Map_get_set_eq|]. split.
      * unfold js_get at 1. rewrite merged_field by discriminate.
        rewrite Hd. unfold js_get. congruence.
      * intros Hke. destruct Hk0 as [->| ->]; congruence.
    + exists e. rewrite Map_get_set_ne by congruence. repeat split; exact Hget.
  - exists e. rewrite (Hother k Hkg Hkt). repeat split; exact Hget.
Qed.

(** An effect keeps, for every campaign, its SMTP profile, its email
    template and its landing page. *)
Lemma effect_keeps_campaign_resources (o : Z) (s s' : MemStorage.state) :
  effect o s s' -> well_formed s ->
  campaigns_keep_resources s -> campaigns_keep_resources s'.
Proof.
  intros He Hwf HC id c Hget.
  assert (Hkeep : forall k i e, k <> KGroup -> k <> KTarget ->
            Map_get i (table k s) = Some e ->
            exists e', Map_get i (table k s') = Some e'
              /\ js_get e' "organizationId" = js_get e "organizationId").
  { intros k i e H1 H2 H3.
    destruct (effect_keeps_resources o s s' k i e He Hwf H1 H2 H3)
      as (e' & ? & ? & _). eauto. }
  assert (Hold : MemStorage.getCampaign id s = Some c ->
            names_own "smtpProfileId"
              (fun i => MemStorage.getSmtpProfile i s') c
            /\ names_own "emailTemplateId"
                 (fun i => MemStorage.getEmailTemplate i s') c
            /\ names_own "landingPageId"
                 (fun i => MemStorage.getLandingPage i s') c).
  { intros Hc. destruct (HC id c Hc) as (H1 & H2 & H3).
    split; [|split].
    - eapply names_own_kept; [|exact H1].
      intros i e. apply (Hkeep KSmtpProfile); discriminate.
    - eapply names_own_kept; [|exact H2].
      intros i e. apply (Hkeep KEmailTemplate); discriminate.
    - eapply names_own_kept; [|exact H3].
      intros i e. apply (Hkeep KLandingPage); discriminate. }
  unfold MemStorage.getCampaign in *.
  change (MemStorage.campaigns s') with (table KCampaign s') in Hget.
  pose proof (well_formed_table KCampaign s Hwf) as Hi.
  destruct He as [k0 e0 _ _ _ Ho Htab Hother _ Hcampaign
                 |k0 id0 old data now Hk0 Hold' Ho Hd _ Htab Hother
                 |id0 old Hold' Ho Hg Ht Hother].
  - destruct (table_cases KCampaign k0) as [<-|Hk];
      [|rewrite (Hother _ Hk) in Hget; now apply Hold].
    rewrite Htab in Hget.
    destruct (Z.eq_dec id (MemStorage.currentId s)) as [->|Hid];
      [|rewrite Map_get_set_ne in Hget by congruence; now apply Hold].
    rewrite Map_get_set_eq in Hget. injection Hget as <-.
    destruct (Hcampaign eq_refl)
      as (_ & (i1 & Hi1 & x1 & Hx1 & Ho1) & (i2 & Hi2 & x2 & Hx2 & Ho2)
          & (i3 & Hi3 & x3 & Hx3 & Ho3)).
    split; [|split].
    + exists i1, x1. split; [exact Hi1|]. split; [|congruence].
      change (Map_get i1 (table KSmtpProfile s') = Some x1).
      rewrite Hother by discriminate. exact Hx1.
    + exists i2, x2. split; [exact Hi2|]. split; [|congruence].
      change (Map_get i2 (table KEmailTemplate s') = Some x2).
      rewrite Hother by discriminate. exact Hx2.
    + exists i3, x3. split; [exact Hi3|]. split; [|congruence].
      change (Map_get i3 (table KLandingPage s') = Some x3).
      rewrite Hother by discriminate. exact Hx3.
  - rewrite Hother in Hget by (destruct Hk0; subst; discriminate).
    now apply Hold.
  - rewrite Hother in Hget by discriminate. now apply Hold.
Qed.

(** An effect leaves every campaign a draft. *)
Lemma effect_keeps_drafts (o : Z) (s s' : MemStorage.state) :
  effect o s s' -> well_formed s -> all_drafts s -> all_drafts s'.
Proof.
  intros He Hwf HD id c Hget.
  unfold MemStorage.getCampaign in *.
  change (MemStorage.campaigns s') with (table KCampaign s') in Hget.
  destruct He as [k0 e0 _ _ _ Ho Htab Hother _ Hcampaign
                 |k0 id0 old data now Hk0 Hold' Ho Hd _ Htab Hother
                 |id0 old Hold' Ho Hg Ht Hother].
  - destruct (table_cases KCampaign k0) as [<-|Hk];
      [|rewrite (Hother _ Hk) in Hget; now apply (HD id)].
    rewrite Htab in Hget.
    destruct (Z.eq_dec id (MemStorage.currentId s)) as [->|Hid];
      [|rewrite Map_get_set_ne in Hget by congruence; now apply (HD id)].
    rewrite Map_get_set_eq in Hget. injection Hget as <-.
    apply (Hcampaign eq_refl).
  - rewrite Hother in Hget by (destruct Hk0; subst; discriminate).
    now apply (HD id).
  - rewrite Hother in Hget by discriminate. now apply (HD id).
Qed.

(** An effect keeps every entity under its [id]. *)
Lemma effect_keeps_ids (o : Z) (s s' : MemStorage.state) :
  effect o s s' -> well_formed s -> keys_are_ids s -> keys_are_ids s'.
Proof.
  intros He Hwf HI k id e Hget.
  pose proof (well_formed_table k s Hwf) as Hi.
  destruct He as [k0 e0 _ _ Hid Ho Htab Hother _ _
                 |k0 id0 old data now Hk0 Hold Ho Hd Hdi Htab Hother
                 |id0 old Hold Ho Hg Ht Hother].
  - destruct (table_cases k k0) as [->|Hk];
      [|rewrite (Hother k Hk) in Hget; now apply (HI k)].
    rewrite Htab in Hget.
    destruct (Z.eq_dec id (MemStorage.currentId s)) as [->|Hne].
    + rewrite Map_get_set_eq in Hget. now injection Hget as <-.
    + rewrite Map_get_set_ne in Hget by congruence. now apply (HI k0).
  - destruct (table_cases k k0) as [->|Hk];
      [|rewrite (Hother k Hk) in Hget; now apply (HI k)].
    rewrite Htab in Hget.
    destruct (Z.eq_dec id id0) as [->|Hne].
    + rewrite Map_get_set_eq in Hget. injection Hget as <-.
      unfold js_get. rewrite merged_field by discriminate. rewrite Hdi.
      apply (HI k0 id0 old Hold).
    + rewrite Map_get_set_ne in Hget by congruence. now apply (HI k0).
  - destruct (table_cases k KGroup) as [->|Hk].
    { rewrite Hg in Hget. apply Map_get_filter_Some in Hget; [|apply Hi].
      now apply (HI KGroup). }
    destruct (table_cases k KTarget) as [->|Hk'].
    { rewrite Ht in Hget. apply Map_get_filter_Some in Hget; [|apply Hi].
      now apply (HI KTarget). }
    rewrite (Hother k Hk Hk') in Hget. now apply (HI k).
Qed.

Lemma effect_consistent (o : Z) (s s' : MemStorage.state) :
  effect o s s' -> well_formed s' -> consistent s -> consistent s'.
Proof.
  intros He Hwf' (Hwf & HI & HT & HC). split; [exact Hwf'|].
  split; [now apply (effect_keeps_ids _ _ _ He)|].
  split; [now apply (effect_keeps_targets_in_groups _ _ _ He)|].
  now apply (effect_keeps_campaign_resources _ _ _ He).
Qed.

Lemma consistent_new : consistent MemStorage.new.
Proof.
  split; [apply well_formed_new|]. split; [|split].
  - intros k id e H. destruct k; discriminate H.
  - intros id t H. discriminate H.
  - intros id c H. discriminate H.
Qed.

Lemma permitted_all_consistent (o : Z) (s : MemStorage.state)
    (cs : list StorageCall) :
  permitted_all o s cs -> consistent s ->
  consistent (snd (MemCalls.perform_all cs s)).
Proof.
  induction 1 as [s|s c cs Hc Hcs IH]; intros Hs; [exact Hs|].
  rewrite perform_all_cons. apply IH.
  apply (effect_consistent o s); [|apply perform_well_formed|]; try apply Hs.
  apply permitted_effect; [exact Hc|apply Hs].
Qed.

Lemma handle_consistent (user : Routes.SessionUser) (r : Api.Request)
    (s : MemStorage.state) :
  consistent s -> consistent (snd (Api.handle user r s)).
Proof.
  intros Hs. destruct (handle_calls user r s) as (cs & -> & Hcs).
  now apply (permitted_all_consistent _ _ _ Hcs).
Qed.

Lemma serve_cons (user : Routes.SessionUser) (r : Api.Request)
    (requests : list (Routes.SessionUser * Api.Request))
    (s : MemStorage.state) :
  serve ((user, r) :: requests) s = serve requests (snd (Api.handle user r s)).
Proof. reflexivity. Qed.

(** X8.  Whatever requests the handlers of [server/routes.ts] serve, and
    for whichever users, a consistent store stays consistent: the keys of
    each map are distinct and below the counter, every entity is stored
    under its own [id], every target names a group that is in the store
    and has the target's organization, and every campaign names an SMTP
    profile, an email template and a landing page that are in the store
    and have the campaign's organization.  The requests are served one
    after another, each to its end. *)
Theorem requests_keep_the_store_consistent
    (requests : list (Routes.SessionUser * Api.Request))
    (s : MemStorage.state) :
  consistent s -> consistent (serve requests s).
Proof.
  revert s. induction requests as [|[user r] requests IH]; intros s Hs.
  - exact Hs.
  - rewrite serve_cons. apply IH.
    destruct (handle_calls user r s) as (cs & -> & Hcs).
    clear IH. induction Hcs as [s|s c cs Hc Hcs IHcs]; [exact Hs|].
    rewrite perform_all_cons. apply IHcs.
    destruct Hs as (Hwf & HI & HT & HC).
    pose proof (permitted_effect _ _ _ Hc Hwf) as He.
    split; [now apply perform_well_formed|].
    split; [now apply (effect_keeps_ids _ _ _ He)|].
    split; [now apply (effect_keeps_targets_in_groups _ _ _ He)|].
    now apply (effect_keeps_campaign_resources _ _ _ He).
Qed.

Lemma requests_keep_the_store_consistent_witness :
  consistent MemStorage.new
  /\ consistent (serve composing MemStorage.new)
  /\ is_Some (MemStorage.getCampaign 5 (serve composing MemStorage.new)).
Proof.
  split; [exact consistent_new|]. split.
  - apply (requests_keep_the_store_consistent composing MemStorage.new).
    exact consistent_new.
  - eexists. reflexivity.
Defined.

Lemma two_tenants_consistent : consistent two_tenants.
Proof.
  unfold two_tenants, two_tenants_at_work. rewrite !serve_cons.
  repeat apply handle_consistent. exact consistent_new.
Qed.

(** ** Requests and the entities of other organizations *)

Lemma permitted_all_spare (o : Z) (s : MemStorage.state)
    (cs : list StorageCall) (k : entity_kind) (id : Z) (e : obj) :
  permitted_all o s cs -> consistent s ->
  Map_get id (table k s) = Some e ->
  js_get e "organizationId" <> VNum o ->
  Map_get id (table k (snd (MemCalls.perform_all cs s))) = Some e.
Proof.
  induction 1 as [s|s c cs Hc Hcs IH]; intros Hs Hget Hne; [exact Hget|].
  rewrite perform_all_cons.
  pose proof (permitted_effect _ _ _ Hc (proj1 Hs)) as He.
  apply IH; trivial.
  - apply (effect_consistent o s); trivial.
    apply perform_well_formed, Hs.
  - destruct Hs as (Hwf & _ & HT & _).
    now apply (effect_spares_others o s).
Qed.

Lemma permitted_keeps_the_rest (o : Z) (s : MemStorage.state)
    (c : StorageCall) :
  permitted o s c ->
  MemStorage.users (snd (MemCalls.perform c s)) = MemStorage.users s
  /\ MemStorage.organizations (snd (MemCalls.perform c s))
     = MemStorage.organizations s
  /\ MemStorage.campaignResults (snd (MemCalls.perform c s))
     = MemStorage.campaignResults s.
Proof.
  intros Hp.
  destruct Hp as [g now|id data now [old [Hold Ho]] Hf|id [old [Hold Ho]]
                 |groupId t now Hg|p now|userId t now
                 |id data now [old [Hold Ho]] Hf|userId p now
                 |userId c now Hg Hp He Hl];
    try (repeat split; reflexivity).
  - cbn [MemCalls.perform MemCalls.maybe snd].
    unfold MemStorage.updateGroup. unfold MemStorage.getGroup in Hold.
    rewrite Hold. repeat split; reflexivity.
  - cbn [MemCalls.perform MemCalls.maybe snd].
    unfold MemStorage.updateEmailTemplate.
    unfold MemStorage.getEmailTemplate in Hold.
    rewrite Hold. repeat split; reflexivity.
Qed.

Lemma permitted_all_keep_the_rest (o : Z) (s : MemStorage.state)
    (cs : list StorageCall) :
  permitted_all o s cs ->
  MemStorage.users (snd (MemCalls.perform_all cs s)) = MemStorage.users s
  /\ MemStorage.organizations (snd (MemCalls.perform_all cs s))
     = MemStorage.organizations s
  /\ MemStorage.campaignResults (snd (MemCalls.perform_all cs s))
     = MemStorage.campaignResults s.
Proof.
  induction 1 as [s|s c cs Hc Hcs IH]; [repeat split; reflexivity|].
  rewrite perform_all_cons.
  destruct (permitted_keeps_the_rest _ _ _ Hc) as (H1 & H2 & H3).
  destruct IH as (IH1 & IH2 & IH3). repeat split; congruence.
Qed.

(** X9.  In a consistent store, requests made by users of one
    organization leave every entity of another organization as it was,
    under its id: no group, target, SMTP profile, email template,
    landing page or campaign of another organization is changed or
    deleted, whatever the ids and the bodies of the requests.  Nor does
    any request change a user, an organization or a campaign result. *)
Theorem requests_spare_other_organizations (o : Z)
    (requests : list (Routes.SessionUser * Api.Request))
    (s : MemStorage.state) :
  consistent s ->
  (forall user r, In (user, r) requests -> Routes.su_organizationId user = o) ->
  (forall k id e,
     Map_get id (table k s) = Some e ->
     js_get e "organizationId" <> VNum o ->
     Map_get id (table k (serve requests s)) = Some e)
  /\ MemStorage.users (serve requests s) = MemStorage.users s
  /\ MemStorage.organizations (serve requests s) = MemStorage.organizations s
  /\ MemStorage.campaignResults (serve requests s)
     = MemStorage.campaignResults s.
Proof.
  revert s. induction requests as [|[user r] requests IH]; intros s Hs Ho.
  - repeat split; trivial.
  - rewrite serve_cons.
    assert (Hu : Routes.su_organizationId user = o)
      by (apply (Ho user r); now left).
    destruct (handle_calls user r s) as (cs & E & Hcs). rewrite Hu in Hcs.
    pose proof (permitted_all_consistent _ _ _ Hcs Hs) as Hs1.
    destruct (permitted_all_keep_the_rest _ _ _ Hcs) as (H1 & H2 & H3).
    rewrite <- E in Hs1, H1, H2, H3.
    destruct (IH _ Hs1) as (IHe & IH1 & IH2 & IH3).
    { intros user' r' Hin. apply (Ho user' r'). now right. }
    split; [|repeat split; congruence].
    intros k id e Hget Hne. apply IHe; [|exact Hne].
    rewrite E. now apply (permitted_all_spare o).
Qed.

Lemma requests_spare_other_organizations_witness :
  consistent two_tenants
  /\ (forall user r,
        In (user, r) [(user_of_7, Api.DELETE_groups_id 1);
                      (user_of_7, Api.DELETE_groups_id 3);
                      (user_of_7, Api.PUT_groups_id 3 staff_body 9)] ->
        Routes.su_organizationId user = 7)
  /\ (forall k id e,
        Map_get id (table k two_tenants) = Some e ->
        js_get e "organizationId" <> VNum 7 ->
        Map_get id
          (table k
             (serve [(user_of_7, Api.DELETE_groups_id 1);
                     (user_of_7, Api.DELETE_groups_id 3);
                     (user_of_7, Api.PUT_groups_id 3 staff_body 9)]
                two_tenants))
        = Some e).
Proof.
  assert (H7 : forall user r,
            In (user, r) [(user_of_7, Api.DELETE_groups_id 1);
                          (user_of_7, Api.DELETE_groups_id 3);
                          (user_of_7, Api.PUT_groups_id 3 staff_body 9)] ->
            Routes.su_organizationId user = 7).
  { intros user r [[= <- <-]|[[= <- <-]|[[= <- <-]|[]]]]; reflexivity. }
  split; [exact two_tenants_consistent|]. split; [exact H7|].
  apply (requests_spare_other_organizations 7 _ two_tenants
           two_tenants_consistent H7).
Defined.

(** ** Requests and the organization of an entity *)

Lemma serve_calls (requests : list (Routes.SessionUser * Api.Request))
    (s : MemStorage.state) :
  exists cs,
    serve requests s = snd (MemCalls.perform_all cs s)
    /\ Forall keeps_organization cs.
Proof.
  revert s. induction requests as [|[user r] requests IH]; intros s.
  - exists []. split; [reflexivity|constructor].
  - rewrite serve_cons.
    destruct (handle_calls user r s) as (cs1 & E1 & H1).
    destruct (IH (snd (Api.handle user r s))) as (cs2 & E2 & H2).
    exists (cs1 ++ cs2)%list. split.
    + now rewrite perform_all_app, <- E1.
    + apply Forall_app. split; [|exact H2].
      now apply (permitted_all_keep_organization _ _ _ H1).
Qed.

(** X10.  Whatever requests are served, for whichever users and with
    whatever bodies, an entity that is in a well formed store keeps its
    [organizationId] as long as it is there, a [PUT] whose body supplies
    another [organizationId] included; and an id below the counter under
    which nothing is stored stays free: no request brings a deleted id
    back. *)
Theorem requests_never_move_an_entity
    (requests : list (Routes.SessionUser * Api.Request))
    (s : MemStorage.state) (k : entity_kind) (id : Z) :
  well_formed s ->
  id < MemStorage.currentId s ->
  match Map_get id (table k s) with
  | Some e =>
      forall e',
        Map_get id (table k (serve requests s)) = Some e' ->
        js_get e' "organizationId" = js_get e "organizationId"
  | None => Map_get id (table k (serve requests s)) = None
  end.
Proof.
  intros Hwf Hlt.
  destruct (serve_calls requests s) as (cs & -> & Hcs).
  now apply organization_is_stable.
Qed.

Lemma two_tenants_well_formed : well_formed two_tenants.
Proof. apply two_tenants_consistent. Qed.

Lemma requests_never_move_an_entity_witness :
  well_formed two_tenants
  /\ 1 < MemStorage.currentId two_tenants
  /\ match Map_get 1 (table KGroup two_tenants) with
     | Some e =>
         forall e',
           Map_get 1
             (table KGroup
                (serve [(user_of_7, Api.PUT_groups_id 1 moving_body 9)]
                   two_tenants))
           = Some e' ->
           js_get e' "organizationId" = js_get e "organizationId"
     | None =>
         Map_get 1
           (table KGroup
              (serve [(user_of_7, Api.PUT_groups_id 1 moving_body 9)]
                 two_tenants))
         = None
     end.
Proof.
  assert (Hlt : 1 < MemStorage.currentId two_tenants) by reflexivity.
  split; [exact two_tenants_well_formed|]. split; [exact Hlt|].
  apply (requests_never_move_an_entity
           [(user_of_7, Api.PUT_groups_id 1 moving_body 9)]
           two_tenants KGroup 1 two_tenants_well_formed Hlt).
Defined.

(** ** Campaigns through the routes *)

Lemma filter_none {A : Type} (f : A -> bool) (l : list A) :
  (forall x, In x l -> f x = false) -> List.filter f l = [].
Proof.
  induction l as [|a l IH]; simpl; intros H; [reflexivity|].
  rewrite (H a) by now left. apply IH. intros x Hx. apply H. now right.
Qed.

Lemma handle_keeps_drafts (user : Routes.SessionUser) (r : Api.Request)
    (s : MemStorage.state) :
  well_formed s -> all_drafts s ->
  well_formed (snd (Api.handle user r s))
  /\ all_drafts (snd (Api.handle user r s)).
Proof.
  intros Hwf HD. destruct (handle_calls user r s) as (cs & -> & Hcs).
  induction Hcs as [s|s c cs Hc Hcs IH]; [now split|].
  rewrite perform_all_cons. apply IH; [now apply perform_well_formed|].
  apply (effect_keeps_drafts (Routes.su_organizationId user) s); trivial.
  now apply permitted_effect.
Qed.

(** X11.  No request makes a campaign anything but a draft: when every
    campaign of a well formed store has the status [Draft], so it is
    after any requests, and the dashboard then counts no active campaign
    for any organization. *)
Theorem campaigns_stay_drafts
    (requests : list (Routes.SessionUser * Api.Request))
    (s : MemStorage.state) :
  well_formed s -> all_drafts s ->
  all_drafts (serve requests s)
  /\ forall o,
       activeCampaigns (MemStorage.getDashboardStats o (serve requests s))
       = 0%nat.
Proof.
  intros Hwf HD.
  assert (H : well_formed (serve requests s) /\ all_drafts (serve requests s)).
  { revert s Hwf HD. induction requests as [|[user r] requests IH];
      intros s Hwf HD; [now split|].
    rewrite serve_cons.
    destruct (handle_keeps_drafts user r s Hwf HD) as [Hwf1 HD1].
    now apply IH. }
  destruct H as [Hwf' HD']. split; [exact HD'|].
  intros o. unfold MemStorage.getDashboardStats. cbn [activeCampaigns].
  rewrite filter_none; [reflexivity|].
  intros c Hin. unfold Map_values in Hin.
  apply in_map_iff in Hin as [[id c'] [E Hin]]. simpl in E. subst c'.
  apply In_Map_get in Hin; [|apply (well_formed_table KCampaign _ Hwf')].
  rewrite (HD' id c Hin). apply andb_false_r.
Qed.

Lemma campaigns_stay_drafts_witness :
  well_formed MemStorage.new
  /\ all_drafts MemStorage.new
  /\ is_Some (MemStorage.getCampaign 5 (serve composing MemStorage.new))
  /\ all_drafts (serve composing MemStorage.new)
  /\ activeCampaigns
       (MemStorage.getDashboardStats 7 (serve composing MemStorage.new))
     = 0%nat.
Proof.
  assert (HD : all_drafts MemStorage.new) by (intros id c H; discriminate H).
  split; [exact well_formed_new|]. split; [exact HD|].
  split; [eexists; reflexivity|].
  destruct (campaigns_stay_drafts composing MemStorage.new well_formed_new HD)
    as [H1 H2].
  split; [exact H1|exact (H2 7)].
Defined.

(** ** Requests that are refused *)

(** X12.  A request that is answered with a status of 400 or more leaves
    the store as it was: whichever the route, a body that fails
    validation, an id that names nothing or a resource of another
    organization, a missing file or a CSV text the parser reports errors
    for changes nothing. *)
Theorem refused_requests_change_nothing (user : Routes.SessionUser)
    (r : Api.Request) (s : MemStorage.state) :
  400 <= status_of (fst (Api.handle user r s)) ->
  snd (Api.handle user r s) = s.
Proof.
  intros H.
  destruct r; cbn [Api.handle fst snd status_of] in *; try reflexivity.
  - unfold Api.postGroup in *.
    destruct (insertGroupSchema_parse body); [|reflexivity].
    destruct (MemStorage.createGroup _ _ _ _). cbn in H. lia.
  - unfold Api.putGroup in *.
    destruct (Routes.check_access _ _); try reflexivity.
    destruct (insertGroupSchema_parse body); [|reflexivity].
    destruct (MemStorage.updateGroup _ _ _ _). cbn in H. lia.
  - unfold Routes.deleteGroupRoute in *.
    destruct (Routes.check_access _ _); try reflexivity.
    destruct (MemStorage.deleteGroup _ _). cbn in H. lia.
  - unfold Api.postTarget in *.
    destruct (Routes.check_access _ _); try reflexivity.
    destruct (insertTargetSchema_parse body); [|reflexivity].
    destruct (MemStorage.createTarget _ _ _ _ _). cbn in H. lia.
  - unfold Routes.importTargets in *.
    destruct (Routes.check_access _ _); try reflexivity.
    destruct file as [csv|]; [|reflexivity].
    destruct (Nat.ltb 0 _); [reflexivity|].
    destruct (Routes.importRows _ _ _ _ _) as [[imported errors] s'].
    cbn in H. lia.
  - unfold Api.postSmtpProfile in *.
    destruct (insertSmtpProfileSchema_parse body); [|reflexivity].
    destruct (MemStorage.createSmtpProfile _ _ _ _). cbn in H. lia.
  - unfold Api.postEmailTemplate in *.
    destruct (insertEmailTemplateSchema_parse body); [|reflexivity].
    destruct (MemStorage.createEmailTemplate _ _ _ _ _). cbn in H. lia.
  - unfold Api.putEmailTemplate in *.
    destruct (Routes.check_access _ _); try reflexivity.
    destruct (insertEmailTemplateSchema_parse body); [|reflexivity].
    destruct (MemStorage.updateEmailTemplate _ _ _ _). cbn in H. lia.
  - unfold Api.postLandingPage in *.
    destruct (insertLandingPageSchema_parse body); [|reflexivity].
    destruct (MemStorage.createLandingPage _ _ _ _ _). cbn in H. lia.
  - unfold Routes.postCampaign in *.
    destruct (insertCampaignSchema_parse body); [|reflexivity].
    repeat (destruct (Routes.check_access _ _); try reflexivity).
    destruct (MemStorage.createCampaign _ _ _ _ _). cbn in H. lia.
Qed.

Lemma refused_requests_change_nothing_witness :
  400 <= status_of (fst (Api.handle user_of_7 (Api.DELETE_groups_id 3)
                           two_tenants))
  /\ snd (Api.handle user_of_7 (Api.DELETE_groups_id 3) two_tenants)
     = two_tenants.
Proof.
  assert (H : 400 <= status_of (fst (Api.handle user_of_7
                                       (Api.DELETE_groups_id 3) two_tenants))).
  { intros E. vm_compute in E. discriminate E. }
  split; [exact H|].
  exact (refused_requests_change_nothing user_of_7 (Api.DELETE_groups_id 3)
           two_tenants H).
Defined.

(** ** The campaign form and [POST /api/campaigns] *)

Lemma nonempty_string_inv (v : value) :
  nonempty_string v = true -> exists s, v = VStr s.
Proof. destruct v; try discriminate. eauto. Qed.

(** X13.  Whatever values the schema of the client's campaign form
    accepts, the data it hands on, posted as the body, is refused by
    [POST /api/campaigns] with 400 and the store is left as it was: the
    form's schema wants the four ids as strings, the server's wants them
    as numbers, and it reports each of them. *)
Theorem form_submissions_are_refused (values : obj)
    (user : Routes.SessionUser) (now : Z) (s : MemStorage.state) :
  campaignSchema_accepts values = true ->
  exists errors,
    Routes.postCampaign user (campaignSchema_data values) now s
    = (Routes.respond 400
         (Routes.ValidationFailure "Validation error" errors), s)
    /\ forall field,
         In field ["targetGroupId"; "smtpProfileId"; "emailTemplateId";
                   "landingPageId"] ->
         In (invalid_type "number" field (js_get values field)) errors.
Proof.
  unfold campaignSchema_accepts. rewrite !andb_true_iff.
  intros ((((((Hn & Hg) & Hp) & Ht) & Hl) & _) & _).
  assert (Hfield : forall f,
            In f ["name"; "targetGroupId"; "smtpProfileId"; "emailTemplateId";
                  "landingPageId"; "scheduledAt"; "endDate"] ->
            js_get (campaignSchema_data values) f = js_get values f).
  { intros f Hf. unfold js_get, campaignSchema_data.
    now rewrite picked_field. }
  apply nonempty_string_inv in Hg as [g Hg], Hp as [p Hp], Ht as [t Ht],
    Hl as [l Hl].
  unfold Routes.postCampaign, insertCampaignSchema_parse.
  match goal with
  | |- context [match ?l with [] => _ | _ :: _ => _ end] =>
      assert (Hin : forall field,
                In field ["targetGroupId"; "smtpProfileId"; "emailTemplateId";
                          "landingPageId"] ->
                In (invalid_type "number" field (js_get values field)) l);
      [|destruct l as [|i0 l0]]
  end.
  - intros field Hf. rewrite !in_app_iff. unfold required_number.
    rewrite !Hfield by (simpl; tauto). rewrite Hg, Hp, Ht, Hl.
    destruct Hf as [<-|[<-|[<-|[<-|[]]]]]; rewrite ?Hg, ?Hp, ?Ht, ?Hl;
      simpl; auto 10.
  - destruct (Hin "targetGroupId"). simpl. tauto.
  - eexists. split; [reflexivity|exact Hin].
Qed.

Lemma form_submissions_are_refused_witness :
  campaignSchema_accepts filled_form = true
  /\ exists errors,
       Routes.postCampaign user_of_7 (campaignSchema_data filled_form) 9
         (serve composing MemStorage.new)
       = (Routes.respond 400
            (Routes.ValidationFailure "Validation error" errors),
          serve composing MemStorage.new).
Proof.
  split; [reflexivity|].
  destruct (form_submissions_are_refused filled_form user_of_7 9
              (serve composing MemStorage.new) eq_refl) as (errors & E & _).
  exists errors. exact E.
Defined.

(** X14.  A body that came as JSON holds no [Date], so the validator
    accepts it only without [scheduledAt] and [endDate], or with [null]
    for them: every campaign that [POST /api/campaigns] creates from such
    a body is a draft whose [scheduledAt] and [endDate] are [null]. *)
Theorem posted_campaigns_have_no_schedule (user : Routes.SessionUser)
    (body : obj) (now : Z) (s s' : MemStorage.state) (a : Routes.Response) :
  json_body body ->
  Routes.postCampaign user body now s = (a, s') ->
  Routes.status a = 201 ->
  exists c,
    Routes.body a = Routes.Json c
    /\ MemStorage.getCampaign (MemStorage.currentId s) s' = Some c
    /\ js_get c "status" = VStr "Draft"
    /\ js_get c "scheduledAt" = VNull
    /\ js_get c "endDate" = VNull
    /\ js_get c "organizationId" = VNum (Routes.su_organizationId user)
    /\ js_get c "createdById" = VNum (Routes.su_id user).
Proof.
  intros Hjson E H201.
  assert (Hdate : forall f,
            optional_date body f = [] -> the_opt_date body f = None).
  { intros f. unfold optional_date, the_opt_date, js_get.
    destruct (body !! f) as [v|] eqn:Hv; simpl; [|reflexivity].
    specialize (Hjson f v Hv). now destruct v. }
  unfold Routes.postCampaign, insertCampaignSchema_parse in E.
  destruct (required_string body "name" ++ _)%list as [|i0 l0] eqn:Hissues;
    [|injection E as <- <-; discriminate H201].
  apply app_eq_nil in Hissues as [_ Hissues].
  apply app_eq_nil in Hissues as [_ Hissues].
  apply app_eq_nil in Hissues as [_ Hissues].
  apply app_eq_nil in Hissues as [_ Hissues].
  apply app_eq_nil in Hissues as [_ Hissues].
  apply app_eq_nil in Hissues as [Hs He].
  rewrite (Hdate _ Hs), (Hdate _ He) in E.
  repeat match type of E with
         | context [match Routes.check_access ?u ?f with _ => _ end] =>
             destruct (Routes.check_access u f);
             try (injection E as <- <-; discriminate H201)
         end.
  injection E as <- <-.
  eexists. split; [reflexivity|].
  split; [apply Map_get_set_eq|]. repeat split; reflexivity.
Qed.

Lemma posted_campaigns_have_no_schedule_witness :
  json_body campaign_body
  /\ exists c,
       Routes.body
         (fst (Routes.postCampaign user_of_7 campaign_body 6
                 (serve (firstn 4 composing) MemStorage.new)))
       = Routes.Json c
       /\ js_get c "scheduledAt" = VNull.
Proof.
  assert (Hjson : json_body campaign_body).
  { intros k v H. unfold campaign_body, js_object in H.
    cbn [fold_left fst snd] in H.
    repeat (apply lookup_insert_Some in H as [[_ <-]|[_ H]]; [reflexivity|]).
    discriminate H. }
  split; [exact Hjson|].
  destruct (posted_campaigns_have_no_schedule user_of_7 campaign_body 6
              (serve (firstn 4 composing) MemStorage.new)
              (snd (Routes.postCampaign user_of_7 campaign_body 6
                      (serve (firstn 4 composing) MemStorage.new)))
              (fst (Routes.postCampaign user_of_7 campaign_body 6
                      (serve (firstn 4 composing) MemStorage.new)))
              Hjson)
    as (c & Hc & _ & _ & Hsched & _).
  - now destruct (Routes.postCampaign _ _ _ _).
  - reflexivity.
  - exists c. split; [exact Hc|exact Hsched].
Defined.

(** ** The recent campaigns *)

Lemma insert_by_Permutation (compare : obj -> obj -> Z) (x : obj)
    (l : list obj) :
  Permutation (Api.insert_by compare x l) (x :: l).
Proof.
  induction l as [|y l IH]; simpl; [reflexivity|].
  destruct (Z.leb (compare x y) 0); [reflexivity|].
  rewrite IH. apply perm_swap.
Qed.

Lemma sort_by_Permutation (compare : obj -> obj -> Z) (l : list obj) :
  Permutation (Api.sort_by compare l) l.
Proof.
  induction l as [|x l IH]; simpl; [reflexivity|].
  rewrite insert_by_Permutation. now constructor.
Qed.

Lemma newest_first_le (a b : obj) :
  Z.leb (Api.newest_first a b) 0 = true <-> no_older a b.
Proof.
  unfold Api.newest_first, no_older, created. rewrite Z.leb_le. lia.
Qed.

Lemma insert_by_sorted (x : obj) (l : list obj) :
  StronglySorted no_older l ->
  StronglySorted no_older (Api.insert_by Api.newest_first x l).
Proof.
  induction l as [|y l IH]; simpl; intros Hs.
  - repeat constructor.
  - apply StronglySorted_inv in Hs as [Hl Hy].
    destruct (Z.leb (Api.newest_first x y) 0) eqn:E.
    + apply newest_first_le in E.
      constructor; [now constructor|]. constructor; [exact E|].
      rewrite List.Forall_forall in *. intros z Hz. specialize (Hy z Hz).
      unfold no_older in *. lia.
    + assert (Hxy : no_older y x).
      { unfold no_older. destruct (Z.le_gt_cases (created x) (created y))
          as [H|H]; [exact H|].
        assert (no_older x y) as H' by (unfold no_older; lia).
        apply newest_first_le in H'. congruence. }
      constructor; [now apply IH|].
      rewrite List.Forall_forall in *. intros z Hz.
      apply (Permutation_in _ (insert_by_Permutation _ x l)) in Hz.
      destruct Hz as [<-|Hz]; [exact Hxy|now apply Hy].
Qed.

Lemma sort_by_sorted (l : list obj) :
  StronglySorted no_older (Api.sort_by Api.newest_first l).
Proof.
  induction l as [|x l IH]; simpl; [constructor|].
  now apply insert_by_sorted.
Qed.

Lemma insert_by_stable (t : Z) (x : obj) (l : list obj) :
  List.filter (created_at t) (Api.insert_by Api.newest_first x l)
  = List.filter (created_at t) (x :: l).
Proof.
  induction l as [|y l IH]; [reflexivity|].
  cbn [Api.insert_by].
  destruct (Z.leb (Api.newest_first x y) 0) eqn:E; [reflexivity|].
  cbn [List.filter] in *. rewrite IH.
  destruct (created_at t x) eqn:Hx; [|reflexivity].
  destruct (created_at t y) eqn:Hy; [|reflexivity].
  unfold created_at in *. apply Z.eqb_eq in Hx, Hy.
  assert (no_older x y) as H by (unfold no_older; lia).
  apply newest_first_le in H. congruence.
Qed.

Lemma sort_by_stable (t : Z) (l : list obj) :
  List.filter (created_at t) (Api.sort_by Api.newest_first l)
  = List.filter (created_at t) l.
Proof.
  induction l as [|x l IH]; [reflexivity|].
  cbn [Api.sort_by]. rewrite insert_by_stable. cbn [List.filter].
  now rewrite IH.
Qed.

Lemma summaries_fields (mock : nat -> Z) (index : nat) (l : list obj) :
  List.map (fun x => (js_get x "id", js_get x "name", js_get x "status",
                      js_get x "createdAt"))
           (Api.summaries mock index l)
  = List.map (fun c => (js_get c "id", js_get c "name", js_get c "status",
                        js_get c "createdAt")) l.
Proof.
  revert index. induction l as [|c l IH]; intros index; [reflexivity|].
  cbn [Api.summaries List.map]. now rewrite IH.
Qed.

(** X15.  Let the campaigns of the caller's organization have a [Date]
    for [createdAt].  [GET /api/campaigns/recent] answers with them
    sorted by the time they were created at, newest first, campaigns of
    the same time in the order the store lists them, cut after the
    fifth: at most five entries, which carry the [id], [name], [status]
    and [createdAt] of campaigns of the organization, in that order, and
    no campaign that is left out is newer than one that is shown. *)
Theorem recent_campaigns (user : Routes.SessionUser) (mock : nat -> Z)
    (s : MemStorage.state) :
  Forall dated (MemStorage.listCampaigns (Routes.su_organizationId user) s) ->
  let all := MemStorage.listCampaigns (Routes.su_organizationId user) s in
  let sorted := Api.sort_by Api.newest_first all in
  Permutation sorted all
  /\ StronglySorted no_older sorted
  /\ (forall t, List.filter (created_at t) sorted
                = List.filter (created_at t) all)
  /\ (forall c, In c all -> js_get c "createdAt" = VDate (created c))
  /\ exists shown,
       Api.getRecentCampaigns user mock s
       = Routes.respond 200 (Routes.JsonList shown)
       /\ length shown = Nat.min 5 (length all)
       /\ List.map (fun x => (js_get x "id", js_get x "name",
                              js_get x "status", js_get x "createdAt")) shown
          = List.map (fun c => (js_get c "id", js_get c "name",
                                js_get c "status", js_get c "createdAt"))
                     (firstn 5 sorted)
       /\ (forall c, In c (firstn 5 sorted) ->
             In c all
             /\ js_get c "organizationId"
                = VNum (Routes.su_organizationId user))
       /\ (forall c c', In c (firstn 5 sorted) -> In c' (skipn 5 sorted) ->
             no_older c c').
Proof.
  intros Hdated all sorted.
  pose proof (sort_by_Permutation Api.newest_first all) as Hperm.
  pose proof (sort_by_sorted all) as Hsorted.
  fold sorted in Hperm, Hsorted.
  split; [exact Hperm|]. split; [exact Hsorted|].
  split; [intros t; apply sort_by_stable|].
  split.
  { intros c Hc. rewrite List.Forall_forall in Hdated.
    destruct (Hdated c Hc) as [t Ht]. unfold created. now rewrite Ht. }
  exists (Api.summaries mock 0 (firstn 5 sorted)).
  split; [reflexivity|]. split; [|split; [apply summaries_fields|split]].
  - transitivity (length (firstn 5 sorted)).
    + pose proof (f_equal (@length _)
                    (summaries_fields mock 0 (firstn 5 sorted))) as H.
      now rewrite !length_map in H.
    + rewrite length_firstn. now rewrite (Permutation_length Hperm).
  - intros c Hc.
    assert (Hin : In c sorted).
    { rewrite <- (firstn_skipn 5 sorted). apply in_or_app. now left. }
    clear Hc. rename Hin into Hc.
    apply (Permutation_in _ Hperm) in Hc. split; [exact Hc|].
    now apply filter_scoped in Hc.
  - intros c c' Hc Hc'.
    rewrite <- (firstn_skipn 5 sorted) in Hsorted.
    clear Hperm. revert Hsorted Hc.
    generalize (firstn 5 sorted) as front. intros front.
    induction front as [|a front IH]; simpl; intros Hs Hc; [contradiction|].
    apply StronglySorted_inv in Hs as [Hs Ha].
    destruct Hc as [<-|Hc]; [|now apply IH].
    rewrite List.Forall_forall in Ha. apply Ha. apply in_or_app. now right.
Qed.

Lemma recent_campaigns_witness :
  Forall dated (MemStorage.listCampaigns 7 running_store)
  /\ exists shown,
       Api.getRecentCampaigns user_of_7 (fun _ => 40) running_store
       = Routes.respond 200 (Routes.JsonList shown)
       /\ length shown = 1%nat.
Proof.
  assert (Hd : Forall dated (MemStorage.listCampaigns 7 running_store)).
  { repeat constructor. eexists. reflexivity. }
  split; [exact Hd|].
  destruct (recent_campaigns user_of_7 (fun _ => 40) running_store Hd)
    as (_ & _ & _ & _ & shown & Hanswer & Hlen & _).
  exists shown. split; [exact Hanswer|exact Hlen].
Defined.

(** ** Changing and deleting a group *)

Lemma check_access_cases (user : Routes.SessionUser) (g : obj) :
  Routes.check_access user (Some g)
  = if decide (js_get g "organizationId"
               = VNum (Routes.su_organizationId user))
    then Routes.Owned g else Routes.Foreign.
Proof.
  unfold Routes.check_access.
  destruct (decide _) as [E|E].
  - apply strict_eq_num in E. now rewrite E.
  - destruct (strict_eq _ _) eqn:E'; [|reflexivity].
    apply strict_eq_num in E'. contradiction.
Qed.


Lemma joined_In (mock : nat -> Z) (index : nat) (l : list obj)
    (s : MemStorage.state) (x : obj) :
  In x (Api.joined mock index l s) ->
  exists c,
    In c l
    /\ js_get x "targetGroupId" = js_get c "targetGroupId"
    /\ js_get x "organizationId" = js_get c "organizationId"
    /\ js_get x "id" = js_get c "id"
    /\ js_get x "targetGroup" = Api.group_name (Api.group_of c s)
    /\ js_get x "totalTargets"
       = VNum (Z.of_nat
                 (length (List.filter (in_group (js_get c "targetGroupId"))
                            (Map_values (MemStorage.targets s))))).
Proof.
  revert index. induction l as [|c l IH]; intros index Hin; [contradiction|].
  destruct Hin as [<-|Hin].
  - exists c. split; [now left|].
    repeat split;
      repeat (rewrite js_get_insert_ne by discriminate);
      try reflexivity; apply js_get_insert_eq.
  - destruct (IH _ Hin) as (c' & Hc' & H). exists c'.
    split; [now right|exact H].
Qed.

Lemma joined_length (mock : nat -> Z) (index : nat) (l : list obj)
    (s : MemStorage.state) :
  length (Api.joined mock index l s) = length l.
Proof.
  revert index. induction l as [|c l IH]; intros index; [reflexivity|].
  cbn [Api.joined length]. now rewrite IH.
Qed.

(** X17.  [DELETE /api/groups/:id] on a group of the caller's
    organization answers 204 and deletes the group and its targets
    whether or not a campaign names the group.  The campaigns stay as
    they were; [GET /api/groups/:id/targets] then answers 404, and
    [GET /api/campaigns] shows every campaign that names the group with
    the target group [Unknown] and no targets. *)
Theorem deleted_group_in_campaigns (user : Routes.SessionUser) (id : Z)
    (mock : nat -> Z) (s : MemStorage.state) :
  owned_by (Routes.su_organizationId user) (MemStorage.getGroup id s) ->
  exists s' shown,
    Routes.deleteGroupRoute user id s = (Routes.respond 204 Routes.Empty, s')
    /\ MemStorage.campaigns s' = MemStorage.campaigns s
    /\ Routes.getGroupTargets user id s'
       = Routes.respond 404 (Routes.Message "Group not found")
    /\ Api.getCampaigns user mock s'
       = Routes.respond 200 (Routes.JsonList shown)
    /\ length shown
       = length (MemStorage.listCampaigns (Routes.su_organizationId user) s)
    /\ forall x,
         In x shown -> js_get x "targetGroupId" = VNum id ->
         js_get x "targetGroup" = VStr "Unknown"
         /\ js_get x "totalTargets" = VNum 0.
Proof.
  intros (g & Hg & Ho).
  exists (snd (MemStorage.deleteGroup id s)),
    (Api.joined mock 0
       (MemStorage.listCampaigns (Routes.su_organizationId user)
          (snd (MemStorage.deleteGroup id s)))
       (snd (MemStorage.deleteGroup id s))).
  assert (Hgone : MemStorage.getGroup id (snd (MemStorage.deleteGroup id s))
                  = None).
  { rewrite deleteGroup_eq. apply Map_get_remove_eq. }
  split.
  { unfold Routes.deleteGroupRoute. rewrite Hg, check_access_cases.
    destruct (decide _); [|contradiction].
    now destruct (MemStorage.deleteGroup id s). }
  split; [reflexivity|].
  split; [unfold Routes.getGroupTargets; now rewrite Hgone|].
  split; [reflexivity|]. split; [apply joined_length|].
  intros x Hx Hid.
  apply joined_In in Hx as (c & _ & Hc & _ & _ & Hname & Hcount).
  rewrite Hid in Hc. rewrite Hname, Hcount. unfold Api.group_of.
  rewrite <- Hc, Hgone. split; [reflexivity|].
  rewrite filter_none; [reflexivity|].
  intros t Ht. rewrite deleteGroup_eq in Ht. now apply sweep_clears in Ht.
Qed.

Lemma deleted_group_in_campaigns_witness :
  owned_by 7 (MemStorage.getGroup 1 (serve composing MemStorage.new))
  /\ exists s' shown,
       Routes.deleteGroupRoute user_of_7 1 (serve composing MemStorage.new)
       = (Routes.respond 204 Routes.Empty, s')
       /\ Api.getCampaigns user_of_7 no_rates s'
          = Routes.respond 200 (Routes.JsonList shown)
       /\ length shown = 1%nat.
Proof.
  assert (Ho : owned_by 7 (MemStorage.getGroup 1
                             (serve composing MemStorage.new))).
  { eexists. split; reflexivity. }
  split; [exact Ho|].
  destruct (deleted_group_in_campaigns user_of_7 1 no_rates
              (serve composing MemStorage.new) Ho)
    as (s' & l & Hd & _ & _ & Hl & Hn & _).
  exists s', l. split; [exact Hd|]. split; [exact Hl|exact Hn].
Defined.

(** ** The rows an import accepts *)

Lemma normalizeEntry_fields (a : obj) (header v : string) :
  Routes.normalizeEntry a (header, v) !! "firstName"
  = (if named ["firstname"; "first_name"] header then Some (VStr v)
     else a !! "firstName")
  /\ Routes.normalizeEntry a (header, v) !! "lastName"
     = (if named ["lastname"; "last_name"] header then Some (VStr v)
        else a !! "lastName")
  /\ Routes.normalizeEntry a (header, v) !! "email"
     = (if named ["email"] header then Some (VStr v) else a !! "email")
  /\ Routes.normalizeEntry a (header, v) !! "position"
     = (if named ["position"; "title"] header then Some (VStr v)
        else a !! "position").
Proof.
  unfold Routes.normalizeEntry, named. cbn [existsb].
  generalize (toLowerCase header) as h. intros h.
  destruct (String.eqb h "firstname") eqn:E1;
    [apply String.eqb_eq in E1; subst h; cbn;
     rewrite lookup_insert_eq, !lookup_insert_ne by discriminate; tauto|].
  destruct (String.eqb h "first_name") eqn:E2;
    [apply String.eqb_eq in E2; subst h; cbn;
     rewrite lookup_insert_eq, !lookup_insert_ne by discriminate; tauto|].
  destruct (String.eqb h "lastname") eqn:E3;
    [apply String.eqb_eq in E3; subst h; cbn;
     rewrite lookup_insert_eq, !lookup_insert_ne by discriminate; tauto|].
  destruct (String.eqb h "last_name") eqn:E4;
    [apply String.eqb_eq in E4; subst h; cbn;
     rewrite lookup_insert_eq, !lookup_insert_ne by discriminate; tauto|].
  destruct (String.eqb h "email") eqn:E5;
    [apply String.eqb_eq in E5; subst h; cbn;
     rewrite lookup_insert_eq, !lookup_insert_ne by discriminate; tauto|].
  destruct (String.eqb h "position") eqn:E6;
    [apply String.eqb_eq in E6; subst h; cbn;
     rewrite lookup_insert_eq, !lookup_insert_ne by discriminate; tauto|].
  destruct (String.eqb h "title") eqn:E7;
    [apply String.eqb_eq in E7; subst h; cbn;
     rewrite lookup_insert_eq, !lookup_insert_ne by discriminate; tauto|].
  cbn. tauto.
Qed.

Lemma column_snoc (names : list string) (r : Routes.Row) (header v : string) :
  column names (r ++ [(header, v)])%list
  = if named names header then Some v else column names r.
Proof. unfold column. now rewrite fold_left_app. Qed.

Lemma normalize_fields (r : Routes.Row) :
  Routes.normalize r !! "firstName"
  = VStr <$> column ["firstname"; "first_name"] r
  /\ Routes.normalize r !! "lastName"
     = VStr <$> column ["lastname"; "last_name"] r
  /\ Routes.normalize r !! "email" = VStr <$> column ["email"] r
  /\ Routes.normalize r !! "position"
     = VStr <$> column ["position"; "title"] r.
Proof.
  induction r as [|[header v] r IH] using rev_ind.
  - repeat split; apply lookup_empty.
  - unfold Routes.normalize in *. rewrite fold_left_app. cbn [fold_left].
    destruct (normalizeEntry_fields (fold_left Routes.normalizeEntry r ∅)
                header v) as (H1 & H2 & H3 & H4).
    destruct IH as (I1 & I2 & I3 & I4).
    rewrite H1, H2, H3, H4, I1, I2, I3, I4, !column_snoc.
    repeat split;
      match goal with |- context [named ?n ?h] => now destruct (named n h) end.
Qed.

Lemma column_Some (names : list string) (r : Routes.Row) (v : string) :
  column names r = Some v ->
  exists header, In (header, v) r /\ named names header = true.
Proof.
  induction r as [|[header v'] r IH] using rev_ind; [discriminate|].
  rewrite column_snoc. destruct (named names header) eqn:E.
  - intros [= ->]. exists header. split; [|exact E].
    apply in_or_app. right. now left.
  - intros H. destruct (IH H) as (h & Hin & Hn). exists h.
    split; [|exact Hn]. apply in_or_app. now left.
Qed.

Lemma column_None (names : list string) (r : Routes.Row) :
  column names r = None ->
  forall header v, In (header, v) r -> named names header = false.
Proof.
  induction r as [|[header v'] r IH] using rev_ind; [intros _ h v []|].
  rewrite column_snoc. destruct (named names header) eqn:E; [discriminate|].
  intros H h v Hin. apply in_app_or in Hin as [Hin|[[= <- <-]|[]]];
    [now apply (IH H h v)|exact E].
Qed.

(** X18.  The import accepts a row by its headers alone.  A row passes
    exactly when it has a column headed [firstname] or [first_name], one
    headed [lastname] or [last_name] and one headed [email], in whatever
    case; the values are taken as they are, empty ones included.  The
    target gets the value of the last such column for each of the three,
    and for its position the value of the last column headed [position]
    or [title], if there is one. *)
Theorem rows_pass_by_their_headers (r : Routes.Row) :
  (passes r = true
   <-> (exists header v,
          In (header, v) r /\ named ["firstname"; "first_name"] header = true)
       /\ (exists header v,
             In (header, v) r /\ named ["lastname"; "last_name"] header = true)
       /\ (exists header v, In (header, v) r /\ named ["email"] header = true))
  /\ forall d,
       verdict r = Valid d ->
       column ["firstname"; "first_name"] r = Some (it_firstName d)
       /\ column ["lastname"; "last_name"] r = Some (it_lastName d)
       /\ column ["email"] r = Some (it_email d)
       /\ column ["position"; "title"] r = it_position d.
Proof.
  destruct (normalize_fields r) as (H1 & H2 & H3 & H4).
  assert (Hv : verdict r
               = match column ["firstname"; "first_name"] r,
                       column ["lastname"; "last_name"] r,
                       column ["email"] r with
                 | Some f, Some l, Some e =>
                     Valid {| it_firstName := f; it_lastName := l;
                              it_email := e;
                              it_position := column ["position"; "title"] r |}
                 | _, _, _ =>
                     ZodError
                       (required_string (Routes.normalize r) "firstName"
                        ++ required_string (Routes.normalize r) "lastName"
                        ++ required_string (Routes.normalize r) "email"
                        ++ optional_string (Routes.normalize r) "position")
                 end).
  { unfold verdict, insertTargetSchema_parse, required_string,
      optional_string, the_string, the_opt_string, js_get.
    rewrite H1, H2, H3, H4.
    destruct (column ["firstname"; "first_name"] r),
      (column ["lastname"; "last_name"] r), (column ["email"] r),
      (column ["position"; "title"] r); reflexivity. }
  split.
  - unfold passes. rewrite Hv. split.
    + destruct (column ["firstname"; "first_name"] r) as [f|] eqn:Ef;
        [|discriminate].
      destruct (column ["lastname"; "last_name"] r) as [l|] eqn:El;
        [|discriminate].
      destruct (column ["email"] r) as [e|] eqn:Ee; [|discriminate].
      intros _.
      apply column_Some in Ef as (hf & ? & ?), El as (hl & ? & ?),
        Ee as (he & ? & ?).
      repeat split; eauto.
    + intros ((hf & vf & Hf & Nf) & (hl & vl & Hl & Nl) & (he & ve & He & Ne)).
      destruct (column ["firstname"; "first_name"] r) as [f|] eqn:Ef;
        [|rewrite (column_None _ _ Ef hf vf Hf) in Nf; discriminate].
      destruct (column ["lastname"; "last_name"] r) as [l|] eqn:El;
        [|rewrite (column_None _ _ El hl vl Hl) in Nl; discriminate].
      destruct (column ["email"] r) as [e|] eqn:Ee;
        [|rewrite (column_None _ _ Ee he ve He) in Ne; discriminate].
      reflexivity.
  - intros d. rewrite Hv.
    destruct (column ["firstname"; "first_name"] r) as [f|];
      [|discriminate].
    destruct (column ["lastname"; "last_name"] r) as [l|];
      [|destruct (column ["email"] r); discriminate].
    destruct (column ["email"] r) as [e|]; [|discriminate].
    intros [= <-]. repeat split; reflexivity.
Qed.

(** ** What is made is then listed *)

Lemma Map_values_set_new (k : Z) (v : obj) (m : JsMap) :
  Map_get k m = None ->
  Map_values (Map_set k v m) = (Map_values m ++ [v])%list.
Proof.
  intros H. rewrite (Map_set_new _ _ _ H). unfold Map_values.
  now rewrite map_app.
Qed.

Lemma strict_eq_sym (a b : value) : strict_eq a b = strict_eq b a.
Proof.
  destruct a, b; simpl; try reflexivity.
  - now destruct b0, b.
  - apply Z.eqb_sym.
  - apply String.eqb_sym.
Qed.

(** X19.  [POST /api/groups/:id/targets] with a body that passes, on a
    group of the caller's organization, answers 201 with a target that
    has the counter's value for its [id], the group for its [groupId] and
    the caller's organization; [GET /api/groups/:id/targets] then lists
    it after the targets the group had, and [GET /api/groups], for
    whichever organization, shows one target more for the group and the
    other rows as before. *)
Theorem posted_target_is_counted (user : Routes.SessionUser) (id : Z)
    (body : obj) (d : InsertTarget) (now : Z) (s : MemStorage.state) :
  well_formed s ->
  owned_by (Routes.su_organizationId user) (MemStorage.getGroup id s) ->
  insertTargetSchema_parse body = Valid d ->
  exists t s',
    Api.postTarget user id body now s
    = (Routes.respond 201 (Routes.Json t), s')
    /\ js_get t "id" = VNum (MemStorage.currentId s)
    /\ js_get t "groupId" = VNum id
    /\ js_get t "organizationId" = VNum (Routes.su_organizationId user)
    /\ js_get t "email" = VStr (it_email d)
    /\ Routes.getGroupTargets user id s'
       = Routes.respond 200
           (Routes.JsonList (MemStorage.listTargets id s ++ [t])%list)
    /\ forall o,
         MemStorage.listGroups o s'
         = List.map (counted_in id) (MemStorage.listGroups o s).
Proof.
  intros Hwf (g & Hg & Ho) Hparse.
  pose proof (well_formed_counter_free KTarget s Hwf) as Hfree.
  cbn [table] in Hfree.
  exists (fst (MemStorage.createTarget (Routes.su_organizationId user) id d
                 now s)),
    (snd (MemStorage.createTarget (Routes.su_organizationId user) id d now s)).
  destruct (createTarget_stores (Routes.su_organizationId user) id d now s)
    as [Ht _].
  assert (Hvalues :
            Map_values
              (MemStorage.targets
                 (snd (MemStorage.createTarget (Routes.su_organizationId user)
                         id d now s)))
            = (Map_values (MemStorage.targets s)
               ++ [fst (MemStorage.createTarget (Routes.su_organizationId user)
                          id d now s)])%list).
  { rewrite Ht. now apply Map_values_set_new. }
  split.
  { unfold Api.postTarget. rewrite Hg, check_access_cases.
    destruct (decide _); [|contradiction]. rewrite Hparse.
    now destruct (MemStorage.createTarget _ _ _ _ _). }
  do 4 (split; [reflexivity|]). split.
  - unfold Routes.getGroupTargets.
    change (MemStorage.getGroup id
              (snd (MemStorage.createTarget (Routes.su_organizationId user)
                      id d now s)))
      with (MemStorage.getGroup id s).
    rewrite Hg, check_access_cases. destruct (decide _); [|contradiction].
    unfold MemStorage.listTargets. rewrite Hvalues, List.filter_app.
    cbn [List.filter]. unfold in_group at 2.
    change (js_get (fst (MemStorage.createTarget _ id d now s)) "groupId")
      with (VNum id).
    cbn [strict_eq]. now rewrite Z.eqb_refl.
  - intros o. unfold MemStorage.listGroups.
    change (MemStorage.groups
              (snd (MemStorage.createTarget (Routes.su_organizationId user)
                      id d now s)))
      with (MemStorage.groups s).
    rewrite Hvalues, List.map_map. apply List.map_ext. intros group.
    rewrite List.filter_app, length_app. cbn [List.filter].
    unfold counted_in, one_more, in_group at 2.
    change (js_get (fst (MemStorage.createTarget _ id d now s)) "groupId")
      with (VNum id).
    rewrite !js_get_insert_ne by discriminate. rewrite js_get_insert_eq.
    rewrite (strict_eq_sym (VNum id)).
    destruct (strict_eq (js_get group "id") (VNum id)).
    + rewrite insert_insert_eq. cbn [length]. do 2 f_equal. lia.
    + cbn [length]. do 2 f_equal. lia.
Qed.

Lemma posted_target_is_counted_witness :
  well_formed two_tenants
  /\ owned_by 7 (MemStorage.getGroup 1 two_tenants)
  /\ insertTargetSchema_parse ann_body = Valid ann
  /\ exists t s',
       Api.postTarget user_of_7 1 ann_body 9 two_tenants
       = (Routes.respond 201 (Routes.Json t), s')
       /\ js_get t "id" = VNum 5.
Proof.
  assert (Ho : owned_by 7 (MemStorage.getGroup 1 two_tenants)).
  { eexists. split; reflexivity. }
  split; [exact two_tenants_well_formed|]. split; [exact Ho|].
  split; [reflexivity|].
  destruct (posted_target_is_counted user_of_7 1 ann_body ann 9 two_tenants
              two_tenants_well_formed Ho eq_refl)
    as (t & s' & E & Hid & _).
  exists t, s'. split; [exact E|exact Hid].
Defined.

Lemma filter_last_in_organization (o o' : Z) (l : list obj) (e : obj) :
  js_get e "organizationId" = VNum o ->
  List.filter (in_organization o') (l ++ [e])
  = if decide (o' = o) then (List.filter (in_organization o') l ++ [e])%list
    else List.filter (in_organization o') l.
Proof.
  intros He. rewrite List.filter_app. cbn [List.filter].
  unfold in_organization at 2. rewrite He. cbn [strict_eq].
  destruct (decide (o' = o)) as [->|Hne].
  - now rewrite Z.eqb_refl.
  - apply Z.eqb_neq in Hne. rewrite Z.eqb_sym, Hne. apply app_nil_r.
Qed.

(** X20.  A [POST] of an SMTP profile, of an email template or of a
    landing page that is answered with 201 returns an entity that has
    the counter's value for its [id] and the caller's organization; the
    [GET] of the same path then lists it last for a reader of that
    organization, after what it listed before, and lists for a reader of
    another organization what it listed before. *)
Theorem posted_resource_is_listed (res : resource)
    (user reader : Routes.SessionUser) (body : obj) (now : Z)
    (s s' : MemStorage.state) (a : Routes.Response) :
  well_formed s ->
  Api.handle user (post_of res body now) s = (Api.Answer a, s') ->
  Routes.status a = 201 ->
  exists e l,
    Routes.body a = Routes.Json e
    /\ js_get e "id" = VNum (MemStorage.currentId s)
    /\ js_get e "organizationId" = VNum (Routes.su_organizationId user)
    /\ fst (Api.handle reader (get_of res) s)
       = Api.Answer (Routes.respond 200 (Routes.JsonList l))
    /\ fst (Api.handle reader (get_of res) s')
       = Api.Answer
           (Routes.respond 200
              (Routes.JsonList
                 (if decide (Routes.su_organizationId reader
                             = Routes.su_organizationId user)
                  then (l ++ [e])%list else l))).
Proof.
  intros Hwf E H201.
  destruct res; cbn [post_of get_of Api.handle fst snd] in *.
  - unfold Api.postSmtpProfile in E.
    destruct (insertSmtpProfileSchema_parse body) as [d|];
      [|injection E as <- <-; discriminate H201].
    injection E as <- <-.
    exists (fst (MemStorage.createSmtpProfile (Routes.su_organizationId user)
                   d now s)).
    eexists. do 4 (split; [reflexivity|]).
    unfold Api.getSmtpProfiles, MemStorage.listSmtpProfiles.
    cbn [MemStorage.smtpProfiles MemStorage.set_smtpProfiles].
    rewrite Map_values_set_new
      by apply (well_formed_counter_free KSmtpProfile s Hwf).
    now rewrite (filter_last_in_organization (Routes.su_organizationId user)).
  - unfold Api.postEmailTemplate in E.
    destruct (insertEmailTemplateSchema_parse body) as [d|];
      [|injection E as <- <-; discriminate H201].
    injection E as <- <-.
    exists (fst (MemStorage.createEmailTemplate
                   (Routes.su_organizationId user) (Routes.su_id user)
                   d now s)).
    eexists. do 4 (split; [reflexivity|]).
    unfold Api.getEmailTemplates, MemStorage.listEmailTemplates.
    cbn [MemStorage.emailTemplates MemStorage.set_emailTemplates].
    rewrite Map_values_set_new
      by apply (well_formed_counter_free KEmailTemplate s Hwf).
    now rewrite (filter_last_in_organization (Routes.su_organizationId user)).
  - unfold Api.postLandingPage in E.
    destruct (insertLandingPageSchema_parse body) as [d|];
      [|injection E as <- <-; discriminate H201].
    injection E as <- <-.
    exists (fst (MemStorage.createLandingPage
                   (Routes.su_organizationId user) (Routes.su_id user)
                   d now s)).
    eexists. do 4 (split; [reflexivity|]).
    unfold Api.getLandingPages, MemStorage.listLandingPages.
    cbn [MemStorage.landingPages MemStorage.set_landingPages].
    rewrite Map_values_set_new
      by apply (well_formed_counter_free KLandingPage s Hwf).
    now rewrite (filter_last_in_organization (Routes.su_organizationId user)).
Qed.

Lemma posted_resource_is_listed_witness :
  well_formed two_tenants
  /\ Routes.status
       (fst (Api.postSmtpProfile user_of_7 relay_body 9 two_tenants)) = 201
  /\ exists e l,
       Routes.body
         (fst (Api.postSmtpProfile user_of_7 relay_body 9 two_tenants))
       = Routes.Json e
       /\ fst (Api.handle user_of_8 Api.GET_smtp_profiles two_tenants)
          = Api.Answer (Routes.respond 200 (Routes.JsonList l))
       /\ fst (Api.handle user_of_8 Api.GET_smtp_profiles
                 (snd (Api.postSmtpProfile user_of_7 relay_body 9
                         two_tenants)))
          = Api.Answer (Routes.respond 200 (Routes.JsonList l)).
Proof.
  split; [exact two_tenants_well_formed|]. split; [reflexivity|].
  destruct (posted_resource_is_listed SmtpProfiles user_of_7 user_of_8
              relay_body 9 two_tenants
              (snd (Api.postSmtpProfile user_of_7 relay_body 9 two_tenants))
              (fst (Api.postSmtpProfile user_of_7 relay_body 9 two_tenants))
              two_tenants_well_formed)
    as (e & l & He & _ & _ & Hbefore & Hafter).
  - cbn [post_of Api.handle fst snd].
    now destruct (Api.postSmtpProfile _ _ _ _).
  - reflexivity.
  - exists e, l. split; [exact He|]. split; [exact Hbefore|exact Hafter].
Defined.

(** ** What the responses show *)

(** X21.  In a consistent store, every object that a handler sends, alone
    or in a list, belongs to the caller's organization: the entity a
    [POST] made or a [PUT] changed, the rows of each list and the targets
    of a group, which the handler selects by their group alone.  (The
    summaries of [GET /api/campaigns/recent] carry no [organizationId].) *)
Theorem responses_show_only_own_entities (user : Routes.SessionUser)
    (r : Api.Request) (s : MemStorage.state) (x : obj) :
  consistent s ->
  (forall mock, r <> Api.GET_campaigns_recent mock) ->
  In x (shown (fst (Api.handle user r s))) ->
  js_get x "organizationId" = VNum (Routes.su_organizationId user).
Proof.
  intros (Hwf & _ & HT & _) Hr.
  destruct r; cbn [Api.handle fst snd shown].
  - intros [].
  - now destruct (Hr mock).
  - apply listGroups_scoped.
  - unfold Api.postGroup.
    destruct (insertGroupSchema_parse body); [|intros []].
    intros [<-|[]]. reflexivity.
  - unfold Api.putGroup.
    destruct (Routes.check_access user (MemStorage.getGroup id s)) as [| |g]
      eqn:Ha; try (now intros []).
    destruct (insertGroupSchema_parse body); [|intros []].
    apply check_access_owned in Ha as [Hg Ho].
    unfold MemStorage.updateGroup. unfold MemStorage.getGroup in Hg.
    rewrite Hg. intros [<-|[]]. unfold js_get.
    rewrite merged_field by discriminate.
    rewrite (picked_only ["name"; "description"] body);
      [exact Ho|simpl; intuition discriminate].
  - unfold Routes.deleteGroupRoute.
    destruct (Routes.check_access _ _); intros [].
  - unfold Routes.getGroupTargets.
    destruct (Routes.check_access user (MemStorage.getGroup id s)) as [| |g]
      eqn:Ha; try (now intros []).
    apply check_access_owned in Ha as [Hg Ho].
    cbn [Routes.body Routes.respond]. unfold MemStorage.listTargets.
    intros Hin. apply filter_In in Hin as [Hin Hgroup].
    unfold Map_values in Hin. apply in_map_iff in Hin as [[tid t] [E Hin]].
    simpl in E. subst t.
    apply In_Map_get in Hin; [|apply (well_formed_table KTarget s Hwf)].
    destruct (HT tid x Hin) as (groupId & g' & Hgid & Hg' & Ho').
    unfold in_group in Hgroup. rewrite Hgid in Hgroup. simpl in Hgroup.
    apply Z.eqb_eq in Hgroup. subst groupId. congruence.
  - unfold Api.postTarget.
    destruct (Routes.check_access _ _); try (now intros []).
    destruct (insertTargetSchema_parse body); [|intros []].
    intros [<-|[]]. reflexivity.
  - unfold Routes.importTargets.
    destruct (Routes.check_access _ _); try (now intros []).
    destruct file; [|intros []].
    destruct (Nat.ltb 0 _); [intros []|].
    destruct (Routes.importRows _ _ _ _ _) as [[imported errors] s'].
    intros [].
  - apply filter_scoped.
  - unfold Api.postSmtpProfile.
    destruct (insertSmtpProfileSchema_parse body); [|intros []].
    intros [<-|[]]. reflexivity.
  - apply filter_scoped.
  - unfold Api.postEmailTemplate.
    destruct (insertEmailTemplateSchema_parse body); [|intros []].
    intros [<-|[]]. reflexivity.
  - unfold Api.putEmailTemplate.
    destruct (Routes.check_access user (MemStorage.getEmailTemplate id s))
      as [| |g] eqn:Ha; try (now intros []).
    destruct (insertEmailTemplateSchema_parse body); [|intros []].
    apply check_access_owned in Ha as [Hg Ho].
    unfold MemStorage.updateEmailTemplate.
    unfold MemStorage.getEmailTemplate in Hg.
    rewrite Hg. intros [<-|[]]. unfold js_get.
    rewrite merged_field by discriminate.
    rewrite (picked_only ["name"; "subject"; "htmlContent"; "textContent";
                          "senderName"; "senderEmail"] body);
      [exact Ho|simpl; intuition discriminate].
  - apply filter_scoped.
  - unfold Api.postLandingPage.
    destruct (insertLandingPageSchema_parse body); [|intros []].
    intros [<-|[]]. reflexivity.
  - cbn [Api.getCampaigns Routes.body Routes.respond]. intros Hin.
    apply joined_In in Hin as (c & Hc & _ & Ho & _).
    rewrite Ho. now apply filter_scoped in Hc.
  - unfold Routes.postCampaign.
    destruct (insertCampaignSchema_parse body); [|intros []].
    repeat (destruct (Routes.check_access _ _); try (now intros [])).
    intros [<-|[]]. reflexivity.
  - apply filter_scoped.
Qed.

Lemma responses_show_only_own_entities_witness :
  consistent two_tenants
  /\ (forall mock,
        Api.GET_groups_id_targets 1 <> Api.GET_campaigns_recent mock)
  /\ length (shown (fst (Api.handle user_of_7 (Api.GET_groups_id_targets 1)
                           two_tenants))) = 1%nat
  /\ forall x,
       In x (shown (fst (Api.handle user_of_7 (Api.GET_groups_id_targets 1)
                           two_tenants))) ->
       js_get x "organizationId" = VNum 7.
Proof.
  assert (Hr : forall mock,
            Api.GET_groups_id_targets 1 <> Api.GET_campaigns_recent mock)
    by discriminate.
  split; [exact two_tenants_consistent|]. split; [exact Hr|].
  split; [reflexivity|].
  intros x.
  apply (responses_show_only_own_entities user_of_7
           (Api.GET_groups_id_targets 1) two_tenants x
           two_tenants_consistent Hr).
Defined.

(** ** The two backings on a consistent store *)

Lemma Permutation_select (f : obj -> bool) (l l' : list obj) :
  Permutation l l' -> Permutation (List.filter f l) (List.filter f l').
Proof.
  induction 1 as [|x l l' _ IH|x y l|l l' l'' _ IH _ IH']; simpl.
  - constructor.
  - destruct (f x); [now constructor|exact IH].
  - destruct (f x), (f y); try reflexivity. constructor.
  - now transitivity (List.filter f l').
Qed.

Lemma select_by_id (n : Z) (m : JsMap) :
  unique_keys m ->
  (forall id e, Map_get id m = Some e -> js_get e "id" = VNum id) ->
  DatabaseStorage.select_where "id" (VNum n) (Map_values m)
  = match Map_get n m with Some e => [e] | None => [] end.
Proof.
  unfold unique_keys, Map_keys.
  induction m as [|[k v] m IH]; intros Hu Hid; [reflexivity|].
  cbn [map fst] in Hu. apply NoDup_cons_iff in Hu as [Hnotin Hu].
  cbn [Map_values List.map snd DatabaseStorage.select_where List.filter
       Map_get].
  assert (Hv : js_get v "id" = VNum k).
  { apply Hid. simpl. now rewrite Z.eqb_refl. }
  assert (Hid' : forall id e, Map_get id m = Some e -> js_get e "id" = VNum id).
  { intros id e He. apply Hid. simpl.
    destruct (Z.eqb id k) eqn:E'; [|exact He].
    apply Z.eqb_eq in E'. subst id. exfalso. apply Hnotin.
    apply Map_get_In in He. now apply (in_map fst) in He. }
  specialize (IH Hu Hid').
  unfold DatabaseStorage.select_where, Map_values in IH.
  rewrite Hv. cbn [DatabaseStorage.sql_eq]. rewrite (Z.eqb_sym k n).
  destruct (Z.eqb n k) eqn:E; [|exact IH].
  apply Z.eqb_eq in E. subst k. rewrite IH.
  destruct (Map_get n m) as [e|] eqn:He; [|reflexivity].
  exfalso. apply Hnotin. apply Map_get_In in He.
  now apply (in_map fst) in He.
Qed.

Lemma head_select_permuted (n : Z) (m : JsMap) (rows : list obj) :
  unique_keys m ->
  (forall id e, Map_get id m = Some e -> js_get e "id" = VNum id) ->
  Permutation rows (Map_values m) ->
  head (DatabaseStorage.select_where "id" (VNum n) rows) = Map_get n m.
Proof.
  intros Hu Hid Hp.
  pose proof (Permutation_select
                (fun row => DatabaseStorage.sql_eq (js_get row "id") (VNum n))
                _ _ Hp) as Hsel.
  fold (DatabaseStorage.select_where "id" (VNum n) rows) in Hsel.
  fold (DatabaseStorage.select_where "id" (VNum n) (Map_values m)) in Hsel.
  rewrite (select_by_id n m Hu Hid) in Hsel.
  destruct (Map_get n m) as [e|].
  - apply Permutation_sym, Permutation_length_1_inv in Hsel. now rewrite Hsel.
  - apply Permutation_sym, Permutation_nil in Hsel. now rewrite Hsel.
Qed.

(** X22.  Let the relational backing hold the rows that the in-memory
    backing holds in a consistent store, each table in whatever order.
    For a number in the range of an [integer] column, the two backings
    answer every fetch by id alike: that of a user, a group, a target,
    an SMTP profile, an email template, a landing page, a campaign or a
    campaign result.  And they list the same entities, possibly in
    another order: the seven lists, and the groups of an organization
    with their counts of targets. *)
Theorem backings_agree_on_reads (s : MemStorage.state)
    (db : DatabaseStorage.database) (n : Z) :
  consistent s ->
  same_rows db s ->
  int4 n ->
  (DatabaseStorage.getUser n db = MemStorage.getUser n s
   /\ DatabaseStorage.getGroup n db = MemStorage.getGroup n s
   /\ DatabaseStorage.getTarget n db = MemStorage.getTarget n s
   /\ DatabaseStorage.getSmtpProfile n db = MemStorage.getSmtpProfile n s
   /\ DatabaseStorage.getEmailTemplate n db = MemStorage.getEmailTemplate n s
   /\ DatabaseStorage.getLandingPage n db = MemStorage.getLandingPage n s
   /\ DatabaseStorage.getCampaign n db = MemStorage.getCampaign n s
   /\ DatabaseStorage.getCampaignResult n db
      = MemStorage.getCampaignResult n s)
  /\ Permutation (DatabaseStorage.listGroups n db) (MemStorage.listGroups n s)
  /\ Permutation (DatabaseStorage.listUsers n db) (MemStorage.listUsers n s)
  /\ Permutation (DatabaseStorage.listTargets n db)
       (MemStorage.listTargets n s)
  /\ Permutation (DatabaseStorage.listSmtpProfiles n db)
       (MemStorage.listSmtpProfiles n s)
  /\ Permutation (DatabaseStorage.listEmailTemplates n db)
       (MemStorage.listEmailTemplates n s)
  /\ Permutation (DatabaseStorage.listLandingPages n db)
       (MemStorage.listLandingPages n s)
  /\ Permutation (DatabaseStorage.listCampaigns n db)
       (MemStorage.listCampaigns n s)
  /\ Permutation (DatabaseStorage.listCampaignResults n db)
       (MemStorage.listCampaignResults n s).
Proof.
  intros (Hwf & HI & _ & _)
         (Pusers & _ & Pgroups & Ptargets & Psmtp & Ptemplates & Ppages
          & Pcampaigns & Presults) _.
  assert (Hget : forall k rows,
            Permutation rows (Map_values (table k s)) ->
            head (DatabaseStorage.select_where "id" (VNum n) rows)
            = Map_get n (table k s)).
  { intros k rows. apply head_select_permuted.
    - apply (well_formed_table k s Hwf).
    - apply (HI k). }
  split.
  { split; [exact (Hget KUser _ Pusers)|].
    split; [exact (Hget KGroup _ Pgroups)|].
    split; [exact (Hget KTarget _ Ptargets)|].
    split; [exact (Hget KSmtpProfile _ Psmtp)|].
    split; [exact (Hget KEmailTemplate _ Ptemplates)|].
    split; [exact (Hget KLandingPage _ Ppages)|].
    split; [exact (Hget KCampaign _ Pcampaigns)
           |exact (Hget KCampaignResult _ Presults)]. }
  assert (Hsel : forall column m l,
            DatabaseStorage.select_where column (VNum m) l
            = List.filter (fun row => strict_eq (js_get row column) (VNum m))
                          l).
  { intros column m l. apply filter_ext. intros row. apply sql_eq_num. }
  assert (Hlist : forall column rows values,
            Permutation rows values ->
            Permutation
              (DatabaseStorage.select_where column (VNum n) rows)
              (List.filter (fun row => strict_eq (js_get row column) (VNum n))
                           values)).
  { intros column rows values Hp. rewrite Hsel.
    now apply Permutation_select. }
  split; [|repeat split; now apply Hlist].
  unfold DatabaseStorage.listGroups, MemStorage.listGroups.
  transitivity
    (List.map
       (fun group =>
          <["targetCount" :=
              VNum (Z.of_nat
                      (length (List.filter (in_group (js_get group "id"))
                                 (Map_values (MemStorage.targets s)))))]>
            group)
       (DatabaseStorage.select_where "organizationId" (VNum n)
          (DatabaseStorage.groups db))).
  - erewrite map_ext_in; [reflexivity|].
    intros g Hg. cbv beta zeta. rewrite js_or_count.
    apply filter_In in Hg as [Hg _].
    apply (Permutation_in _ Pgroups) in Hg.
    unfold Map_values in Hg. apply in_map_iff in Hg as [[id g'] [E Hg]].
    simpl in E. subst g'.
    apply In_Map_get in Hg; [|apply (well_formed_table KGroup s Hwf)].
    rewrite (HI KGroup id g Hg), Hsel.
    do 3 f_equal. apply Permutation_length.
    now apply Permutation_select.
  - apply Permutation_map. now apply Hlist.
Qed.

Lemma backings_agree_on_reads_witness :
  consistent two_tenants
  /\ same_rows (backwards two_tenants) two_tenants
  /\ int4 3
  /\ DatabaseStorage.getGroup 3 (backwards two_tenants)
     = MemStorage.getGroup 3 two_tenants
  /\ Permutation (DatabaseStorage.listTargets 3 (backwards two_tenants))
       (MemStorage.listTargets 3 two_tenants).
Proof.
  assert (Hrows : same_rows (backwards two_tenants) two_tenants).
  { repeat split; symmetry; apply Permutation_rev. }
  assert (Hn : int4 3) by (split; discriminate).
  destruct (backings_agree_on_reads two_tenants (backwards two_tenants) 3
              two_tenants_consistent Hrows Hn)
    as ((_ & Hg & _) & _ & _ & Hl & _).
  split; [exact two_tenants_consistent|]. split; [exact Hrows|].
  split; [exact Hn|]. split; [exact Hg|exact Hl].
Defined.
